(** * Room hub of the chat worker: a shallow embedding of [src/server/index.ts]

    The class [Chat] is a per-room actor.  Its fields ([roomId],
    [authTimers], [pingTimers], [lastMessage]) are the record [Hub]; the
    part of the host it talks to (the connection objects, the table of
    armed one-shot timers behind [setTimeout]/[clearTimeout], the clock
    behind [Date.now()]) is the record [World].  Every handler is a function
    from a world to a new world and the list of calls it made on connections
    ([conn.send], [conn.close]), in order.

    Conventions of the embedding:
    - a field typed [string | undefined] is an [option string]; JavaScript
      truthiness of such a value is [truthy_str] (absent and empty are falsy);
    - values typed [unknown] (the broadcast body, the cache) are [json];
      numbers are integers;
    - a payload handed to [JSON.stringify] is kept as the [json] object it is
      built from; a key whose value is [undefined] is left out, as
      [JSON.stringify] does;
    - [JSON.parse(String(raw))] and [request.json()] are taken by their
      results ([WSParsed], [option Body]);
    - [onMessage] is [async] and suspends once, at the call of the backend:
      [onMessage_begin] runs up to that point and [onMessage_resume] from it;
    - a connection object is a socket, numbered by its place in the host's
      list, and has an id, [conn.id]; the id is chosen by the client, so two
      sockets may carry the same one, and the hub's timer maps are keyed
      by it. *)

From Stdlib Require Import ZArith String Ascii List Bool Lia DecimalString DecimalNat.
From stdpp Require Import base gmap list strings.
Import ListNotations.
Local Open Scope string_scope.
Local Open Scope Z_scope.
Local Open Scope list_scope.

(** ** JavaScript values *)

#[local] Set Warnings "-register-all".

Inductive json : Type :=
| JNull
| JBool (b : bool)
| JNum (n : Z)
| JStr (s : string)
| JArr (items : list json)
| JObj (fields : list (string * json)).

(** Truthiness of a [string | undefined]. *)
Definition truthy_str (o : option string) : bool :=
  match o with
  | Some s => negb (String.eqb s "")
  | None => false
  end.

(** [a || b] on [string | undefined]. *)
Definition or_str (a b : option string) : option string :=
  if truthy_str a then a else b.

(** Truthiness of a parsed JSON value. *)
Definition truthy_json (j : json) : bool :=
  match j with
  | JNull => false
  | JBool b => b
  | JNum n => negb (Z.eqb n 0)
  | JStr s => negb (String.eqb s "")
  | JArr _ | JObj _ => true
  end.

Definition truthy_opt_json (o : option json) : bool :=
  match o with
  | Some j => truthy_json j
  | None => false
  end.

(** A timer handle is a number: [if (t)] is false for [undefined] and [0]. *)
Definition truthy_handle (t : nat) : bool := negb (Nat.eqb t 0).

(** Own enumerable properties copied by an object spread [{...v}]. *)
Definition index_key (i : nat) : string :=
  NilEmpty.string_of_uint (Nat.to_uint i).

Fixpoint indexed {A} (f : A -> json) (i : nat) (l : list A) : list (string * json) :=
  match l with
  | [] => []
  | x :: r => (index_key i, f x) :: indexed f (S i) r
  end.

(** A JavaScript string is a sequence of UTF-16 code units, and spreading
    one gives a property per code unit.  Text is kept here as UTF-8 bytes,
    so [code_units] cuts it where UTF-16 does: a sequence of one, two or
    three bytes is one unit; a sequence of four bytes (a character outside
    the basic plane) is two, the surrogates, each written in the three-byte
    form.  A byte that starts no sequence stands alone. *)
Definition unit3 (u : N) : string :=
  String (ascii_of_N (224 + u / 4096))
    (String (ascii_of_N (128 + (u / 64) mod 64))
       (String (ascii_of_N (128 + u mod 64)) EmptyString)).

Definition surrogates (a b c d : ascii) : list string :=
  let cp := ((N_of_ascii a mod 8) * 262144 + (N_of_ascii b mod 64) * 4096
             + (N_of_ascii c mod 64) * 64 + N_of_ascii d mod 64)%N in
  let v := (cp - 65536)%N in
  [unit3 (55296 + v / 1024); unit3 (56320 + v mod 1024)].

Fixpoint code_units (s : string) : list string :=
  match s with
  | EmptyString => []
  | String a r =>
      let n := N_of_ascii a in
      if (n <? 192)%N then String a EmptyString :: code_units r
      else if (n <? 224)%N then
        match r with
        | String b r' => String a (String b EmptyString) :: code_units r'
        | EmptyString => [String a EmptyString]
        end
      else if (n <? 240)%N then
        match r with
        | String b (String c r') =>
            String a (String b (String c EmptyString)) :: code_units r'
        | _ => String a EmptyString :: code_units r
        end
      else
        match r with
        | String b (String c (String d r')) => surrogates a b c d ++ code_units r'
        | _ => String a EmptyString :: code_units r
        end
  end.

Definition spread (v : json) : list (string * json) :=
  match v with
  | JObj fields => fields
  | JArr items => indexed (fun x => x) 0 items
  | JStr s => indexed JStr 0 (code_units s)
  | JNull | JBool _ | JNum _ => []
  end.


(** [{ ...o, k: v }]: an existing key keeps its place and takes the new
    value, a new key goes last. *)
Fixpoint obj_set (k : string) (v : json) (o : list (string * json)) : list (string * json) :=
  match o with
  | [] => [(k, v)]
  | (k', v') :: r =>
      if String.eqb k' k then (k, v) :: r else (k', v') :: obj_set k v r
  end.

(** ** Payloads sent to clients *)

Definition payload_info : json :=
  JObj [("type", JStr "info"); ("message", JStr "please auth")].

Definition payload_error (code message : string) : json :=
  JObj [("type", JStr "error"); ("code", JStr code); ("message", JStr message)].

Definition payload_auth_ok : json := JObj [("type", JStr "auth:ok")].

Definition payload_pong (t : Z) : json := JObj [("type", JStr "pong"); ("t", JNum t)].

Definition payload_typing (userId : string) (isTyping : bool)
    (room : option string) (timestamp : Z) (before : json) : json :=
  JObj ([("type", JStr "typing"); ("userId", JStr userId); ("isTyping", JBool isTyping)]
        ++ match room with Some r => [("roomId", JStr r)] | None => [] end
        ++ [("timestamp", JNum timestamp); ("before", before)]).

Definition payload_broadcast (message before : json) : json :=
  JObj (obj_set "before" before (spread message)).

(** Close codes used by the hub. *)
Definition CLOSE_UNAUTHORIZED : Z := 4401.
Definition CLOSE_NORMAL : Z := 1000.

(** Delays handed to [setTimeout], in milliseconds. *)
Definition AUTH_TIMEOUT_MS : Z := 10000.
Definition PING_TIMEOUT_MS : Z := 30000.

(** ** State *)

(** [AuthedConn]: the connection object with the two fields the hub adds.
    [conn.id] is what the host took from the [_pk] parameter of the
    client's request (a random one when there is none), so nothing keeps
    two sockets from carrying the same id; the object itself is told apart
    by its place in the host's list, its socket number. *)
Record Conn := {
  conn_id : string;
  authed : bool;
  userId : option string;
  conn_open : bool
}.

(** The closure handed to [setTimeout]: it holds the connection object
    (the socket [s]), whose [conn.id] never changes and is kept beside it. *)
Inductive callback :=
| AuthTimeout (s : nat) (id : string)
| PingTimeout (s : nat) (id : string).

(** An armed one-shot timer of the host. *)
Record Timer := {
  t_handle : nat;
  t_due : Z;
  t_cb : callback
}.

(** The fields of [Chat]. *)
Record Hub := {
  roomId : option string;
  authTimers : gmap string nat;
  pingTimers : gmap string nat;
  lastMessage : json
}.

Record Env := {
  BACKEND_ORIGIN : string;
  WEBHOOK_TOKEN : string
}.

(** The hub and the part of the host around it; [conns] is the list of
    connection objects, a socket being the index of its object. *)
Record World := {
  hub : Hub;
  env : Env;
  conns : list Conn;
  timers : list Timer;
  next_handle : nat;
  now : Z
}.

(** A call on the connection object of the socket [s]. *)
Inductive Output :=
| Send (s : nat) (payload : json)
| Close (s : nat) (code : Z) (reason : string).

Definition Action : Type := World -> World * list Output.

Definition andThen (a b : Action) : Action :=
  fun w =>
    let '(w1, o1) := a w in
    let '(w2, o2) := b w1 in
    (w2, o1 ++ o2).

Infix ">>>" := andThen (at level 61, left associativity).

Definition modify (f : World -> World) : Action := fun w => (f w, []).

(** *** Field updates *)

Definition set_hub (h : Hub) (w : World) : World :=
  {| hub := h; env := env w; conns := conns w; timers := timers w;
     next_handle := next_handle w; now := now w |}.

Definition set_conns (cs : list Conn) (w : World) : World :=
  {| hub := hub w; env := env w; conns := cs; timers := timers w;
     next_handle := next_handle w; now := now w |}.

Definition set_timers (ts : list Timer) (w : World) : World :=
  {| hub := hub w; env := env w; conns := conns w; timers := ts;
     next_handle := next_handle w; now := now w |}.

Definition set_roomId (r : option string) (w : World) : World :=
  set_hub {| roomId := r; authTimers := authTimers (hub w);
             pingTimers := pingTimers (hub w); lastMessage := lastMessage (hub w) |} w.

Definition set_authTimers (m : gmap string nat) (w : World) : World :=
  set_hub {| roomId := roomId (hub w); authTimers := m;
             pingTimers := pingTimers (hub w); lastMessage := lastMessage (hub w) |} w.

Definition set_pingTimers (m : gmap string nat) (w : World) : World :=
  set_hub {| roomId := roomId (hub w); authTimers := authTimers (hub w);
             pingTimers := m; lastMessage := lastMessage (hub w) |} w.

Definition set_lastMessage (j : json) (w : World) : World :=
  set_hub {| roomId := roomId (hub w); authTimers := authTimers (hub w);
             pingTimers := pingTimers (hub w); lastMessage := j |} w.

(** A write to a field of the connection object of the socket [s]. *)
Definition update_conn (s : nat) (f : Conn -> Conn) (w : World) : World :=
  set_conns (alter f s (conns w)) w.

Definition conn_ids (w : World) : list string := map conn_id (conns w).

(** [conn.id] of the socket [s]. *)
Definition conn_key (s : nat) (w : World) : option string :=
  conn_id <$> conns w !! s.

(** [conn.authed], read as a condition. *)
Definition conn_authed (s : nat) (w : World) : bool :=
  match conns w !! s with
  | Some k => authed k
  | None => false
  end.

Definition conn_userId (s : nat) (w : World) : option string :=
  match conns w !! s with
  | Some k => userId k
  | None => None
  end.

Definition mark_authed (u : option string) (k : Conn) : Conn :=
  {| conn_id := conn_id k; authed := true; userId := u; conn_open := conn_open k |}.

Definition mark_closed (k : Conn) : Conn :=
  {| conn_id := conn_id k; authed := authed k; userId := userId k; conn_open := false |}.

(** ** The host: connections, timers, fan-out *)

Definition send (s : nat) (payload : json) : Action :=
  fun w => (w, [Send s payload]).

Definition close (s : nat) (code : Z) (reason : string) : Action :=
  fun w => (update_conn s mark_closed w, [Close s code reason]).

(** [setTimeout(cb, delay)]: a fresh handle, due [delay] after the current
    instant. *)
Definition setTimeout (cb : callback) (delay : Z) (w : World) : nat * World :=
  (next_handle w,
   {| hub := hub w; env := env w; conns := conns w;
      timers := timers w ++ [{| t_handle := next_handle w; t_due := now w + delay; t_cb := cb |}];
      next_handle := S (next_handle w); now := now w |}).

(** [clearTimeout(h)]: silent when [h] is not armed. *)
Definition clearTimeout (h : nat) (w : World) : World :=
  set_timers (List.filter (fun t => negb (Nat.eqb (t_handle t) h)) (timers w)) w.

(** [without.includes(id)], false when [without] is absent. *)
Definition excluded (without : option (list string)) (id : string) : bool :=
  match without with
  | Some l => existsb (String.eqb id) l
  | None => false
  end.

(** The connection objects with their socket numbers, from [i] on. *)
Fixpoint numbered (i : nat) (l : list Conn) : list (nat * Conn) :=
  match l with
  | [] => []
  | k :: r => (i, k) :: numbered (S i) r
  end.

(** [Server.broadcast(msg, without)] of partyserver: every open socket
    whose [conn.id] is not in [without]. *)
Definition recipients (without : option (list string)) (w : World) : list nat :=
  map fst
    (List.filter (fun sk => conn_open (snd sk) && negb (excluded without (conn_id (snd sk))))
                 (numbered 0 (conns w))).

Definition broadcast (msg : json) (without : option (list string)) : Action :=
  fun w => (w, map (fun s => Send s msg) (recipients without w)).

(** ** Messages from clients *)

(** The fields of a client message that the hub reads, at the types the
    repository's [Message] union declares for them. *)
Record ClientMsg := {
  m_type : option string;
  m_token : option string;
  m_roomId : option string;
  m_userId : option string;
  m_isTyping : option bool;
  m_t : option Z
}.

(** Result of [JSON.parse(String(raw))]. *)
Inductive WSParsed :=
| BadJson                      (* the parse throws *)
| NonObject                    (* null, a number, a string, an array *)
| Parsed (m : ClientMsg).

(** What [res.json()] makes of the body of the backend's answer. *)
Inductive ReplyBody :=
| NotJson                              (* it rejects: [.catch(() => ({}))] *)
| JsonNull                             (* the body is the text null *)
| JsonValue (userId : option string).  (* any other value, with its [userId] if it has one *)

(** What [fetch] to the backend comes back with. *)
Inductive BackendReply :=
| FetchThrows
| Responded (status : Z) (body : ReplyBody).

(** Return value of [checkParticipant]. *)
Record AuthResult := {
  success : bool;
  result_userId : option string
}.

(** [data.userId] throws when [data] is null, and the [catch] around the
    whole call turns that into a refusal. *)
Definition checkParticipant_result (reply : BackendReply) : AuthResult :=
  match reply with
  | Responded status body =>
      if Z.eqb status 200 then
        match body with
        | NotJson => {| success := true; result_userId := None |}
        | JsonNull => {| success := false; result_userId := None |}
        | JsonValue u => {| success := true; result_userId := u |}
        end
      else {| success := false; result_userId := None |}
  | FetchThrows => {| success := false; result_userId := None |}
  end.

(** The locals of [onMessage] that are live across the [await]: [conn]
    (the socket and its id), [roomId], and [msg] for its [userId]; [token]
    has been handed to [checkParticipant]. *)
Record Pending := {
  p_conn : nat;
  p_id : string;
  p_roomId : string;
  p_token : string;
  p_hint : option string        (* msg.userId *)
}.

Inductive MsgStep :=
| Done (r : World * list Output)
| Await (p : Pending).

(** ** Routing context of a connection, and [extractRoomId] *)

Record Url := {
  url_pathname : string;
  url_room_param : option string       (* searchParams.get("room") *)
}.

Inductive UrlAttr :=
| UrlAbsent
| UrlInvalid                   (* [new URL] throws *)
| UrlParsed (u : Url).

Record ConnInfo := {
  ci_url : UrlAttr;
  ci_roomHeader : option string;       (* X-PartyKit-Room *)
  ci_originalUrl : UrlAttr;            (* X-Original-URL *)
  ci_roomName : option string          (* conn.room?.name *)
}.

Fixpoint no_slash (s : string) : bool :=
  match s with
  | EmptyString => true
  | String a r => negb (Ascii.eqb a "/"%char) && no_slash r
  end.

(** [pathname.match(/^\/rooms\/([^/]+)$/)], giving the captured group. *)
Definition match_room_path (p : string) : option string :=
  if String.prefix "/rooms/" p then
    let r := String.substring 7 (String.length p - 7) p in
    if negb (String.eqb r "") && no_slash r then Some r else None
  else None.

Definition extractRoomId (ci : ConnInfo) : option string :=
  match ci_url ci with
  | UrlInvalid => None
  | UrlParsed u =>
      match match_room_path (url_pathname u) with
      | Some r => Some r
      | None => url_room_param u
      end
  | UrlAbsent =>
      if truthy_str (ci_roomHeader ci) then ci_roomHeader ci
      else
        let fromName := if truthy_str (ci_roomName ci) then ci_roomName ci else None in
        match ci_originalUrl ci with
        | UrlInvalid => None
        | UrlParsed u =>
            match match_room_path (url_pathname u) with
            | Some r => Some r
            | None => fromName
            end
        | UrlAbsent => fromName
        end
  end.

(** ** Handlers of [Chat]

    A handler is given the connection object: the socket [s] and its
    [conn.id], [id]. *)

Definition sendError (s : nat) (code message : string) : Action :=
  send s (payload_error code message).

(** [const t = map.get(conn.id); if (t) { clearTimeout(t); map.delete(conn.id); }]
    for the admission timer. *)
Definition cancel_authTimer (id : string) : Action :=
  modify (fun w =>
    match authTimers (hub w) !! id with
    | Some t =>
        if truthy_handle t
        then let w1 := clearTimeout t w in
             set_authTimers (delete id (authTimers (hub w1))) w1
        else w
    | None => w
    end).

(** The same for the idle timer. *)
Definition cancel_pingTimer (id : string) : Action :=
  modify (fun w =>
    match pingTimers (hub w) !! id with
    | Some t =>
        if truthy_handle t
        then let w1 := clearTimeout t w in
             set_pingTimers (delete id (pingTimers (hub w1))) w1
        else w
    | None => w
    end).

(** [const pingTimer = setTimeout(..., 30_000); this.pingTimers.set(conn.id, pingTimer)]. *)
Definition arm_pingTimer (s : nat) (id : string) : Action :=
  modify (fun w =>
    let '(t, w1) := setTimeout (PingTimeout s id) PING_TIMEOUT_MS w in
    set_pingTimers (<[id := t]> (pingTimers (hub w1))) w1).

Definition onConnect (s : nat) (id : string) (ci : ConnInfo) : Action :=
  modify (fun w =>
    let extractedRoomId := extractRoomId ci in
    set_roomId
      (match roomId (hub w) with
       | Some r => Some r
       | None => Some (match extractedRoomId with Some r => r | None => "default" end)
       end) w) >>>
  send s payload_info >>>
  modify (fun w =>
    let '(t, w1) := setTimeout (AuthTimeout s id) AUTH_TIMEOUT_MS w in
    set_authTimers (<[id := t]> (authTimers (hub w1))) w1).

(** Body of the closure armed by [onConnect]. *)
Definition authTimeout_fires (s : nat) (id : string) : Action :=
  (fun w =>
     if negb (conn_authed s w)
     then (sendError s "unauthorized" "auth timeout" >>>
           close s CLOSE_UNAUTHORIZED "auth required") w
     else (w, [])) >>>
  modify (fun w => set_authTimers (delete id (authTimers (hub w))) w).

(** Body of the closure armed after authentication and on every ping. *)
Definition pingTimeout_fires (s : nat) (id : string) : Action :=
  fun w =>
    if negb (conn_authed s w) then (w, [])
    else (sendError s "ping_timeout" "ping timeout - connection will be closed" >>>
          close s CLOSE_NORMAL "ping timeout" >>>
          modify (fun w => set_pingTimers (delete id (pingTimers (hub w))) w)) w.

Definition run_callback (cb : callback) : Action :=
  match cb with
  | AuthTimeout s id => authTimeout_fires s id
  | PingTimeout s id => pingTimeout_fires s id
  end.

(** [onClose] reads nothing of the connection but its id. *)
Definition onClose (id : string) : Action :=
  cancel_authTimer id >>> cancel_pingTimer id.

(** [onMessage] up to the call of the backend. *)
Definition onMessage_begin (s : nat) (id : string) (raw : WSParsed) (w : World) : MsgStep :=
  match raw with
  | BadJson => Done (sendError s "bad_json" "malformed json" w)
  | NonObject => Done (sendError s "bad_payload" "missing type" w)
  | Parsed msg =>
      match m_type msg with
      | None => Done (sendError s "bad_payload" "missing type" w)
      | Some ty =>
          if String.eqb ty "" then Done (sendError s "bad_payload" "missing type" w)
          else if String.eqb ty "auth" then
            match m_token msg with
            | Some token =>
                if String.eqb token "" then Done (sendError s "bad_payload" "token required" w)
                else
                  match or_str (m_roomId msg) (roomId (hub w)) with
                  | Some r =>
                      if String.eqb r ""
                      then Done ((sendError s "bad_payload" "roomId required" >>>
                                  close s CLOSE_UNAUTHORIZED "roomId required") w)
                      else Await {| p_conn := s; p_id := id; p_roomId := r; p_token := token;
                                    p_hint := m_userId msg |}
                  | None =>
                      Done ((sendError s "bad_payload" "roomId required" >>>
                             close s CLOSE_UNAUTHORIZED "roomId required") w)
                  end
            | None => Done (sendError s "bad_payload" "token required" w)
            end
          else if negb (conn_authed s w) then
            Done (sendError s "unauthorized" "auth first" w)
          else if String.eqb ty "ping" then
            Done ((cancel_pingTimer id >>>
                   arm_pingTimer s id >>>
                   (fun w => send s (payload_pong (match m_t msg with Some t => t | None => now w end)) w)) w)
          else if String.eqb ty "typing" then
            Done (broadcast
                    (payload_typing
                       (match conn_userId s w with Some u => u | None => "unknown" end)
                       (match m_isTyping msg with Some b => b | None => false end)
                       (roomId (hub w)) (now w) (lastMessage (hub w)))
                    (Some [id]) w)
          else Done (sendError s "unknown_type" (String.append "unknown: " ty) w)
      end
  end.

(** [onMessage] from the return of [checkParticipant]. *)
Definition onMessage_resume (p : Pending) (result : AuthResult) : Action :=
  let s := p_conn p in
  let id := p_id p in
  if negb (success result) then
    sendError s "unauthorized" "not a participant" >>>
    close s CLOSE_UNAUTHORIZED "unauthorized"
  else
    modify (set_roomId (Some (p_roomId p))) >>>
    modify (update_conn s (mark_authed (or_str (result_userId result) (p_hint p)))) >>>
    cancel_authTimer id >>>
    arm_pingTimer s id >>>
    send s payload_auth_ok.

(** [onMessage] when nothing else runs during the call of the backend. *)
Definition onMessage (s : nat) (id : string) (raw : WSParsed) (reply : BackendReply) : Action :=
  fun w =>
    match onMessage_begin s id raw w with
    | Done r => r
    | Await p => onMessage_resume p (checkParticipant_result reply) w
    end.

(** ** The protected HTTP boundary: [onRequest] *)

Record Body := {
  b_roomId : option string;
  b_message : option json;
  b_excludeConnectionIds : option (list string)
}.

Record Request := {
  req_method : string;
  req_pathname : string;
  req_authorization : option string;   (* headers.get("authorization") *)
  req_body : option Body               (* request.json(), None when it rejects or gives null *)
}.

Inductive ResponseBody :=
| Text (s : string)
| Json (j : json).

Record Response := {
  status : Z;
  response_body : ResponseBody
}.

Definition bearer (token : string) : string := String.append "Bearer " token.

(** [auth !== `Bearer ${this.env.WEBHOOK_TOKEN}`] with
    [auth = request.headers.get("authorization") || ""]. *)
Definition secret_ok (r : Request) (w : World) : bool :=
  String.eqb (match or_str (req_authorization r) (Some "") with Some a => a | None => "" end)
             (bearer (WEBHOOK_TOKEN (env w))).

Definition json_failure (error : string) : ResponseBody :=
  Json (JObj [("success", JBool false); ("error", JStr error)]).

Definition unauthorized_response : Response :=
  {| status := 401; response_body := Text "Unauthorized" |}.

Definition not_found_response : Response :=
  {| status := 404; response_body := Text "Not found" |}.

Definition onRequest (r : Request) (w : World) : Response * (World * list Output) :=
  if String.eqb (req_pathname r) "/broadcast" && String.eqb (req_method r) "POST" then
    if negb (secret_ok r w) then (unauthorized_response, (w, []))
    else
      match req_body r with
      | Some body =>
          match b_roomId body, b_message body with
          | Some rid, Some message =>
              if negb (String.eqb rid "") && truthy_json message then
                let w1 := if truthy_str (roomId (hub w)) then w else set_roomId (Some rid) w in
                if negb (bool_decide (Some rid = roomId (hub w1))) then
                  ({| status := 400; response_body := json_failure "wrong room instance" |}, (w1, []))
                else
                  let broadcastMessage := payload_broadcast message (lastMessage (hub w1)) in
                  let w2 := set_lastMessage message w1 in
                  ({| status := 200; response_body := Json (JObj [("success", JBool true)]) |},
                   broadcast broadcastMessage (b_excludeConnectionIds body) w2)
              else
                ({| status := 400; response_body := json_failure "roomId and message required" |}, (w, []))
          | _, _ =>
              ({| status := 400; response_body := json_failure "roomId and message required" |}, (w, []))
          end
      | None =>
          ({| status := 400; response_body := json_failure "roomId and message required" |}, (w, []))
      end
  else if String.eqb (req_pathname r) "/last-message" && String.eqb (req_method r) "GET" then
    if negb (secret_ok r w) then (unauthorized_response, (w, []))
    else
      ({| status := 200;
          response_body :=
            Json (JObj ([("success", JBool true); ("lastMessage", lastMessage (hub w))]
                        ++ match roomId (hub w) with
                           | Some rid => [("roomId", JStr rid)]
                           | None => []
                           end)) |},
       (w, []))
  else (not_found_response, (w, [])).

(** ** Events delivered to the hub, one at a time *)

Inductive Event :=
| EConnect (id : string) (ci : ConnInfo)      (* a socket opens, under the id the client chose *)
| EClose (s : nat)                            (* a socket is closed *)
| EMessage (s : nat) (raw : WSParsed)         (* a frame arrives; runs to the await *)
| EAuthReply (p : Pending) (reply : BackendReply)   (* the backend answers *)
| ERequest (r : Request)
| EFire (h : nat)                             (* the host runs a due timer *)
| ETick (d : N).                              (* time passes *)

Definition fresh_conn (id : string) : Conn :=
  {| conn_id := id; authed := false; userId := None; conn_open := true |}.

Definition find_timer (h : nat) (w : World) : option Timer :=
  List.find (fun t => Nat.eqb (t_handle t) h) (timers w).

Definition advance (d : N) (w : World) : World :=
  {| hub := hub w; env := env w; conns := conns w; timers := timers w;
     next_handle := next_handle w; now := now w + Z.of_N d |}.

(** One event.  Every socket that opens is a new connection object, the
    next in the host's list, whatever its id; [onConnect] runs for it.  The
    host hands the hub only connection objects it holds, each with its own
    id, resumes [onMessage] only with the locals it suspended with, and
    runs a timer once, when it is armed and due; an event outside of that
    does nothing. *)
Definition step (e : Event) : Action :=
  fun w =>
    match e with
    | EConnect id ci =>
        onConnect (length (conns w)) id ci (set_conns (conns w ++ [fresh_conn id]) w)
    | EClose s =>
        match conns w !! s with
        | Some k => onClose (conn_id k) (update_conn s mark_closed w)
        | None => (w, [])
        end
    | EMessage s raw =>
        match conns w !! s with
        | Some k =>
            match onMessage_begin s (conn_id k) raw w with
            | Done r => r
            | Await _ => (w, [])
            end
        | None => (w, [])
        end
    | EAuthReply p reply =>
        match conns w !! p_conn p with
        | Some k =>
            if String.eqb (conn_id k) (p_id p)
            then onMessage_resume p (checkParticipant_result reply) w
            else (w, [])
        | None => (w, [])
        end
    | ERequest r => snd (onRequest r w)
    | EFire h =>
        match find_timer h w with
        | Some t =>
            if Z.leb (t_due t) (now w)
            then run_callback (t_cb t) (clearTimeout h w)
            else (w, [])
        | None => (w, [])
        end
    | ETick d => (advance d w, [])
    end.

Fixpoint run (es : list Event) : Action :=
  match es with
  | [] => fun w => (w, [])
  | e :: r => step e >>> run r
  end.

Definition empty_hub : Hub :=
  {| roomId := None; authTimers := ∅; pingTimers := ∅; lastMessage := JNull |}.

(** A hub that has just been created: handles of the host start at 1. *)
Definition init (e : Env) : World :=
  {| hub := empty_hub; env := e; conns := []; timers := []; next_handle := 1; now := 0 |}.
(** ** Reading states and payloads *)

(** Value of the property [k] of an object. *)
Fixpoint obj_get (k : string) (o : list (string * json)) : option json :=
  match o with
  | [] => None
  | (k', v) :: r => if String.eqb k' k then Some v else obj_get k r
  end.

(** The payloads a list of calls delivers to the socket [s]. *)
Fixpoint delivered (s : nat) (outs : list Output) : list json :=
  match outs with
  | [] => []
  | Send s' p :: r => if Nat.eqb s' s then p :: delivered s r else delivered s r
  | Close _ _ _ :: r => delivered s r
  end.

(** The socket and the id a closure holds. *)
Definition cb_conn (cb : callback) : nat :=
  match cb with
  | AuthTimeout s _ | PingTimeout s _ => s
  end.

Definition cb_key (cb : callback) : string :=
  match cb with
  | AuthTimeout _ id | PingTimeout _ id => id
  end.

(** Armed timers of the host whose closure is for the socket [s]. *)
Definition is_auth_timer (s : nat) (t : Timer) : bool :=
  match t_cb t with
  | AuthTimeout s' _ => Nat.eqb s' s
  | PingTimeout _ _ => false
  end.

Definition is_ping_timer (s : nat) (t : Timer) : bool :=
  match t_cb t with
  | PingTimeout s' _ => Nat.eqb s' s
  | AuthTimeout _ _ => false
  end.

Definition auth_timers_of (s : nat) (w : World) : list Timer :=
  List.filter (is_auth_timer s) (timers w).

Definition ping_timers_of (s : nat) (w : World) : list Timer :=
  List.filter (is_ping_timer s) (timers w).

(** Armed timers whose closure is for a connection with the id [id]. *)
Definition is_auth_key (id : string) (t : Timer) : bool :=
  match t_cb t with
  | AuthTimeout _ id' => String.eqb id' id
  | PingTimeout _ _ => false
  end.

Definition is_ping_key (id : string) (t : Timer) : bool :=
  match t_cb t with
  | PingTimeout _ id' => String.eqb id' id
  | AuthTimeout _ _ => false
  end.

(** The ids under which the events open sockets, in order. *)
Fixpoint connect_ids (es : list Event) : list string :=
  match es with
  | [] => []
  | EConnect id _ :: r => id :: connect_ids r
  | _ :: r => connect_ids r
  end.

(** ** Concrete worlds and messages used in the examples *)

Module Ex.

Definition e0 : Env := {| BACKEND_ORIGIN := "https://api.nativor.com"; WEBHOOK_TOKEN := "s3cret" |}.

(** A connection object whose [url] is a URL of path [/rooms/<room>]. *)
Definition at_room (room : string) : ConnInfo :=
  {| ci_url := UrlParsed {| url_pathname := String.append "/rooms/" room; url_room_param := None |};
     ci_roomHeader := None; ci_originalUrl := UrlAbsent; ci_roomName := None |}.

(** A connection object that carries no routing context at all. *)
Definition bare : ConnInfo :=
  {| ci_url := UrlAbsent; ci_roomHeader := None; ci_originalUrl := UrlAbsent;
     ci_roomName := None |}.

Definition auth (token room hint : option string) : WSParsed :=
  Parsed {| m_type := Some "auth"; m_token := token; m_roomId := room;
            m_userId := hint; m_isTyping := None; m_t := None |}.

Definition typing (b : bool) : WSParsed :=
  Parsed {| m_type := Some "typing"; m_token := None; m_roomId := None;
            m_userId := None; m_isTyping := Some b; m_t := None |}.

Definition ping (t : option Z) : WSParsed :=
  Parsed {| m_type := Some "ping"; m_token := None; m_roomId := None;
            m_userId := None; m_isTyping := None; m_t := t |}.

Definition pending (s : nat) (id room token : string) (hint : option string) : Pending :=
  {| p_conn := s; p_id := id; p_roomId := room; p_token := token; p_hint := hint |}.

(** The backend answers 200 with a body that names the user. *)
Definition ok (u : string) : BackendReply := Responded 200 (JsonValue (Some u)).

Definition trigger (secret : option string) (room : string) (message : json)
    (without : option (list string)) : Request :=
  {| req_method := "POST"; req_pathname := "/broadcast"; req_authorization := secret;
     req_body := Some {| b_roomId := Some room; b_message := Some message;
                         b_excludeConnectionIds := without |} |}.

Definition m1 : json := JObj [("type", JStr "message.created"); ("id", JStr "m1")].

(** One socket (number 0, id A), connected to room r1 and not yet
    authenticated. *)
Definition w_one : World := fst (run [EConnect "A" (at_room "r1")] (init e0)).

(** Room r1 with A (socket 0) authenticated as u1 and B (socket 1)
    connected but not authenticated. *)
Definition w_two : World :=
  fst (run [EConnect "A" (at_room "r1");
            EMessage 0 (auth (Some "good") (Some "r1") None);
            EAuthReply (pending 0 "A" "r1" "good" None) (ok "u1");
            EConnect "B" (at_room "r1")] (init e0)).

(** A connects and authenticates at time 0, and authenticates a second time
    20 s later. *)
Definition reauth : list Event :=
  [EConnect "A" (at_room "r1");
   EMessage 0 (auth (Some "good") (Some "r1") None);
   EAuthReply (pending 0 "A" "r1" "good" None) (ok "u1");
   ETick 20000;
   EMessage 0 (auth (Some "good") (Some "r1") None);
   EAuthReply (pending 0 "A" "r1" "good" None) (ok "u1")].

Definition w_reauth : World := fst (run reauth (init e0)).

(** While A waits: B connects, A tries to type, the backend posts a
    message, ten seconds pass. *)
Definition while_waiting : list Event :=
  [EConnect "B" (at_room "r1");
   EMessage 0 (typing true);
   ERequest (trigger (Some "Bearer s3cret") "r1" m1 None);
   ETick 10000].

(** Afterwards: time passes, the host is asked for the same timer again, B
    leaves. *)
Definition afterwards : list Event :=
  [ETick 5; EFire 1; EClose 1].

(** Two sockets open under the same id X (the second is a reconnect, or
    another tab, presenting the same [_pk]). *)
Definition shared_connects : list Event :=
  [EConnect "X" (at_room "r1"); EConnect "X" (at_room "r1")].

Definition w_shared : World := fst (run shared_connects (init e0)).

(** Then the first authenticates; the second never sends anything.  Ten
    seconds pass and the host runs what is due; ten minutes later the
    backend posts a message. *)
Definition shared_id : list Event :=
  shared_connects ++
  [EMessage 0 (auth (Some "good") (Some "r1") None);
   EAuthReply (pending 0 "X" "r1" "good" None) (ok "u1");
   ETick 10000;
   EFire 1;
   EFire 2;
   ETick 600000;
   ERequest (trigger (Some "Bearer s3cret") "r1" m1 None)].

End Ex.

(** ** Well-formed worlds *)

(** What holds of the host and of the hub's two timer maps in every world
    that the events can produce as long as no two sockets are opened under
    one id: handles are positive and below the next one to be given out; an
    armed admission timer is the one its connection's id is mapped to; a
    mapped handle, when armed, is a timer of that kind for that id; a
    closure holds a connection object of the host, with its id; a mapped id
    is the id of a connection. *)
Record wf (w : World) : Prop := {
  wf_next : (0 < next_handle w)%nat;
  wf_handles : forall t, In t (timers w) -> (0 < t_handle t < next_handle w)%nat;
  wf_auth_range : forall id h, authTimers (hub w) !! id = Some h -> (0 < h < next_handle w)%nat;
  wf_ping_range : forall id h, pingTimers (hub w) !! id = Some h -> (0 < h < next_handle w)%nat;
  wf_auth_indexed : forall t s id, In t (timers w) -> t_cb t = AuthTimeout s id ->
                                   authTimers (hub w) !! id = Some (t_handle t);
  wf_auth_entry : forall id h t, authTimers (hub w) !! id = Some h -> In t (timers w) ->
                                 t_handle t = h -> is_auth_key id t = true;
  wf_ping_entry : forall id h t, pingTimers (hub w) !! id = Some h -> In t (timers w) ->
                                 t_handle t = h -> is_ping_key id t = true;
  wf_registered : forall t, In t (timers w) ->
                            conn_key (cb_conn (t_cb t)) w = Some (cb_key (t_cb t));
  wf_auth_registered : forall id h, authTimers (hub w) !! id = Some h -> In id (conn_ids w)
}.

(** An action keeps a property of worlds. *)
Definition preserves (P : World -> Prop) (a : Action) : Prop :=
  forall w, P w -> P (fst (a w)).

(** ** The admission deadline of one connection *)

(** The notice sent when the admission timer fires. *)
Definition timeout_notice : json := payload_error "unauthorized" "auth timeout".

(** Recognises [timeout_notice]. *)
Definition is_timeout_notice (p : json) : bool :=
  match p with
  | JObj [(k1, JStr v1); (k2, JStr v2); (k3, JStr v3)] =>
      String.eqb k1 "type" && String.eqb v1 "error" &&
      String.eqb k2 "code" && String.eqb v2 "unauthorized" &&
      String.eqb k3 "message" && String.eqb v3 "auth timeout"
  | _ => false
  end.

(** The calls that end the socket [s] for lack of admission: the timeout
    notice sent to [s], and any close of [s]. *)
Definition concerns (s : nat) (o : Output) : bool :=
  match o with
  | Send s' p => Nat.eqb s' s && is_timeout_notice p
  | Close s' _ _ => Nat.eqb s' s
  end.

Definition is_auth_request (raw : WSParsed) : bool :=
  match raw with
  | Parsed m =>
      match m_type m with
      | Some ty => String.eqb ty "auth"
      | None => false
      end
  | BadJson | NonObject => false
  end.

(** Events during which the socket [s] sends no admission request (none of
    its frames is one, and no answer of the backend is for it) and is not
    closed from outside. *)
Definition quiet (s : nat) (e : Event) : bool :=
  match e with
  | EMessage s' raw => negb (Nat.eqb s' s && is_auth_request raw)
  | EAuthReply p _ => negb (Nat.eqb (p_conn p) s)
  | EClose s' => negb (Nat.eqb s' s)
  | EConnect _ _ | ERequest _ | EFire _ | ETick _ => true
  end.

Definition is_fire (h : nat) (e : Event) : bool :=
  match e with
  | EFire h' => Nat.eqb h' h
  | _ => false
  end.

(** The admission timer that [onConnect] arms for the socket [s] of id [id]
    when the next handle is [h] and the deadline is [due]. *)
Definition admission_timer (s : nat) (id : string) (h : nat) (due : Z) : Timer :=
  {| t_handle := h; t_due := due; t_cb := AuthTimeout s id |}.

(** While the socket [s] has not been admitted: it is a connection of id
    [id], unauthenticated; the only timer that is for [s] or has the handle
    [h] is its admission timer; [h] is not the handle stored for another id
    or as an idle timer; and as long as [h] is the handle stored for [id],
    no other socket carries that id. *)
Record waiting (s : nat) (id : string) (h : nat) (due : Z) (w : World) : Prop := {
  waiting_registered : conn_key s w = Some id;
  waiting_unauthed : conn_authed s w = false;
  waiting_handle : (h < next_handle w)%nat;
  waiting_timer : forall t, In t (timers w) ->
                            cb_conn (t_cb t) = s \/ t_handle t = h ->
                            t = admission_timer s id h due;
  waiting_auth_entry : forall id', authTimers (hub w) !! id' = Some h -> id' = id;
  waiting_ping_entry : forall id', pingTimers (hub w) !! id' <> Some h;
  waiting_alone : authTimers (hub w) !! id = Some h ->
                  forall s', conn_key s' w = Some id -> s' = s
}.

(** At the world [w], the action leaves [s] waiting, neither arms nor
    disarms its admission timer, and makes no call that ends [s]. *)
Definition unharmed (s : nat) (id : string) (h : nat) (due : Z) (a : Action) (w : World) : Prop :=
  waiting s id h due (fst (a w)) /\
  (In (admission_timer s id h due) (timers (fst (a w)))
     <-> In (admission_timer s id h due) (timers w)) /\
  List.filter (concerns s) (snd (a w)) = [].

(** An action that does so wherever [s] is waiting. *)
Definition harmless (s : nat) (id : string) (h : nat) (due : Z) (a : Action) : Prop :=
  forall w, waiting s id h due w -> unharmed s id h due a w.


(** ** The worker in front of the hubs: the default export's [fetch] *)

(** [s.split("/")]. *)
Fixpoint split_slash (s : string) : list string :=
  match s with
  | EmptyString => [EmptyString]
  | String a r =>
      if Ascii.eqb a "/"%char then EmptyString :: split_slash r
      else match split_slash r with
           | x :: xs => String a x :: xs
           | [] => [String a EmptyString]
           end
  end.

(** [p.match(/^<pre>[^/]+$/)] used as a condition, for a literal [pre]. *)
Definition matches_segment (pre p : string) : bool :=
  String.prefix pre p &&
  (let r := String.substring (String.length pre) (String.length p - String.length pre) p in
   negb (String.eqb r "") && no_slash r).

(** The parts of a request to the worker that [fetch] reads. *)
Record EdgeRequest := {
  e_url : string;                      (* request.url *)
  e_pathname : string;                 (* new URL(request.url).pathname *)
  e_method : string;
  e_upgrade : option string;           (* headers.get("Upgrade") *)
  e_authorization : option string;     (* headers.get("authorization") *)
  e_body : option Body                 (* request.json(), None when it rejects or gives null *)
}.

(** The headers [fetch] sets on an upgrade it forwards. *)
Record SocketForward := {
  sf_url : string;
  sf_roomHeader : string;              (* X-PartyKit-Room *)
  sf_party : string;                   (* X-PartyKit-Party *)
  sf_originalUrl : string              (* X-Original-URL *)
}.

(** What [fetch] does with a request: hand an upgrade or an internal request
    to the hub named [room] ([env.Chat.get(env.Chat.idFromName(room))]),
    answer by itself, or leave it to the party router and the assets. *)
Inductive Routed :=
| RouteSocket (room : string) (fwd : SocketForward)
| RouteHub (room : string) (inner : Request)
| RouteReply (resp : Response)
| RouteParty
| RouteThrows.                         (* idFromName(undefined) *)

Definition forwarded_authorization (r : EdgeRequest) : option string :=
  or_str (e_authorization r) (Some "").

Definition fetch_route (r : EdgeRequest) : Routed :=
  if matches_segment "/rooms/" (e_pathname r)
     && bool_decide (e_upgrade r = Some "websocket") then
    match nth_error (split_slash (e_pathname r)) 2 with
    | Some room =>
        RouteSocket room {| sf_url := e_url r; sf_roomHeader := room;
                            sf_party := "chat"; sf_originalUrl := e_url r |}
    | None => RouteThrows
    end
  else if String.eqb (e_pathname r) "/api/broadcast" && String.eqb (e_method r) "POST" then
    match e_body r with
    | Some body =>
        if truthy_str (b_roomId body) then
          match b_roomId body with
          | Some room =>
              RouteHub room {| req_method := "POST"; req_pathname := "/broadcast";
                               req_authorization := forwarded_authorization r;
                               req_body := Some body |}
          | None => RouteReply {| status := 400; response_body := json_failure "roomId required" |}
          end
        else RouteReply {| status := 400; response_body := json_failure "roomId required" |}
    | None => RouteReply {| status := 400; response_body := json_failure "roomId required" |}
    end
  else if matches_segment "/api/last-message/" (e_pathname r)
          && String.eqb (e_method r) "GET" then
    match nth_error (split_slash (e_pathname r)) 3 with
    | Some room =>
        if String.eqb room ""
        then RouteReply {| status := 400; response_body := json_failure "roomId required" |}
        else RouteHub room {| req_method := "GET"; req_pathname := "/last-message";
                              req_authorization := forwarded_authorization r;
                              req_body := None |}
    | None => RouteReply {| status := 400; response_body := json_failure "roomId required" |}
    end
  else RouteParty.

(** The hub of a room: the instance the namespace holds, or a new one. *)
Definition hub_of (e : Env) (rooms : gmap string World) (room : string) : World :=
  match rooms !! room with
  | Some w => w
  | None => init e
  end.

(** [fetch] over all the hubs of the namespace, for the requests it answers
    itself or hands to a hub's [onRequest]: the answer relayed to the
    caller, the hubs afterwards, and the calls made on connections of the
    hub that handled it.  The result is [None] where the answer is neither
    the worker's nor [onRequest]'s to give: an upgrade goes to the host of
    the hub (what it does there is the event [EConnect]), the last route is
    left to the party router and the assets, and a route that throws has no
    answer. *)
Definition fetch (e : Env) (r : EdgeRequest) (rooms : gmap string World)
  : option (Response * gmap string World * list Output) :=
  match fetch_route r with
  | RouteHub room inner =>
      let '(resp, (w', outs)) := onRequest inner (hub_of e rooms room) in
      Some ({| status := status resp; response_body := response_body resp |},
            <[room := w']> rooms, outs)
  | RouteReply resp => Some (resp, rooms, [])
  | RouteSocket _ _ | RouteParty | RouteThrows => None
  end.

(** ** Handles of armed timers *)

(** No two armed timers share a handle, and all are below the next one. *)
Definition distinct_handles (w : World) : Prop :=
  List.NoDup (map t_handle (timers w)) /\
  forall t, In t (timers w) -> (t_handle t < next_handle w)%nat.

(** The one event that rebinds the room: the backend accepts an admission. *)
Definition is_admission_success (e : Event) : bool :=
  match e with
  | EAuthReply _ reply => success (checkParticipant_result reply)
  | _ => false
  end.

(** Timers left armed after [cancel_pingTimer id]. *)
Definition without_mapped (m : gmap string nat) (id : string) (ts : list Timer) : list Timer :=
  match m !! id with
  | Some h0 =>
      if truthy_handle h0
      then List.filter (fun t => negb (Nat.eqb (t_handle t) h0)) ts
      else ts
  | None => ts
  end.

(** ** Requests to the worker used in the examples *)

Module ExEdge.

(** The backend posts m1 to room r1 through the worker, then reads it back. *)
Definition post : EdgeRequest :=
  {| e_url := "https://ws.nativor.com/api/broadcast"; e_pathname := "/api/broadcast";
     e_method := "POST"; e_upgrade := None; e_authorization := Some "Bearer s3cret";
     e_body := Some {| b_roomId := Some "r1"; b_message := Some Ex.m1;
                       b_excludeConnectionIds := None |} |}.

Definition read : EdgeRequest :=
  {| e_url := "https://ws.nativor.com/api/last-message/r1";
     e_pathname := "/api/last-message/r1"; e_method := "GET"; e_upgrade := None;
     e_authorization := Some "Bearer s3cret"; e_body := None |}.

(** The namespace holds the hub of room r1. *)
Definition rooms : gmap string World := {["r1" := Ex.w_two]}.

End ExEdge.

(** * Properties *)

(** ** Basic facts about the shared secret *)

Lemma secret_ok_spec (r : Request) (w : World) :
  secret_ok r w = true <-> req_authorization r = Some (bearer (WEBHOOK_TOKEN (env w))).
Proof.
  unfold secret_ok, or_str, truthy_str.
  destruct (req_authorization r) as [a|]; simpl.
  - destruct (String.eqb a "") eqn:Ha; simpl.
    + apply String.eqb_eq in Ha. subst a. simpl. split; [discriminate|].
      intros H. inversion H.
    + rewrite String.eqb_eq. split; [congruence|]. intros H. now inversion H.
  - split; discriminate.
Qed.

Lemma secret_bad (r : Request) (w : World) :
  req_authorization r <> Some (bearer (WEBHOOK_TOKEN (env w))) -> secret_ok r w = false.
Proof.
  intros H. destruct (secret_ok r w) eqn:E; [|reflexivity].
  apply secret_ok_spec in E. contradiction.
Qed.

Lemma eqb_false_of_neq (a b : string) : a <> b -> String.eqb a b = false.
Proof. apply String.eqb_neq. Qed.

(** ** The protected boundary *)

(** C9. A [POST /broadcast] whose authorization header is absent or is not
    [Bearer <WEBHOOK_TOKEN>] is answered with status 401; the world after the
    call is the world before it (cache, room binding, timers, connections)
    and nothing is sent to any connection. *)
Theorem bad_secret_rejected (r : Request) (w : World) :
  req_pathname r = "/broadcast" ->
  req_method r = "POST" ->
  req_authorization r <> Some (bearer (WEBHOOK_TOKEN (env w))) ->
  onRequest r w = (unauthorized_response, (w, [])) /\
  status unauthorized_response = 401.
Proof.
  intros Hp Hm Ha. unfold onRequest. rewrite Hp, Hm. simpl.
  rewrite (secret_bad _ _ Ha). simpl. split; reflexivity.
Qed.

Lemma bad_secret_rejected_witness :
  onRequest (Ex.trigger (Some "Bearer guess") "r1" Ex.m1 None) Ex.w_two
    = (unauthorized_response, (Ex.w_two, [])) /\
  status unauthorized_response = 401.
Proof.
  apply (bad_secret_rejected (Ex.trigger (Some "Bearer guess") "r1" Ex.m1 None) Ex.w_two);
    [reflexivity | reflexivity | discriminate].
Defined.

(** ** Messages before authentication *)


(** C8. On a connection that is not authenticated, a message whose type tag
    is anything but [auth] is answered with the [unauthorized] error
    ("auth first") and nothing else happens: the world is unchanged, so the
    connection is still unauthenticated and its admission timer is still
    armed; the backend is not called. *)
Theorem preauth_message_rejected (s : nat) (id : string) (msg : ClientMsg) (ty : string)
    (reply : BackendReply) (w : World) :
  conn_authed s w = false ->
  m_type msg = Some ty -> ty <> "" -> ty <> "auth" ->
  onMessage_begin s id (Parsed msg) w
    = Done (w, [Send s (payload_error "unauthorized" "auth first")]) /\
  onMessage s id (Parsed msg) reply w
    = (w, [Send s (payload_error "unauthorized" "auth first")]).
Proof.
  intros Hc Ht Hne Hna.
  assert (E : onMessage_begin s id (Parsed msg) w
              = Done (w, [Send s (payload_error "unauthorized" "auth first")])).
  { unfold onMessage_begin. rewrite Ht.
    rewrite (eqb_false_of_neq _ _ Hne), (eqb_false_of_neq _ _ Hna), Hc.
    reflexivity. }
  split; [exact E|]. unfold onMessage. now rewrite E.
Qed.

Lemma preauth_message_rejected_witness :
  onMessage_begin 0 "A" (Ex.typing true) Ex.w_one
    = Done (Ex.w_one, [Send 0 (payload_error "unauthorized" "auth first")]) /\
  onMessage 0 "A" (Ex.typing true) FetchThrows Ex.w_one
    = (Ex.w_one, [Send 0 (payload_error "unauthorized" "auth first")]).
Proof.
  apply (preauth_message_rejected 0 "A" _ "typing" FetchThrows Ex.w_one);
    [reflexivity | reflexivity | discriminate | discriminate].
Defined.

(** ** Admission requests that are incomplete *)

(** An admission request without a token, on the fresh connection A (socket 0): the hub
    answers [bad_payload] and that is all; no [close] is issued and A stays
    open, with its admission timer armed. *)
Lemma missing_token_not_closed :
  onMessage 0 "A" (Ex.auth None (Some "r1") None) (Responded 200 (JsonValue None)) Ex.w_one
    = (Ex.w_one, [Send 0 (payload_error "bad_payload" "token required")]) /\
  (conn_open <$> conns Ex.w_one !! 0%nat) = Some true /\
  authTimers (hub Ex.w_one) !! "A" = Some 1%nat /\
  timers Ex.w_one = [{| t_handle := 1; t_due := 10000; t_cb := AuthTimeout 0 "A" |}].
Proof. vm_compute. repeat split. Qed.

(** C4, amended. An admission request without a non-empty token is answered
    with the missing-field error ([bad_payload], "token required") and
    nothing else: the backend is not called, the world is unchanged and the
    connection is not closed. *)
Theorem missing_token_rejected (s : nat) (id : string) (msg : ClientMsg) (reply : BackendReply) (w : World) :
  m_type msg = Some "auth" ->
  truthy_str (m_token msg) = false ->
  onMessage_begin s id (Parsed msg) w
    = Done (w, [Send s (payload_error "bad_payload" "token required")]) /\
  onMessage s id (Parsed msg) reply w
    = (w, [Send s (payload_error "bad_payload" "token required")]).
Proof.
  intros Ht Hk.
  assert (E : onMessage_begin s id (Parsed msg) w
              = Done (w, [Send s (payload_error "bad_payload" "token required")])).
  { unfold onMessage_begin. rewrite Ht. simpl.
    unfold truthy_str in Hk. destruct (m_token msg) as [tok|]; [|reflexivity].
    apply negb_false_iff in Hk. now rewrite Hk. }
  split; [exact E|]. unfold onMessage. now rewrite E.
Qed.

Lemma missing_token_rejected_witness :
  onMessage_begin 0 "A" (Ex.auth (Some "") (Some "r1") None) Ex.w_one
    = Done (Ex.w_one, [Send 0 (payload_error "bad_payload" "token required")]) /\
  onMessage 0 "A" (Ex.auth (Some "") (Some "r1") None) (Responded 200 (JsonValue None)) Ex.w_one
    = (Ex.w_one, [Send 0 (payload_error "bad_payload" "token required")]).
Proof.
  apply (missing_token_rejected 0 "A" _ (Responded 200 (JsonValue None)) Ex.w_one); reflexivity.
Defined.

(** X8. The close with 4401 belongs to the next check: a request that has a
    token but for which no room identifier can be resolved (none in the
    payload, none bound to the hub). *)
Lemma missing_room_closed (s : nat) (id : string) (msg : ClientMsg) (reply : BackendReply) (w : World) :
  m_type msg = Some "auth" ->
  truthy_str (m_token msg) = true ->
  truthy_str (or_str (m_roomId msg) (roomId (hub w))) = false ->
  onMessage s id (Parsed msg) reply w
    = (update_conn s mark_closed w,
       [Send s (payload_error "bad_payload" "roomId required");
        Close s CLOSE_UNAUTHORIZED "roomId required"]).
Proof.
  intros Ht Hk Hr. unfold onMessage, onMessage_begin. rewrite Ht. simpl.
  unfold truthy_str in Hk. destruct (m_token msg) as [tok|]; [|discriminate].
  apply negb_true_iff in Hk. rewrite Hk.
  unfold truthy_str in Hr. destruct (or_str (m_roomId msg) (roomId (hub w))) as [r|].
  - apply negb_false_iff in Hr. rewrite Hr. reflexivity.
  - reflexivity.
Qed.
(** ** Fan-out *)

Lemma obj_get_set_same (k : string) (v : json) (o : list (string * json)) :
  obj_get k (obj_set k v o) = Some v.
Proof.
  induction o as [|[k' v'] o IH]; simpl.
  - now rewrite String.eqb_refl.
  - destruct (String.eqb k' k) eqn:E; simpl.
    + now rewrite String.eqb_refl.
    + now rewrite E.
Qed.

Lemma obj_get_set_other (k k0 : string) (v : json) (o : list (string * json)) :
  k0 <> k -> obj_get k0 (obj_set k v o) = obj_get k0 o.
Proof.
  intros Hne. induction o as [|[k' v'] o IH]; simpl.
  - apply String.eqb_neq in Hne. rewrite String.eqb_sym. now rewrite Hne.
  - destruct (String.eqb k' k) eqn:E; simpl.
    + apply String.eqb_eq in E. subst k'.
      assert (String.eqb k k0 = false) as ->; [|reflexivity].
      apply String.eqb_neq. congruence.
    + destruct (String.eqb k' k0); [reflexivity | exact IH].
Qed.

Lemma obj_set_fresh (k : string) (v : json) (o : list (string * json)) :
  obj_get k o = None -> obj_set k v o = o ++ [(k, v)].
Proof.
  induction o as [|[k' v'] o IH]; simpl; [reflexivity|].
  destruct (String.eqb k' k); [discriminate|]. intros H. now rewrite IH.
Qed.

(** *** The index keys of an array or a string *)

Lemma index_key_inj (i j : nat) : index_key i = index_key j -> i = j.
Proof.
  unfold index_key. intros H. apply Unsigned.to_uint_inj.
  apply (f_equal NilEmpty.uint_of_string) in H. rewrite !NilEmpty.usu in H. congruence.
Qed.

Lemma index_key_not_before (i : nat) : index_key i <> "before".
Proof. unfold index_key. destruct (Nat.to_uint i); discriminate. Qed.

Lemma obj_get_indexed {A} (f : A -> json) (l : list A) (i j : nat) :
  obj_get (index_key j) (indexed f i l)
    = if (i <=? j)%nat then f <$> l !! (j - i)%nat else None.
Proof.
  revert i. induction l as [|x r IH]; intros i; cbn [indexed obj_get].
  - now destruct (i <=? j)%nat.
  - destruct (String.eqb (index_key i) (index_key j)) eqn:E.
    + apply String.eqb_eq, index_key_inj in E. subst j.
      rewrite Nat.leb_refl, Nat.sub_diag. reflexivity.
    + assert (i <> j) by (intros ->; now rewrite String.eqb_refl in E).
      rewrite IH. destruct (i <=? j)%nat eqn:L.
      * apply Nat.leb_le in L.
        assert (((S i <=? j)%nat) = true) as -> by (apply Nat.leb_le; lia).
        replace (j - i)%nat with (S (j - S i)) by lia. reflexivity.
      * apply Nat.leb_gt in L.
        assert (((S i <=? j)%nat) = false) as -> by (apply Nat.leb_gt; lia).
        reflexivity.
Qed.

Lemma obj_get_indexed_before {A} (f : A -> json) (l : list A) (i : nat) :
  obj_get "before" (indexed f i l) = None.
Proof.
  revert i. induction l as [|x r IH]; intros i; cbn [indexed obj_get]; [reflexivity|].
  rewrite (eqb_false_of_neq _ _ (index_key_not_before i)). apply IH.
Qed.

Lemma length_indexed {A} (f : A -> json) (l : list A) (i : nat) :
  length (indexed f i l) = length l.
Proof. revert i. induction l as [|x r IH]; intros i; cbn; [reflexivity | now rewrite IH]. Qed.

(** The decorated payload [{...m, before}] property by property.  [before]
    reads as the snapshot.  Of an object, every other property reads as in
    [m]; of an array, the properties are its items under their indices; of
    a string, its code units under their indices; any other value has no
    property to copy. *)
Lemma payload_broadcast_carries (m before : json) :
  exists fs, payload_broadcast m before = JObj fs /\
    obj_get "before" fs = Some before /\
    match m with
    | JObj fields => forall k, k <> "before" -> obj_get k fs = obj_get k fields
    | JArr items =>
        length fs = S (length items) /\
        forall i, obj_get (index_key i) fs = items !! i
    | JStr s =>
        length fs = S (length (code_units s)) /\
        forall i, obj_get (index_key i) fs = JStr <$> code_units s !! i
    | JNull | JBool _ | JNum _ => fs = [("before", before)]
    end.
Proof.
  exists (obj_set "before" before (spread m)). split; [reflexivity|].
  split; [apply obj_get_set_same|].
  destruct m as [| | |s|items|fields]; cbn [spread]; try reflexivity.
  - split.
    + rewrite obj_set_fresh by apply obj_get_indexed_before.
      rewrite length_app, length_indexed. cbn. lia.
    + intros i. rewrite obj_get_set_other by apply index_key_not_before.
      rewrite obj_get_indexed. cbn. now rewrite Nat.sub_0_r.
  - split.
    + rewrite obj_set_fresh by apply obj_get_indexed_before.
      rewrite length_app, length_indexed. cbn. lia.
    + intros i. rewrite obj_get_set_other by apply index_key_not_before.
      rewrite obj_get_indexed. cbn. rewrite Nat.sub_0_r. now destruct (items !! i).
  - intros k Hk. now apply obj_get_set_other.
Qed.

(** *** Who is sent what *)

Lemma delivered_numbered (g : Conn -> bool) (msg : json) (l : list Conn) (i s : nat) :
  delivered s (map (fun s' => Send s' msg)
                   (map fst (List.filter (fun sk => g (snd sk)) (numbered i l))))
  = if (i <=? s)%nat
    then match l !! (s - i)%nat with
         | Some k => if g k then [msg] else []
         | None => []
         end
    else [].
Proof.
  revert i. induction l as [|k r IH]; intros i; cbn [numbered List.filter map snd].
  - cbn. now destruct (i <=? s)%nat.
  - assert (R : delivered s (map (fun s' => Send s' msg)
                   (map fst (List.filter (fun sk => g (snd sk)) (numbered (S i) r))))
                = if (i <? s)%nat
                  then match r !! (s - S i)%nat with
                       | Some k => if g k then [msg] else []
                       | None => []
                       end
                  else []).
    { rewrite IH. reflexivity. }
    destruct (Nat.eqb i s) eqn:E.
    + apply Nat.eqb_eq in E. subst i.
      rewrite Nat.leb_refl, Nat.sub_diag. cbn [lookup list_lookup].
      rewrite Nat.ltb_irrefl in R.
      destruct (g k); cbn [map fst delivered]; [|exact R].
      now rewrite Nat.eqb_refl, R.
    + assert (Hd : delivered s (map (fun s' => Send s' msg)
                      (map fst (if g k
                                then (i, k) :: List.filter (fun sk => g (snd sk)) (numbered (S i) r)
                                else List.filter (fun sk => g (snd sk)) (numbered (S i) r))))
                    = delivered s (map (fun s' => Send s' msg)
                        (map fst (List.filter (fun sk => g (snd sk)) (numbered (S i) r))))).
      { destruct (g k); [|reflexivity]. cbn [map fst delivered]. now rewrite E. }
      rewrite Hd, R. apply Nat.eqb_neq in E.
      destruct (i <? s)%nat eqn:L.
      * apply Nat.ltb_lt in L.
        assert (((i <=? s)%nat) = true) as -> by (apply Nat.leb_le; lia).
        replace (s - i)%nat with (S (s - S i)) by lia. reflexivity.
      * apply Nat.ltb_ge in L.
        assert (((i <=? s)%nat) = false) as -> by (apply Nat.leb_gt; lia).
        reflexivity.
Qed.

(** What [broadcast] delivers to a socket: one copy when it is open and its
    id is not excluded, nothing otherwise. *)
Lemma delivered_broadcast (msg : json) (without : option (list string)) (w : World) (s : nat) :
  delivered s (snd (broadcast msg without w))
  = match conns w !! s with
    | Some k => if conn_open k && negb (excluded without (conn_id k)) then [msg] else []
    | None => []
    end.
Proof.
  unfold broadcast, recipients. cbn [snd].
  rewrite (delivered_numbered
             (fun k => conn_open k && negb (excluded without (conn_id k))) msg (conns w) 0 s).
  cbn. now rewrite Nat.sub_0_r.
Qed.

(** [if (!this.roomId) this.roomId = body.roomId]. *)
Lemma trigger_accepted (r : Request) (body : Body) (rid : string) (m : json) (w : World) :
  req_pathname r = "/broadcast" ->
  req_method r = "POST" ->
  req_authorization r = Some (bearer (WEBHOOK_TOKEN (env w))) ->
  req_body r = Some body ->
  b_roomId body = Some rid -> rid <> "" ->
  b_message body = Some m -> truthy_json m = true ->
  (truthy_str (roomId (hub w)) = true -> roomId (hub w) = Some rid) ->
  onRequest r w
    = ({| status := 200; response_body := Json (JObj [("success", JBool true)]) |},
       (set_lastMessage m (set_roomId (Some rid) w),
        snd (broadcast (payload_broadcast m (lastMessage (hub w)))
                       (b_excludeConnectionIds body) w))).
Proof.
  intros Hp Hm Ha Hb Hr Hne Hmsg Htr Hroom.
  unfold onRequest. rewrite Hp, Hm. simpl.
  apply secret_ok_spec in Ha. rewrite Ha, Hb, Hr, Hmsg. simpl.
  rewrite (eqb_false_of_neq _ _ Hne), Htr. simpl.
  destruct (truthy_str (roomId (hub w))) eqn:E.
  - rewrite (Hroom eq_refl), bool_decide_eq_true_2 by reflexivity. simpl.
    unfold broadcast, recipients, set_lastMessage, set_roomId, set_hub. simpl.
    rewrite (Hroom eq_refl). reflexivity.
  - simpl. rewrite bool_decide_eq_true_2 by reflexivity. reflexivity.
Qed.



(** Scenario: A and B are connected, the cache holds an earlier message, and
    the backend posts m1 excluding B. *)
Example trigger_scenario :
  let w := set_lastMessage (JObj [("id", JStr "m0")]) Ex.w_two in
  let '(resp, (w', outs)) :=
    onRequest (Ex.trigger (Some "Bearer s3cret") "r1" Ex.m1 (Some ["B"%string])) w in
  outs = [Send 0 (JObj [("type", JStr "message.created"); ("id", JStr "m1");
                        ("before", JObj [("id", JStr "m0")])])] /\
  lastMessage (hub w') = Ex.m1 /\ status resp = 200.
Proof. vm_compute. repeat split. Qed.

(** A body that is a string is spread by code unit, not by byte: the
    two-byte letter of "hé" is one property; a character outside the basic
    plane (here U+1F600, the bytes F0 9F 98 80) is two, its surrogates. *)
Example trigger_spreads_string :
  payload_broadcast (JStr "hé") JNull
    = JObj [("0", JStr "h"); ("1", JStr "é"); ("before", JNull)] /\
  length (code_units "é") = 1%nat /\
  length (code_units (String (ascii_of_nat 240) (String (ascii_of_nat 159)
                        (String (ascii_of_nat 152) (String (ascii_of_nat 128) ""))))) = 2%nat.
Proof. vm_compute. repeat split. Qed.

(** Payload of the typing fan-out of the sender [s]. *)
Lemma typing_fanout (s : nat) (id : string) (msg : ClientMsg) (reply : BackendReply) (w : World) :
  conn_authed s w = true ->
  m_type msg = Some "typing" ->
  onMessage s id (Parsed msg) reply w
    = broadcast
        (payload_typing (match conn_userId s w with Some u => u | None => "unknown" end)
                        (match m_isTyping msg with Some b => b | None => false end)
                        (roomId (hub w)) (now w) (lastMessage (hub w)))
        (Some [id]) w.
Proof.
  intros Ha Ht. unfold onMessage, onMessage_begin. rewrite Ht. simpl. now rewrite Ha.
Qed.

(** C10. Neither fan-out looks at the [authed] flag of a recipient.  Let [k]
    be the connection object of any open socket [s'] of the room,
    authenticated or not.  Whenever an authenticated sender [s], of another
    id than [k]'s, sends a typing event, [s'] is delivered the typing
    payload, once.  Whenever a valid external trigger arrives whose
    exclusion list does not hold [k]'s id, [s'] is delivered the decorated
    payload, once: an object whose [before] is the cache before the call and
    whose other properties are those of the body. *)
Theorem fanout_reaches_every_open_socket (w : World) (s' : nat) (k : Conn) :
  conns w !! s' = Some k -> conn_open k = true ->
  (forall s id msg reply,
      conn_authed s w = true ->
      m_type msg = Some "typing" ->
      conn_id k <> id ->
      delivered s' (snd (onMessage s id (Parsed msg) reply w))
      = [payload_typing (match conn_userId s w with Some u => u | None => "unknown" end)
                        (match m_isTyping msg with Some b => b | None => false end)
                        (roomId (hub w)) (now w) (lastMessage (hub w))]) /\
  (forall r body rid m,
      req_pathname r = "/broadcast" ->
      req_method r = "POST" ->
      req_authorization r = Some (bearer (WEBHOOK_TOKEN (env w))) ->
      req_body r = Some body ->
      b_roomId body = Some rid -> rid <> "" ->
      b_message body = Some m -> truthy_json m = true ->
      (truthy_str (roomId (hub w)) = true -> roomId (hub w) = Some rid) ->
      excluded (b_excludeConnectionIds body) (conn_id k) = false ->
      exists fs,
        delivered s' (snd (snd (onRequest r w))) = [JObj fs] /\
        obj_get "before" fs = Some (lastMessage (hub w)) /\
        match m with
        | JObj fields => forall key, key <> "before" -> obj_get key fs = obj_get key fields
        | JArr items =>
            length fs = S (length items) /\
            forall i, obj_get (index_key i) fs = items !! i
        | JStr str =>
            length fs = S (length (code_units str)) /\
            forall i, obj_get (index_key i) fs = JStr <$> code_units str !! i
        | JNull | JBool _ | JNum _ => fs = [("before", lastMessage (hub w))]
        end).
Proof.
  intros Hk Ho. split.
  - intros s id msg reply Ha Ht Hne.
    rewrite (typing_fanout s id msg reply w Ha Ht), delivered_broadcast, Hk, Ho.
    cbn [excluded existsb]. rewrite (eqb_false_of_neq _ _ Hne). reflexivity.
  - intros r body rid m Hp Hm Hs Hb Hr Hne Hmsg Htr Hroom Hx.
    rewrite (trigger_accepted r body rid m w Hp Hm Hs Hb Hr Hne Hmsg Htr Hroom).
    cbn [snd]. rewrite delivered_broadcast, Hk, Ho, Hx. cbn [andb negb].
    destruct (payload_broadcast_carries m (lastMessage (hub w))) as (fs & E & Hb' & Hm').
    exists fs. rewrite E. auto.
Qed.

(** In the room of A (authenticated) and B (not): B is delivered A's typing
    event; and in the room where A is alone and has not authenticated, A is
    delivered the message the backend posts. *)
Lemma fanout_reaches_every_open_socket_witness :
  (conns Ex.w_two !! 1%nat = Some (fresh_conn "B") /\ conn_open (fresh_conn "B") = true) /\
  delivered 1 (snd (onMessage 0 "A" (Ex.typing true) FetchThrows Ex.w_two))
    = [payload_typing "u1" true (Some "r1") 0 JNull] /\
  (conns Ex.w_one !! 0%nat = Some (fresh_conn "A") /\ conn_authed 0 Ex.w_one = false) /\
  exists fs,
    delivered 0 (snd (snd (onRequest (Ex.trigger (Some "Bearer s3cret") "r1" Ex.m1 None) Ex.w_one)))
      = [JObj fs] /\
    obj_get "before" fs = Some JNull /\
    obj_get "type" fs = Some (JStr "message.created") /\
    obj_get "id" fs = Some (JStr "m1").
Proof.
  split; [split; reflexivity|].
  split.
  - apply (proj1 (fanout_reaches_every_open_socket Ex.w_two 1 (fresh_conn "B") eq_refl eq_refl)
             0%nat "A"
             {| m_type := Some "typing"; m_token := None; m_roomId := None;
                m_userId := None; m_isTyping := Some true; m_t := None |}
             FetchThrows);
      [reflexivity | reflexivity | discriminate].
  - split; [split; reflexivity|].
    destruct (proj2 (fanout_reaches_every_open_socket Ex.w_one 0 (fresh_conn "A") eq_refl eq_refl)
                (Ex.trigger (Some "Bearer s3cret") "r1" Ex.m1 None)
                {| b_roomId := Some "r1"; b_message := Some Ex.m1;
                   b_excludeConnectionIds := None |}
                "r1" Ex.m1 eq_refl eq_refl eq_refl eq_refl eq_refl
                ltac:(discriminate) eq_refl eq_refl ltac:(intros _; reflexivity) eq_refl)
      as (fs & Hd & Hb & Hm).
    exists fs. split; [exact Hd|]. split; [exact Hb|].
    split; [apply (Hm "type") | apply (Hm "id")]; discriminate.
Defined.

(** ** Well-formedness is kept by every event *)

Lemma andThen_fst (a b : Action) (w : World) :
  fst ((a >>> b) w) = fst (b (fst (a w))).
Proof. unfold andThen. destruct (a w) as [w1 o1]. simpl. now destruct (b w1). Qed.

Lemma andThen_snd (a b : Action) (w : World) :
  snd ((a >>> b) w) = snd (a w) ++ snd (b (fst (a w))).
Proof. unfold andThen. destruct (a w) as [w1 o1]. simpl. now destruct (b w1). Qed.

Lemma preserves_andThen (P : World -> Prop) (a b : Action) :
  preserves P a -> preserves P b -> preserves P (a >>> b).
Proof. intros Ha Hb w Hw. rewrite andThen_fst. auto. Qed.

Lemma preserves_send (P : World -> Prop) (s : nat) (p : json) : preserves P (send s p).
Proof. intros w Hw. exact Hw. Qed.

(** *** The ids of the connection objects never change *)

Lemma conn_key_In (s : nat) (id : string) (w : World) :
  conn_key s w = Some id -> In id (conn_ids w).
Proof.
  unfold conn_key, conn_ids. intros H.
  destruct (conns w !! s) as [k|] eqn:E; [|discriminate].
  inversion H; subst. apply in_map. apply list_elem_of_In.
  now apply (list_elem_of_lookup_2 _ s).
Qed.

Lemma In_conn_key (id : string) (w : World) :
  In id (conn_ids w) -> exists s, conn_key s w = Some id.
Proof.
  unfold conn_key, conn_ids. intros H. apply in_map_iff in H as (k & <- & Hin).
  apply list_elem_of_In, list_elem_of_lookup_1 in Hin as [s Hs].
  exists s. now rewrite Hs.
Qed.

Lemma lookup_update_conn (s s' : nat) (f : Conn -> Conn) (w : World) :
  conns (update_conn s f w) !! s'
    = if Nat.eqb s' s then f <$> conns w !! s' else conns w !! s'.
Proof.
  unfold update_conn. cbn [conns set_conns]. rewrite list_lookup_alter.
  destruct (decide (s = s')) as [->|Hne].
  - now rewrite Nat.eqb_refl.
  - assert (Nat.eqb s' s = false) as -> by (apply Nat.eqb_neq; congruence). reflexivity.
Qed.

Lemma conn_key_update (s s' : nat) (f : Conn -> Conn) (w : World) :
  (forall k, conn_id (f k) = conn_id k) ->
  conn_key s' (update_conn s f w) = conn_key s' w.
Proof.
  intros Hf. unfold conn_key. rewrite lookup_update_conn.
  destruct (Nat.eqb s' s); [|reflexivity].
  destruct (conns w !! s') as [k|]; cbn; [now rewrite Hf | reflexivity].
Qed.

Lemma conn_ids_update (s : nat) (f : Conn -> Conn) (w : World) :
  (forall k, conn_id (f k) = conn_id k) ->
  conn_ids (update_conn s f w) = conn_ids w.
Proof.
  intros Hf. unfold conn_ids, update_conn. cbn [conns set_conns].
  revert s. induction (conns w) as [|k l IH]; intros s; [reflexivity|].
  destruct s as [|s]; cbn; [now rewrite Hf | f_equal; apply IH].
Qed.

Lemma conn_key_register (s : nat) (id i : string) (w : World) :
  conn_key s w = Some i ->
  conn_key s (set_conns (conns w ++ [fresh_conn id]) w) = Some i.
Proof.
  unfold conn_key. cbn [conns set_conns]. intros H.
  destruct (conns w !! s) as [k|] eqn:E; [|discriminate].
  rewrite lookup_app_l by (now apply lookup_lt_Some in E). now rewrite E.
Qed.

Lemma conn_key_new (id : string) (w : World) :
  conn_key (length (conns w)) (set_conns (conns w ++ [fresh_conn id]) w) = Some id.
Proof.
  unfold conn_key. cbn [conns set_conns].
  rewrite lookup_app_r by lia. now rewrite Nat.sub_diag.
Qed.

Lemma conn_ids_register (id : string) (w : World) :
  conn_ids (set_conns (conns w ++ [fresh_conn id]) w) = conn_ids w ++ [id].
Proof. unfold conn_ids. cbn [conns set_conns]. now rewrite map_app. Qed.

(** *** The primitives *)

Lemma wf_update_conn (s : nat) (f : Conn -> Conn) (w : World) :
  (forall k, conn_id (f k) = conn_id k) -> wf w -> wf (update_conn s f w).
Proof.
  intros Hf [H1 H2 H3 H4 H5 H6 H7 H8 H9].
  constructor; try (simpl; assumption).
  - intros t Hin. rewrite conn_key_update by exact Hf. now apply H8.
  - intros id h Hl. rewrite conn_ids_update by exact Hf. now apply (H9 id h).
Qed.

Lemma wf_close (s : nat) (code : Z) (reason : string) : preserves wf (close s code reason).
Proof. intros w Hw. simpl. now apply wf_update_conn. Qed.

Lemma wf_set_roomId (r : option string) (w : World) : wf w -> wf (set_roomId r w).
Proof. intros [H1 H2 H3 H4 H5 H6 H7 H8 H9]. constructor; simpl; auto. Qed.

Lemma wf_set_lastMessage (j : json) (w : World) : wf w -> wf (set_lastMessage j w).
Proof. intros [H1 H2 H3 H4 H5 H6 H7 H8 H9]. constructor; simpl; auto. Qed.

Lemma wf_advance (d : N) (w : World) : wf w -> wf (advance d w).
Proof. intros [H1 H2 H3 H4 H5 H6 H7 H8 H9]. constructor; simpl; auto. Qed.

Lemma in_clearTimeout (h : nat) (w : World) (t : Timer) :
  In t (timers (clearTimeout h w)) <-> In t (timers w) /\ t_handle t <> h.
Proof.
  unfold clearTimeout. simpl. rewrite filter_In, negb_true_iff, Nat.eqb_neq. tauto.
Qed.

Lemma wf_clearTimeout (h : nat) (w : World) : wf w -> wf (clearTimeout h w).
Proof.
  intros [H1 H2 H3 H4 H5 H6 H7 H8 H9].
  constructor; try (simpl; assumption);
    try (intros; repeat match goal with
                 | H : In _ (timers (clearTimeout _ _)) |- _ => apply in_clearTimeout in H as [H ?]
                 end; simpl in *; eauto 3).
Qed.

Lemma truthy_handle_pos (h : nat) : (0 < h)%nat -> truthy_handle h = true.
Proof. intros H. unfold truthy_handle. apply negb_true_iff, Nat.eqb_neq. lia. Qed.

Lemma is_auth_key_spec (id : string) (t : Timer) :
  is_auth_key id t = true <-> exists s, t_cb t = AuthTimeout s id.
Proof.
  unfold is_auth_key. destruct (t_cb t) as [s i|s i].
  - rewrite String.eqb_eq. split; [intros ->; eauto | intros [s' E]; congruence].
  - split; [discriminate | intros [s' E]; discriminate].
Qed.

Lemma is_ping_key_spec (id : string) (t : Timer) :
  is_ping_key id t = true <-> exists s, t_cb t = PingTimeout s id.
Proof.
  unfold is_ping_key. destruct (t_cb t) as [s i|s i].
  - split; [discriminate | intros [s' E]; discriminate].
  - rewrite String.eqb_eq. split; [intros ->; eauto | intros [s' E]; congruence].
Qed.

Lemma wf_cancel_authTimer (id : string) : preserves wf (cancel_authTimer id).
Proof.
  intros w Hw. unfold cancel_authTimer, modify. simpl.
  destruct (authTimers (hub w) !! id) as [h|] eqn:E; [|exact Hw].
  rewrite truthy_handle_pos by (apply (wf_auth_range w Hw id h E)).
  pose proof (wf_clearTimeout h w Hw) as [H1 H2 H3 H4 H5 H6 H7 H8 H9].
  constructor; try (simpl; assumption); simpl in *.
  - intros c' h' Hl. apply lookup_delete_Some in Hl as [_ Hl]. eauto.
  - intros t s c' Hin Hcb. destruct (decide (c' = id)) as [->|Hne].
    + exfalso. apply (in_clearTimeout h w) in Hin as [Hin Hh].
      pose proof (wf_auth_indexed w Hw t s id Hin Hcb) as Hx. congruence.
    + rewrite lookup_delete_ne by congruence. eauto.
  - intros c' h' t Hl. apply lookup_delete_Some in Hl as [_ Hl]. eauto.
  - intros c' h' Hl. apply lookup_delete_Some in Hl as [_ Hl]. eauto.
Qed.

Lemma wf_cancel_pingTimer (id : string) : preserves wf (cancel_pingTimer id).
Proof.
  intros w Hw. unfold cancel_pingTimer, modify. simpl.
  destruct (pingTimers (hub w) !! id) as [h|] eqn:E; [|exact Hw].
  rewrite truthy_handle_pos by (apply (wf_ping_range w Hw id h E)).
  pose proof (wf_clearTimeout h w Hw) as [H1 H2 H3 H4 H5 H6 H7 H8 H9].
  constructor; try (simpl; assumption); simpl in *.
  - intros c' h' Hl. apply lookup_delete_Some in Hl as [_ Hl]. eauto.
  - intros c' h' t Hl. apply lookup_delete_Some in Hl as [_ Hl]. eauto.
Qed.

Lemma wf_arm_pingTimer (s : nat) (id : string) (w : World) :
  conn_key s w = Some id -> wf w -> wf (fst (arm_pingTimer s id w)).
Proof.
  intros Hc [H1 H2 H3 H4 H5 H6 H7 H8 H9]. unfold arm_pingTimer, modify. simpl.
  constructor; simpl.
  - lia.
  - intros t Hin. apply in_app_or in Hin as [Hin|[<-|[]]]; simpl; [specialize (H2 t Hin)|]; lia.
  - intros c' h Hl. specialize (H3 c' h Hl). lia.
  - intros c' h Hl. apply lookup_insert_Some in Hl as [[_ <-]|[_ Hl]]; [|specialize (H4 c' h Hl)]; lia.
  - intros t s' c' Hin Hcb. apply in_app_or in Hin as [Hin|[<-|[]]]; [eauto | discriminate].
  - intros c' h t Hl Hin Hh. apply in_app_or in Hin as [Hin|[<-|[]]]; [eauto|].
    simpl in Hh. specialize (H3 c' h Hl). lia.
  - intros c' h t Hl Hin Hh.
    apply lookup_insert_Some in Hl as [[<- <-]|[Hne Hl]];
      apply in_app_or in Hin as [Hin|[<-|[]]]; simpl in *.
    + specialize (H2 t Hin). lia.
    + unfold is_ping_key. simpl. apply String.eqb_refl.
    + eauto.
    + specialize (H4 c' h Hl). lia.
  - intros t Hin. apply in_app_or in Hin as [Hin|[<-|[]]]; [apply (H8 t Hin) | exact Hc].
  - exact H9.
Qed.

Lemma conns_cancel_auth (id : string) (w : World) :
  conns (fst (cancel_authTimer id w)) = conns w.
Proof.
  unfold cancel_authTimer, modify. simpl.
  destruct (authTimers (hub w) !! id) as [h|]; [|reflexivity].
  now destruct (truthy_handle h).
Qed.

Lemma conns_cancel_ping (id : string) (w : World) :
  conns (fst (cancel_pingTimer id w)) = conns w.
Proof.
  unfold cancel_pingTimer, modify. simpl.
  destruct (pingTimers (hub w) !! id) as [h|]; [|reflexivity].
  now destruct (truthy_handle h).
Qed.

Lemma conn_key_conns (s : nat) (w w' : World) :
  conns w' = conns w -> conn_key s w' = conn_key s w.
Proof. unfold conn_key. now intros ->. Qed.

Lemma wf_register (id : string) (w : World) :
  wf w -> wf (set_conns (conns w ++ [fresh_conn id]) w).
Proof.
  intros [H1 H2 H3 H4 H5 H6 H7 H8 H9].
  constructor; try (simpl; assumption).
  - intros t Hin. apply conn_key_register. now apply H8.
  - intros i h Hl. rewrite conn_ids_register. apply in_or_app. left. now apply (H9 i h).
Qed.

Lemma wf_onConnect (s : nat) (id : string) (ci : ConnInfo) (w : World) :
  wf w -> conn_key s w = Some id ->
  (forall t, In t (timers w) -> cb_key (t_cb t) <> id) ->
  wf (fst (onConnect s id ci w)).
Proof.
  intros [H1 H2 H3 H4 H5 H6 H7 H8 H9] Hc Hfresh.
  unfold onConnect. rewrite !andThen_fst. unfold modify, send, setTimeout. simpl.
  constructor; simpl.
  - lia.
  - intros t Hin. apply in_app_or in Hin as [Hin|[<-|[]]]; simpl; [specialize (H2 t Hin)|]; lia.
  - intros c' h Hl. apply lookup_insert_Some in Hl as [[_ <-]|[_ Hl]]; [|specialize (H3 c' h Hl)]; lia.
  - intros c' h Hl. specialize (H4 c' h Hl). lia.
  - intros t s' c' Hin Hcb. apply in_app_or in Hin as [Hin|[<-|[]]].
    + rewrite lookup_insert_ne; [eauto|].
      intros <-. apply (Hfresh t Hin). now rewrite Hcb.
    + simpl in Hcb. inversion Hcb; subst. simpl. apply lookup_insert_eq.
  - intros c' h t Hl Hin Hh.
    apply lookup_insert_Some in Hl as [[<- <-]|[Hne Hl]];
      apply in_app_or in Hin as [Hin|[<-|[]]]; simpl in *.
    + specialize (H2 t Hin). lia.
    + unfold is_auth_key. simpl. apply String.eqb_refl.
    + eauto.
    + specialize (H3 c' h Hl). lia.
  - intros c' h t Hl Hin Hh. apply in_app_or in Hin as [Hin|[<-|[]]]; [eauto|].
    simpl in Hh. specialize (H4 c' h Hl). lia.
  - intros t Hin. apply in_app_or in Hin as [Hin|[<-|[]]]; [apply (H8 t Hin) | exact Hc].
  - intros c' h Hl. apply lookup_insert_Some in Hl as [[<- _]|[_ Hl]]; [|eauto].
    now apply (conn_key_In s).
Qed.

Lemma wf_delete_auth (id : string) (w : World) :
  wf w -> (forall t, In t (timers w) -> is_auth_key id t = false) ->
  wf (set_authTimers (delete id (authTimers (hub w))) w).
Proof.
  intros [H1 H2 H3 H4 H5 H6 H7 H8 H9] Hno.
  constructor; simpl; auto.
  - intros c' h Hl. apply lookup_delete_Some in Hl as [_ Hl]. eauto.
  - intros t s c' Hin Hcb. rewrite lookup_delete_ne; [eauto|].
    intros <-. pose proof (Hno t Hin) as N. unfold is_auth_key in N.
    rewrite Hcb, String.eqb_refl in N. discriminate.
  - intros c' h t Hl. apply lookup_delete_Some in Hl as [_ Hl]. eauto.
  - intros c' h Hl. apply lookup_delete_Some in Hl as [_ Hl]. eauto.
Qed.

Lemma wf_delete_ping (id : string) (w : World) :
  wf w -> wf (set_pingTimers (delete id (pingTimers (hub w))) w).
Proof.
  intros [H1 H2 H3 H4 H5 H6 H7 H8 H9].
  constructor; simpl; auto.
  - intros c' h Hl. apply lookup_delete_Some in Hl as [_ Hl]. eauto.
  - intros c' h t Hl. apply lookup_delete_Some in Hl as [_ Hl]. eauto.
Qed.

Lemma find_timer_Some (h : nat) (w : World) (t : Timer) :
  find_timer h w = Some t -> In t (timers w) /\ t_handle t = h.
Proof.
  unfold find_timer. intros H. apply find_some in H as [Hin E].
  split; [exact Hin | now apply Nat.eqb_eq].
Qed.

Lemma wf_authTimeout_fires (s : nat) (id : string) (w : World) :
  wf w -> (forall t, In t (timers w) -> is_auth_key id t = false) ->
  wf (fst (authTimeout_fires s id w)).
Proof.
  intros Hw Hno. unfold authTimeout_fires. rewrite andThen_fst.
  destruct (negb (conn_authed s w)).
  - rewrite andThen_fst. unfold sendError, send, close, modify, fst.
    apply wf_delete_auth; [now apply wf_update_conn | exact Hno].
  - unfold modify, fst. now apply wf_delete_auth.
Qed.

Lemma wf_pingTimeout_fires (s : nat) (id : string) : preserves wf (pingTimeout_fires s id).
Proof.
  intros w Hw. unfold pingTimeout_fires.
  destruct (negb (conn_authed s w)); [exact Hw|].
  rewrite !andThen_fst. unfold sendError, send, close, modify, fst.
  apply wf_delete_ping. now apply wf_update_conn.
Qed.

Lemma wf_fire (h : nat) (t : Timer) (w : World) :
  wf w -> find_timer h w = Some t ->
  wf (fst (run_callback (t_cb t) (clearTimeout h w))).
Proof.
  intros Hw Hf. apply find_timer_Some in Hf as [Hin Hh].
  pose proof (wf_clearTimeout h w Hw) as Hw1.
  destruct (t_cb t) as [s id|s id] eqn:Hcb; simpl.
  - apply wf_authTimeout_fires; [exact Hw1|].
    intros t' Hin'. apply in_clearTimeout in Hin' as [Hin' Hne].
    destruct (is_auth_key id t') eqn:K; [|reflexivity].
    apply is_auth_key_spec in K as [s' Hcb'].
    pose proof (wf_auth_indexed w Hw t s id Hin Hcb) as E1.
    pose proof (wf_auth_indexed w Hw t' s' id Hin' Hcb') as E2. congruence.
  - now apply wf_pingTimeout_fires.
Qed.

Lemma fst_send (s : nat) (p : json) (w : World) : fst (send s p w) = w.
Proof. reflexivity. Qed.

Lemma fst_sendError (s : nat) (code message : string) (w : World) :
  fst (sendError s code message w) = w.
Proof. reflexivity. Qed.

Lemma wf_onMessage_begin (s : nat) (id : string) (raw : WSParsed) (w : World)
    (r : World * list Output) :
  wf w -> conn_key s w = Some id ->
  onMessage_begin s id raw w = Done r -> wf (fst r).
Proof.
  intros Hw Hc. unfold onMessage_begin.
  repeat match goal with
         | |- context [match ?x with _ => _ end] => destruct x eqn:?
         end;
    intros E; inversion E; subst; clear E; try exact Hw;
    rewrite ?andThen_fst, ?fst_send, ?fst_sendError;
    try (apply wf_close; exact Hw);
    (apply wf_arm_pingTimer;
     [now rewrite (conn_key_conns s _ _ (conns_cancel_ping id w))
     | now apply wf_cancel_pingTimer]).
Qed.

Lemma wf_onMessage_resume (p : Pending) (res : AuthResult) (w : World) :
  wf w -> conn_key (p_conn p) w = Some (p_id p) -> wf (fst (onMessage_resume p res w)).
Proof.
  intros Hw Hc. unfold onMessage_resume. cbv zeta.
  destruct (negb (success res)).
  - rewrite andThen_fst, fst_sendError. now apply wf_close.
  - rewrite !andThen_fst, fst_send. unfold modify at 1 2. unfold fst at 3 4.
    apply wf_arm_pingTimer.
    + rewrite (conn_key_conns _ _ _ (conns_cancel_auth _ _)).
      now rewrite conn_key_update by reflexivity.
    + apply wf_cancel_authTimer. apply wf_update_conn; [reflexivity|].
      now apply wf_set_roomId.
Qed.

Lemma wf_onRequest (r : Request) (w : World) :
  wf w -> wf (fst (snd (onRequest r w))).
Proof.
  intros Hw. unfold onRequest.
  repeat match goal with
         | |- context [match ?x with _ => _ end] => destruct x eqn:?
         end; simpl; auto using wf_set_roomId, wf_set_lastMessage.
Qed.

Lemma wf_init (e : Env) : wf (init e).
Proof. constructor; simpl; try lia; try tauto; intros; simplify_map_eq. Qed.

(** An event keeps the world well formed, provided that a socket it opens
    comes under an id that no connection of the hub carries. *)
Theorem wf_step (e : Event) (w : World) :
  wf w ->
  (forall id ci, e = EConnect id ci -> ~ In id (conn_ids w)) ->
  wf (fst (step e w)).
Proof.
  intros Hw Hfresh. destruct e as [id ci|s|s raw|p reply|r|h|d]; cbn [step].
  - apply wf_onConnect.
    + now apply wf_register.
    + apply conn_key_new.
    + cbn [timers set_conns]. intros t Hin E. apply (Hfresh id ci eq_refl).
      rewrite <- E. apply (conn_key_In (cb_conn (t_cb t))). now apply wf_registered.
  - destruct (conns w !! s) as [k|] eqn:Hc; [|exact Hw].
    unfold onClose. rewrite andThen_fst.
    apply wf_cancel_pingTimer, wf_cancel_authTimer. now apply wf_update_conn.
  - destruct (conns w !! s) as [k|] eqn:Hc; [|exact Hw].
    destruct (onMessage_begin s (conn_id k) raw w) as [r|p] eqn:E; [|exact Hw].
    eapply wf_onMessage_begin; eauto. unfold conn_key. now rewrite Hc.
  - destruct (conns w !! p_conn p) as [k|] eqn:Hc; [|exact Hw].
    destruct (String.eqb (conn_id k) (p_id p)) eqn:Ek; [|exact Hw].
    apply String.eqb_eq in Ek.
    apply wf_onMessage_resume; [exact Hw|]. unfold conn_key. now rewrite Hc, <- Ek.
  - now apply wf_onRequest.
  - destruct (find_timer h w) as [t|] eqn:E; [|exact Hw].
    destruct (t_due t <=? now w); [|exact Hw]. now apply wf_fire.
  - now apply wf_advance.
Qed.

(** *** Runs *)

Lemma conn_ids_conns (w w' : World) : conns w' = conns w -> conn_ids w' = conn_ids w.
Proof. unfold conn_ids. now intros ->. Qed.

Lemma conn_ids_begin (s : nat) (id : string) (raw : WSParsed) (w : World)
    (r : World * list Output) :
  onMessage_begin s id raw w = Done r -> conn_ids (fst r) = conn_ids w.
Proof.
  unfold onMessage_begin.
  repeat match goal with
         | |- context [match ?x with _ => _ end] => destruct x eqn:?
         end;
    intros E; inversion E; subst; clear E; try reflexivity;
    rewrite ?andThen_fst, ?fst_send, ?fst_sendError;
    try (unfold close; cbn [fst]; now apply conn_ids_update);
    (apply conn_ids_conns; unfold arm_pingTimer, modify, setTimeout;
     cbn [fst conns set_pingTimers set_hub]; apply conns_cancel_ping).
Qed.

Lemma conn_ids_resume (p : Pending) (res : AuthResult) (w : World) :
  conn_ids (fst (onMessage_resume p res w)) = conn_ids w.
Proof.
  unfold onMessage_resume. cbv zeta. destruct (negb (success res)).
  - rewrite andThen_fst, fst_sendError. unfold close. cbn [fst]. now apply conn_ids_update.
  - rewrite !andThen_fst, fst_send. unfold modify at 1 2. unfold fst at 3 4.
    transitivity (conn_ids (update_conn (p_conn p)
                              (mark_authed (or_str (result_userId res) (p_hint p)))
                              (set_roomId (Some (p_roomId p)) w))).
    + apply conn_ids_conns. unfold arm_pingTimer, modify, setTimeout.
      cbn [fst conns set_pingTimers set_hub]. apply conns_cancel_auth.
    + now rewrite conn_ids_update by reflexivity.
Qed.

Lemma conn_ids_callback (cb : callback) (w : World) :
  conn_ids (fst (run_callback cb w)) = conn_ids w.
Proof.
  destruct cb as [s id|s id]; cbn [run_callback].
  - unfold authTimeout_fires. rewrite andThen_fst.
    destruct (negb (conn_authed s w)).
    + rewrite andThen_fst, fst_sendError. unfold close, modify. cbn [fst].
      change (conn_ids (update_conn s mark_closed w) = conn_ids w).
      now apply conn_ids_update.
    + reflexivity.
  - unfold pingTimeout_fires.
    destruct (negb (conn_authed s w)); [reflexivity|].
    rewrite !andThen_fst, fst_sendError. unfold close, modify. cbn [fst].
    change (conn_ids (update_conn s mark_closed w) = conn_ids w).
    now apply conn_ids_update.
Qed.

Lemma conn_ids_onRequest (r : Request) (w : World) :
  conn_ids (fst (snd (onRequest r w))) = conn_ids w.
Proof.
  unfold onRequest.
  repeat match goal with
         | |- context [match ?x with _ => _ end] => destruct x eqn:?
         end; reflexivity.
Qed.

(** The ids in use after an event: those before, and the one it opens a
    socket under. *)
Lemma conns_step (e : Event) (w : World) :
  conn_ids (fst (step e w)) = conn_ids w ++ connect_ids [e].
Proof.
  destruct e as [id ci|s|s raw|p reply|r|h|d]; cbn [connect_ids step]; rewrite ?app_nil_r.
  - unfold onConnect. rewrite !andThen_fst.
    unfold modify, send, setTimeout. cbn. unfold conn_ids. cbn. now rewrite map_app.
  - destruct (conns w !! s) as [k|]; [|reflexivity].
    unfold onClose. rewrite andThen_fst.
    rewrite (conn_ids_conns _ _ (conns_cancel_ping _ _)).
    rewrite (conn_ids_conns _ _ (conns_cancel_auth _ _)).
    now apply conn_ids_update.
  - destruct (conns w !! s) as [k|]; [|reflexivity].
    destruct (onMessage_begin s (conn_id k) raw w) as [r|p] eqn:E; [|reflexivity].
    now apply (conn_ids_begin s (conn_id k) raw).
  - destruct (conns w !! p_conn p) as [k|]; [|reflexivity].
    destruct (String.eqb (conn_id k) (p_id p)); [|reflexivity].
    apply conn_ids_resume.
  - apply conn_ids_onRequest.
  - destruct (find_timer h w) as [t|]; [|reflexivity].
    destruct (t_due t <=? now w); [|reflexivity].
    now rewrite conn_ids_callback.
  - reflexivity.
Qed.

(** A run keeps the world well formed as long as the ids under which it
    opens sockets differ from one another and from those in use. *)
Theorem wf_run (es : list Event) (w : World) :
  wf w -> List.NoDup (conn_ids w ++ connect_ids es) -> wf (fst (run es w)).
Proof.
  revert w. induction es as [|e es IH]; intros w Hw Hnd; simpl; [exact Hw|].
  rewrite andThen_fst. apply IH.
  - apply wf_step; [exact Hw|]. intros id ci ->. cbn [connect_ids] in Hnd.
    apply List.NoDup_remove_2 in Hnd. intros Hin. apply Hnd. apply in_or_app. now left.
  - rewrite conns_step. destruct e; cbn [connect_ids] in *; rewrite ?app_nil_r; try exact Hnd.
    now rewrite <- app_assoc.
Qed.

(** Settles that the ids in a concrete list differ from one another. *)
Ltac distinct_ids :=
  cbn; repeat (apply List.NoDup_cons; [cbn; intuition discriminate|]); apply List.NoDup_nil.
(** ** Successful admission *)

Lemma conn_authed_conns (s : nat) (w w' : World) :
  conns w' = conns w -> conn_authed s w' = conn_authed s w.
Proof. unfold conn_authed. now intros ->. Qed.

Lemma conn_userId_conns (s : nat) (w w' : World) :
  conns w' = conns w -> conn_userId s w' = conn_userId s w.
Proof. unfold conn_userId. now intros ->. Qed.

Lemma conn_key_Some (s : nat) (id : string) (w : World) :
  conn_key s w = Some id <-> exists k, conns w !! s = Some k /\ conn_id k = id.
Proof.
  unfold conn_key. destruct (conns w !! s) as [k|]; cbn.
  - split; [intros E; inversion E; eauto | intros (k' & E & <-); congruence].
  - split; [discriminate | intros (k' & E & _); discriminate].
Qed.

(** What [cancel_authTimer] does in a well-formed world: it disarms every
    admission timer armed for the id and forgets the handle. *)
Lemma cancel_authTimer_spec (id : string) (w : World) :
  wf w ->
  let w' := fst (cancel_authTimer id w) in
  timers w' = List.filter (fun t => negb (is_auth_key id t)) (timers w) /\
  authTimers (hub w') = delete id (authTimers (hub w)) /\
  pingTimers (hub w') = pingTimers (hub w) /\
  roomId (hub w') = roomId (hub w) /\ lastMessage (hub w') = lastMessage (hub w) /\
  conns w' = conns w /\ next_handle w' = next_handle w /\ now w' = now w /\ env w' = env w.
Proof.
  intros Hw. unfold cancel_authTimer, modify. simpl.
  destruct (authTimers (hub w) !! id) as [h|] eqn:E.
  - rewrite truthy_handle_pos by (apply (wf_auth_range w Hw id h E)). simpl.
    repeat split. apply filter_ext_in. intros t Hin. f_equal.
    destruct (Nat.eqb (t_handle t) h) eqn:Eh.
    + apply Nat.eqb_eq in Eh. symmetry. apply (wf_auth_entry w Hw id h t E Hin Eh).
    + destruct (is_auth_key id t) eqn:K; [|reflexivity].
      apply is_auth_key_spec in K as [s Hcb].
      pose proof (wf_auth_indexed w Hw t s id Hin Hcb) as E2.
      apply Nat.eqb_neq in Eh. congruence.
  - repeat split.
    + symmetry. rewrite <- (filter_ext_in (fun _ => true)).
      * clear. induction (timers w) as [|t l IH]; simpl; [reflexivity | now rewrite IH].
      * intros t Hin. destruct (is_auth_key id t) eqn:K; [|reflexivity].
        apply is_auth_key_spec in K as [s Hcb].
        pose proof (wf_auth_indexed w Hw t s id Hin Hcb) as E2. congruence.
    + symmetry. now apply delete_id.
Qed.


(** In a well-formed world the admission timers of a socket are among those
    armed for its id. *)
Lemma auth_timer_key (s : nat) (id : string) (w : World) (t : Timer) :
  wf w -> conn_key s w = Some id -> In t (timers w) ->
  is_auth_timer s t = true -> is_auth_key id t = true.
Proof.
  intros Hw Hk Hin Ht. pose proof (wf_registered w Hw t Hin) as R.
  unfold is_auth_timer in Ht. unfold is_auth_key.
  destruct (t_cb t) as [s' i|s' i]; [|discriminate].
  apply Nat.eqb_eq in Ht. subst s'. cbn in R. rewrite Hk in R.
  inversion R. apply String.eqb_refl.
Qed.

Lemma arm_pingTimer_spec (s : nat) (id : string) (w : World) :
  let w' := fst (arm_pingTimer s id w) in
  timers w' = timers w ++ [{| t_handle := next_handle w; t_due := now w + PING_TIMEOUT_MS;
                              t_cb := PingTimeout s id |}] /\
  pingTimers (hub w') = <[id := next_handle w]> (pingTimers (hub w)) /\
  authTimers (hub w') = authTimers (hub w) /\
  roomId (hub w') = roomId (hub w) /\ lastMessage (hub w') = lastMessage (hub w) /\
  conns w' = conns w /\ next_handle w' = S (next_handle w) /\ now w' = now w /\ env w' = env w.
Proof. repeat split. Qed.

Lemma snd_cancel_authTimer (id : string) (w : World) : snd (cancel_authTimer id w) = [].
Proof. reflexivity. Qed.

Lemma snd_cancel_pingTimer (id : string) (w : World) : snd (cancel_pingTimer id w) = [].
Proof. reflexivity. Qed.

Lemma snd_arm_pingTimer (s : nat) (id : string) (w : World) : snd (arm_pingTimer s id w) = [].
Proof. reflexivity. Qed.

(** The success branch of [onMessage_resume], step by step. *)
Lemma resume_success (p : Pending) (res : AuthResult) (w : World) :
  success res = true ->
  onMessage_resume p res w
    = (fst (arm_pingTimer (p_conn p) (p_id p)
         (fst (cancel_authTimer (p_id p)
            (update_conn (p_conn p) (mark_authed (or_str (result_userId res) (p_hint p)))
               (set_roomId (Some (p_roomId p)) w))))),
       [Send (p_conn p) payload_auth_ok]).
Proof.
  intros Hs. unfold onMessage_resume. cbv zeta. rewrite Hs. cbn [negb].
  apply injective_projections.
  - rewrite !andThen_fst. reflexivity.
  - rewrite !andThen_snd, !andThen_fst, snd_arm_pingTimer, snd_cancel_authTimer. reflexivity.
Qed.

(** The answers of the backend that admit: status 200 with a body that is
    not the JSON value null. *)
Lemma checkParticipant_succeeds (reply : BackendReply) :
  success (checkParticipant_result reply) = true <->
  exists body, reply = Responded 200 body /\ body <> JsonNull.
Proof.
  destruct reply as [|st body]; cbn.
  - split; [discriminate | intros (b & E & _); discriminate].
  - destruct (Z.eqb st 200) eqn:E.
    + apply Z.eqb_eq in E. subst st. destruct body; cbn.
      * split; [intros _; exists NotJson; split; [reflexivity|discriminate] | reflexivity].
      * split; [discriminate | intros (b & Eb & Hb); inversion Eb; subst; contradiction].
      * split; [intros _; eexists; split; [reflexivity|discriminate] | reflexivity].
    + apply Z.eqb_neq in E. cbn. split; [discriminate|].
      intros (b & Eb & _). inversion Eb. contradiction.
Qed.



(** Scenario: connect, authenticate with a good token; the backend names
    the user u1. *)
Example admission_scenario :
  let '(w', outs) :=
    run [EConnect "A" (Ex.at_room "r1");
         EMessage 0 (Ex.auth (Some "good") (Some "r1") (Some "hint"));
         EAuthReply (Ex.pending 0 "A" "r1" "good" (Some "hint")) (Ex.ok "u1")]
        (init Ex.e0) in
  outs = [Send 0 payload_info; Send 0 payload_auth_ok] /\
  conns w' = [{| conn_id := "A"; authed := true; userId := Some "u1"; conn_open := true |}] /\
  timers w' = [{| t_handle := 2; t_due := 30000; t_cb := PingTimeout 0 "A" |}] /\
  authTimers (hub w') !! "A" = None /\ pingTimers (hub w') !! "A" = Some 2%nat.
Proof. vm_compute. repeat split. Qed.

(** An empty identity from the backend counts as none: the hint is used. *)
Example empty_identity_falls_back :
  conn_userId 0
    (fst (onMessage_resume (Ex.pending 0 "A" "r1" "good" (Some "hint"))
            (checkParticipant_result (Responded 200 (JsonValue (Some "")))) Ex.w_one))
  = Some "hint".
Proof. vm_compute. reflexivity. Qed.

(** A 200 whose body is the JSON value null does not admit: reading
    [userId] of it throws, and the connection is closed like on a refusal. *)
Example null_body_refuses :
  snd (onMessage_resume (Ex.pending 0 "A" "r1" "good" None)
         (checkParticipant_result (Responded 200 JsonNull)) Ex.w_one)
  = [Send 0 (payload_error "unauthorized" "not a participant");
     Close 0 CLOSE_UNAUTHORIZED "unauthorized"].
Proof. vm_compute. reflexivity. Qed.

(** ** The room binding *)

(** The two paths that keep a binding: a new connection never changes a
    bound identifier, and an external trigger for another room is refused
    with status 400 and changes nothing. *)
Lemma onConnect_keeps_binding (s : nat) (id : string) (ci : ConnInfo) (rid : string) (w : World) :
  roomId (hub w) = Some rid ->
  roomId (hub (fst (onConnect s id ci w))) = Some rid.
Proof.
  intros H. unfold onConnect. rewrite !andThen_fst. unfold modify, send. simpl.
  now rewrite H.
Qed.

(** X18. An external trigger for a room other than the bound, non-empty one
    is refused with a status other than 200; nothing changes and nothing is
    delivered. *)
Lemma trigger_conflict_rejected (r : Request) (body : Body) (rid bound : string) (w : World) :
  req_pathname r = "/broadcast" ->
  req_method r = "POST" ->
  req_body r = Some body ->
  b_roomId body = Some rid ->
  roomId (hub w) = Some bound -> bound <> "" -> rid <> bound ->
  snd (onRequest r w) = (w, []) /\ status (fst (onRequest r w)) <> 200.
Proof.
  intros Hp Hm Hb Hr Hbound Hne Hdiff.
  unfold onRequest. rewrite Hp, Hm. simpl.
  destruct (secret_ok r w); simpl; [|split; [reflexivity|discriminate]].
  rewrite Hb, Hr.
  destruct (b_message body) as [m|]; [|split; [reflexivity|discriminate]].
  destruct (negb (String.eqb rid "") && truthy_json m); [|split; [reflexivity|discriminate]].
  unfold truthy_str. rewrite Hbound, (eqb_false_of_neq _ _ Hne). simpl.
  rewrite Hbound, bool_decide_eq_false_2 by congruence. simpl.
  split; [reflexivity|discriminate].
Qed.

(** What a successful admission does to the binding: the room identifier of
    the request replaces whatever was bound. *)
Lemma admission_rebinds (p : Pending) (res : AuthResult) (w : World) :
  success res = true ->
  roomId (hub (fst (onMessage_resume p res w))) = Some (p_roomId p).
Proof.
  intros Hs. rewrite resume_success by exact Hs. cbn [fst].
  destruct (arm_pingTimer_spec (p_conn p) (p_id p)
              (fst (cancel_authTimer (p_id p)
                 (update_conn (p_conn p) (mark_authed (or_str (result_userId res) (p_hint p)))
                    (set_roomId (Some (p_roomId p)) w)))))
    as (_ & _ & _ & -> & _).
  unfold cancel_authTimer, modify. cbn [fst].
  destruct (authTimers _ !! p_id p) as [h|]; [|reflexivity].
  destruct (truthy_handle h); reflexivity.
Qed.

(** C1, at the failing input.  The hub is bound to r1 (A, socket 0, is authenticated
    in it; B, socket 1, has just connected).  B sends an admission request that names r2,
    with a token the backend accepts for r2.  The request is not refused: B
    gets [auth:ok] and the hub is now bound to r2; from then on the
    backend's triggers for r1 are refused as "wrong room instance" while
    triggers for r2 reach A. *)
Theorem admission_overwrites_binding :
  roomId (hub Ex.w_two) = Some "r1" /\
  let '(w', outs) :=
    run [EMessage 1 (Ex.auth (Some "good") (Some "r2") None);
         EAuthReply (Ex.pending 1 "B" "r2" "good" None) (Ex.ok "u2")]
        Ex.w_two in
  outs = [Send 1 payload_auth_ok] /\
  roomId (hub w') = Some "r2" /\
  onMessage_begin 1 "B" (Ex.auth (Some "good") (Some "r2") None) Ex.w_two
    = Await (Ex.pending 1 "B" "r2" "good" None) /\
  onRequest (Ex.trigger (Some "Bearer s3cret") "r1" Ex.m1 None) w'
    = ({| status := 400; response_body := json_failure "wrong room instance" |}, (w', [])) /\
  delivered 0 (snd (snd (onRequest (Ex.trigger (Some "Bearer s3cret") "r2" Ex.m1 None) w')))
    = [payload_broadcast Ex.m1 JNull].
Proof. vm_compute. repeat split. Qed.
(** ** A second admission on an authenticated connection *)

(** No handler clears [authed]: once set it stays set, through every event. *)
Lemma authed_update (s s' : nat) (f : Conn -> Conn) (w : World) :
  (forall k, authed k = true -> authed (f k) = true) ->
  conn_authed s' w = true -> conn_authed s' (update_conn s f w) = true.
Proof.
  intros Hf. unfold conn_authed. rewrite lookup_update_conn.
  destruct (conns w !! s') as [k|]; [|now destruct (Nat.eqb s' s)].
  destruct (Nat.eqb s' s); simpl; auto.
Qed.

Lemma authed_cancel_auth (id : string) (s' : nat) (w : World) :
  conn_authed s' (fst (cancel_authTimer id w)) = conn_authed s' w.
Proof. apply conn_authed_conns, conns_cancel_auth. Qed.

Lemma authed_cancel_ping (id : string) (s' : nat) (w : World) :
  conn_authed s' (fst (cancel_pingTimer id w)) = conn_authed s' w.
Proof. apply conn_authed_conns, conns_cancel_ping. Qed.

Lemma authed_arm_ping (s : nat) (id : string) (s' : nat) (w : World) :
  conn_authed s' (fst (arm_pingTimer s id w)) = conn_authed s' w.
Proof. now apply conn_authed_conns. Qed.

Lemma authed_set_roomId (r : option string) (s' : nat) (w : World) :
  conn_authed s' (set_roomId r w) = conn_authed s' w.
Proof. now apply conn_authed_conns. Qed.

Lemma authed_delete_auth (id : string) (s' : nat) (w : World) :
  conn_authed s' (set_authTimers (delete id (authTimers (hub w))) w) = conn_authed s' w.
Proof. now apply conn_authed_conns. Qed.

Lemma authed_delete_ping (id : string) (s' : nat) (w : World) :
  conn_authed s' (set_pingTimers (delete id (pingTimers (hub w))) w) = conn_authed s' w.
Proof. now apply conn_authed_conns. Qed.

Lemma authed_clearTimeout (h : nat) (s' : nat) (w : World) :
  conn_authed s' (clearTimeout h w) = conn_authed s' w.
Proof. now apply conn_authed_conns. Qed.

Lemma authed_close (s s' : nat) (code : Z) (reason : string) (w : World) :
  conn_authed s' w = true -> conn_authed s' (fst (close s code reason w)) = true.
Proof. intros H. unfold close. cbn [fst]. now apply authed_update. Qed.

Lemma authed_onMessage_begin (s : nat) (id : string) (s' : nat) (raw : WSParsed) (w : World)
    (r : World * list Output) :
  onMessage_begin s id raw w = Done r ->
  conn_authed s' w = true -> conn_authed s' (fst r) = true.
Proof.
  unfold onMessage_begin.
  repeat match goal with
         | |- context [match ?x with _ => _ end] => destruct x eqn:?
         end;
    intros E Ha; inversion E; subst; clear E; try exact Ha;
    rewrite ?andThen_fst, ?fst_send, ?fst_sendError;
    try (now apply authed_close).
  all: rewrite authed_arm_ping, authed_cancel_ping; exact Ha.
Qed.

Lemma authed_onMessage_resume (p : Pending) (res : AuthResult) (s' : nat) (w : World) :
  conn_authed s' w = true -> conn_authed s' (fst (onMessage_resume p res w)) = true.
Proof.
  intros Ha. destruct (success res) eqn:Hs.
  - rewrite resume_success by exact Hs. cbn [fst].
    rewrite authed_arm_ping, authed_cancel_auth.
    apply authed_update; [reflexivity|].
    now rewrite authed_set_roomId.
  - unfold onMessage_resume. cbv zeta. rewrite Hs. cbn [negb].
    rewrite andThen_fst, fst_sendError. now apply authed_close.
Qed.

Lemma authed_onRequest (r : Request) (s' : nat) (w : World) :
  conn_authed s' (fst (snd (onRequest r w))) = conn_authed s' w.
Proof.
  apply conn_authed_conns. unfold onRequest.
  repeat match goal with
         | |- context [match ?x with _ => _ end] => destruct x eqn:?
         end; reflexivity.
Qed.

Lemma authed_run_callback (cb : callback) (s' : nat) (w : World) :
  conn_authed s' w = true -> conn_authed s' (fst (run_callback cb w)) = true.
Proof.
  intros Ha. destruct cb as [s id|s id]; simpl.
  - unfold authTimeout_fires. rewrite andThen_fst.
    unfold modify at 1. cbn [fst]. rewrite authed_delete_auth.
    destruct (negb (conn_authed s w)); [|exact Ha].
    rewrite andThen_fst, fst_sendError. now apply authed_close.
  - unfold pingTimeout_fires. destruct (negb (conn_authed s w)); [exact Ha|].
    rewrite !andThen_fst, fst_sendError. unfold modify. cbn [fst].
    rewrite authed_delete_ping. now apply authed_close.
Qed.

Lemma authed_register (s : nat) (id : string) (w : World) :
  conn_authed s w = true ->
  conn_authed s (set_conns (conns w ++ [fresh_conn id]) w) = true.
Proof.
  unfold conn_authed. cbn [conns set_conns].
  destruct (conns w !! s) as [k|] eqn:E; [|discriminate].
  rewrite lookup_app_l by (now apply lookup_lt_Some in E). now rewrite E.
Qed.

(** X11. Once authenticated, always authenticated. *)
Theorem authed_never_regresses (e : Event) (s : nat) (w : World) :
  conn_authed s w = true -> conn_authed s (fst (step e w)) = true.
Proof.
  intros Ha. destruct e as [id ci|s0|s0 raw|p reply|r|h|d]; cbn [step].
  - unfold onConnect. rewrite !andThen_fst.
    rewrite (conn_authed_conns s (set_conns (conns w ++ [fresh_conn id]) w)) by reflexivity.
    now apply authed_register.
  - destruct (conns w !! s0) as [k|]; [|exact Ha].
    unfold onClose. rewrite andThen_fst, authed_cancel_ping, authed_cancel_auth.
    now apply authed_update.
  - destruct (conns w !! s0) as [k|]; [|exact Ha].
    destruct (onMessage_begin s0 (conn_id k) raw w) as [r|p] eqn:E; [|exact Ha].
    eapply authed_onMessage_begin; eauto.
  - destruct (conns w !! p_conn p) as [k|]; [|exact Ha].
    destruct (String.eqb (conn_id k) (p_id p)); [|exact Ha].
    now apply authed_onMessage_resume.
  - now rewrite authed_onRequest.
  - destruct (find_timer h w) as [t|]; [|exact Ha].
    destruct (t_due t <=? now w); [|exact Ha].
    apply authed_run_callback. now rewrite authed_clearTimeout.
  - exact Ha.
Qed.

(** The ping path rearms the idle timer by cancel-then-arm: after one
    admission and a ping there is one idle timer for A. *)
Example ping_rearms_once :
  ping_timers_of 0
    (fst (run [ETick 5000; EMessage 0 (Ex.ping (Some 7))]
              (fst (run [EMessage 0 (Ex.auth (Some "good") (Some "r1") None);
                         EAuthReply (Ex.pending 0 "A" "r1" "good" None)
                                    (Responded 200 (JsonValue None))]
                        Ex.w_one))))
  = [{| t_handle := 3; t_due := 35000; t_cb := PingTimeout 0 "A" |}].
Proof. vm_compute. reflexivity. Qed.

(** C3, at the failing input.  A authenticates at time 0 and again at 20 s.
    The second admission arms a new idle timer (handle 3, due at 50 s) and
    stores it over handle 2 without disarming timer 2, so two idle timers
    are armed for A.  A is still authenticated.  A pings at 29 s, which
    rearms the timer the hub knows (3 becomes 4, due at 59 s); at 30 s the
    forgotten timer 2 fires and the hub closes A for idleness all the same,
    one second after its ping. *)
Theorem reauth_double_arms :
  ping_timers_of 0 Ex.w_reauth
    = [{| t_handle := 2; t_due := 30000; t_cb := PingTimeout 0 "A" |};
       {| t_handle := 3; t_due := 50000; t_cb := PingTimeout 0 "A" |}] /\
  pingTimers (hub Ex.w_reauth) !! "A" = Some 3%nat /\
  conn_authed 0 Ex.w_reauth = true /\
  let '(w', outs) :=
    run [ETick 9000; EMessage 0 (Ex.ping (Some 7)); ETick 1000; EFire 2] Ex.w_reauth in
  now w' = 30000 /\
  outs = [Send 0 (payload_pong 7);
          Send 0 (payload_error "ping_timeout" "ping timeout - connection will be closed");
          Close 0 CLOSE_NORMAL "ping timeout"] /\
  (conn_open <$> conns w' !! 0%nat) = Some false.
Proof. vm_compute. repeat split. Qed.

(** ** How deadlines are represented *)

(** The same connection opened at time 0 and at time 5000: the admission
    deadlines differ (10000 and 15000, in the host's timer table) and the
    hub's own state is the same in both worlds, so no reading of the hub's
    state gives the deadline back. *)
Lemma deadline_not_in_hub_state :
  let at_time (d : N) := fst (step (EConnect "A" (Ex.at_room "r1")) (advance d (init Ex.e0))) in
  hub (at_time 0%N) = hub (at_time 5000%N) /\
  map t_due (timers (at_time 0%N)) = [10000] /\
  map t_due (timers (at_time 5000%N)) = [15000] /\
  authTimers (hub (at_time 5000%N)) !! "A" = Some 1%nat /\
  ~ (exists f : Hub -> string -> option Z,
       forall d, f (hub (at_time d)) "A" = Some (Z.of_N d + AUTH_TIMEOUT_MS)).
Proof.
  cbv zeta. split; [vm_compute; reflexivity|]. split; [vm_compute; reflexivity|].
  split; [vm_compute; reflexivity|]. split; [vm_compute; reflexivity|].
  intros [f Hf]. pose proof (Hf 0%N) as H0. pose proof (Hf 5000%N) as H5.
  change (hub (fst (step (EConnect "A" (Ex.at_room "r1")) (advance 5000 (init Ex.e0)))))
    with (hub (fst (step (EConnect "A" (Ex.at_room "r1")) (advance 0 (init Ex.e0))))) in H5.
  rewrite H0 in H5. discriminate.
Qed.

(** C2, amended. Both deadlines are one-shot timers of the host, armed with
    a fixed delay counted from the instant of arming (10 s for admission,
    30 s for idleness); the hub keeps the handle the host returned, in
    [authTimers] or [pingTimers], and nothing else: its state after arming
    is the same at whatever time the arming happens. *)
Theorem deadlines_are_host_timers (s : nat) (id : string) (ci : ConnInfo) (w : World) (d : N) :
  let w1 := fst (onConnect s id ci w) in
  let w2 := fst (arm_pingTimer s id w) in
  authTimers (hub w1) !! id = Some (next_handle w) /\
  timers w1 = timers w ++ [{| t_handle := next_handle w; t_due := now w + AUTH_TIMEOUT_MS;
                              t_cb := AuthTimeout s id |}] /\
  hub (fst (onConnect s id ci (advance d w))) = hub w1 /\
  pingTimers (hub w2) !! id = Some (next_handle w) /\
  timers w2 = timers w ++ [{| t_handle := next_handle w; t_due := now w + PING_TIMEOUT_MS;
                              t_cb := PingTimeout s id |}] /\
  hub (fst (arm_pingTimer s id (advance d w))) = hub w2.
Proof.
  cbv zeta. unfold onConnect. rewrite !andThen_fst.
  unfold arm_pingTimer, modify, send, setTimeout. cbn [fst].
  repeat split; try apply lookup_insert_eq.
Qed.
(** ** The admission deadline *)

Lemma is_timeout_notice_spec (p : json) :
  is_timeout_notice p = true -> p = timeout_notice.
Proof.
  unfold is_timeout_notice.
  destruct p as [| | | |?|o]; try discriminate.
  destruct o as [|[k1 [| | |v1| |]] [|[k2 [| | |v2| |]] [|[k3 [| | |v3| |]] [|? ?]]]];
    try discriminate.
  intros H. repeat (apply andb_true_iff in H as [H ?]).
  repeat match goal with
         | E : String.eqb _ _ = true |- _ => apply String.eqb_eq in E
         end.
  subst. reflexivity.
Qed.

Lemma broadcast_not_notice (m before : json) :
  is_timeout_notice (payload_broadcast m before) = false.
Proof.
  destruct (is_timeout_notice (payload_broadcast m before)) eqn:E; [|reflexivity].
  apply is_timeout_notice_spec in E. unfold payload_broadcast, timeout_notice, payload_error in E.
  inversion E as [E'].
  pose proof (obj_get_set_same "before" before (spread m)) as G.
  rewrite E' in G. discriminate.
Qed.

Lemma typing_not_notice (u : string) (b : bool) (room : option string) (t : Z) (before : json) :
  is_timeout_notice (payload_typing u b room t before) = false.
Proof. destruct room; reflexivity. Qed.

Lemma conn_authed_update_other (s s' : nat) (f : Conn -> Conn) (w : World) :
  s' <> s -> conn_authed s (update_conn s' f w) = conn_authed s w.
Proof.
  intros Hne. unfold conn_authed. rewrite lookup_update_conn.
  assert (Nat.eqb s s' = false) as -> by (apply Nat.eqb_neq; congruence).
  reflexivity.
Qed.

Section Admission.

Variables (s : nat) (id : string) (h : nat) (due : Z).

(** Moving the waiting state to a world that differs in ways that do not
    touch [s] or the handle [h]. *)
Lemma waiting_transfer (w w' : World) :
  conn_key s w' = conn_key s w ->
  conn_authed s w' = conn_authed s w ->
  (next_handle w <= next_handle w')%nat ->
  (forall t, In t (timers w') ->
             In t (timers w) \/ (cb_conn (t_cb t) <> s /\ t_handle t <> h)) ->
  (forall i, authTimers (hub w') !! i = Some h -> authTimers (hub w) !! i = Some h) ->
  (forall i, pingTimers (hub w') !! i = Some h -> pingTimers (hub w) !! i = Some h) ->
  (forall s', conn_key s' w' = Some id -> authTimers (hub w') !! id = Some h ->
              conn_key s' w = Some id) ->
  waiting s id h due w -> waiting s id h due w'.
Proof.
  intros Hr Ha Hn Ht Hae Hpe Hal [W1 W2 W3 W4 W5 W6 W7]. constructor.
  - now rewrite Hr.
  - now rewrite Ha.
  - lia.
  - intros t Hin Hor. destruct (Ht t Hin) as [Hold|[N1 N2]]; [now apply W4 | tauto].
  - intros i E. apply W5, Hae, E.
  - intros i E. apply (W6 i), Hpe, E.
  - intros E s' Hs'. apply W7; [now apply Hae | now apply Hal].
Qed.

(** The same when the connection objects keep their ids. *)
Lemma waiting_transfer_keys (w w' : World) :
  (forall s', conn_key s' w' = conn_key s' w) ->
  conn_authed s w' = conn_authed s w ->
  (next_handle w <= next_handle w')%nat ->
  (forall t, In t (timers w') ->
             In t (timers w) \/ (cb_conn (t_cb t) <> s /\ t_handle t <> h)) ->
  (forall i, authTimers (hub w') !! i = Some h -> authTimers (hub w) !! i = Some h) ->
  (forall i, pingTimers (hub w') !! i = Some h -> pingTimers (hub w) !! i = Some h) ->
  waiting s id h due w -> waiting s id h due w'.
Proof.
  intros Hk Ha Hn Ht Hae Hpe. apply waiting_transfer; auto.
  intros s' E _. now rewrite <- Hk.
Qed.

Lemma unharmed_andThen (a b : Action) (w : World) :
  unharmed s id h due a w -> unharmed s id h due b (fst (a w)) ->
  unharmed s id h due (a >>> b) w.
Proof.
  intros (W1 & I1 & O1) (W2 & I2 & O2). unfold unharmed.
  rewrite andThen_fst, andThen_snd, List.filter_app, O1, O2.
  split; [exact W2|]. split; [now rewrite I2, I1 | reflexivity].
Qed.

Lemma harmless_andThen (a b : Action) :
  harmless s id h due a -> harmless s id h due b -> harmless s id h due (a >>> b).
Proof.
  intros Ha Hb w Hw. apply unharmed_andThen; [now apply Ha|].
  apply Hb. now destruct (Ha w Hw).
Qed.

Lemma harmless_skip : harmless s id h due (fun w => (w, [])).
Proof. intros w Hw. split; [exact Hw|]. split; reflexivity. Qed.

Lemma harmless_send (s' : nat) (p : json) :
  s' <> s \/ is_timeout_notice p = false -> harmless s id h due (send s' p).
Proof.
  intros Hor w Hw. unfold unharmed, send. cbn [fst snd]. split; [exact Hw|]. split; [reflexivity|].
  cbn [List.filter concerns].
  destruct Hor as [Hne| ->].
  - apply Nat.eqb_neq in Hne. now rewrite Hne.
  - now rewrite andb_false_r.
Qed.

Lemma harmless_sendError_other (s' : nat) (code message : string) :
  s' <> s -> harmless s id h due (sendError s' code message).
Proof. intros Hne. apply harmless_send. now left. Qed.

Lemma harmless_update_conn (s' : nat) (f : Conn -> Conn) :
  (forall k, conn_id (f k) = conn_id k) -> s' <> s ->
  harmless s id h due (modify (update_conn s' f)).
Proof.
  intros Hf Hne w Hw. unfold unharmed, modify. cbn [fst snd].
  split; [|split; reflexivity].
  apply (waiting_transfer_keys w); auto.
  - intros s''. now apply conn_key_update.
  - now apply conn_authed_update_other.
Qed.

Lemma harmless_close (s' : nat) (code : Z) (reason : string) :
  s' <> s -> harmless s id h due (close s' code reason).
Proof.
  intros Hne w Hw. unfold unharmed, close. cbn [fst snd].
  destruct (harmless_update_conn s' mark_closed (fun _ => eq_refl) Hne w Hw) as (W & I & _).
  split; [exact W|]. split; [exact I|].
  cbn [List.filter concerns]. apply Nat.eqb_neq in Hne. now rewrite Hne.
Qed.

(** Changes of the hub or the clock that leave timers and maps alone. *)
Lemma harmless_modify (f : World -> World) :
  (forall w, conns (f w) = conns w /\ timers (f w) = timers w /\
             next_handle (f w) = next_handle w /\
             authTimers (hub (f w)) = authTimers (hub w) /\
             pingTimers (hub (f w)) = pingTimers (hub w)) ->
  harmless s id h due (modify f).
Proof.
  intros Hf w Hw. destruct (Hf w) as (E1 & E2 & E3 & E4 & E5).
  unfold unharmed, modify. cbn [fst snd]. split; [|split; [now rewrite E2 | reflexivity]].
  apply (waiting_transfer_keys w); auto.
  - intros s'. now apply conn_key_conns.
  - now apply conn_authed_conns.
  - lia.
  - intros t Hin. left. now rewrite <- E2.
  - intros i. now rewrite E4.
  - intros i. now rewrite E5.
Qed.

Lemma harmless_clearTimeout (h' : nat) :
  h' <> h -> harmless s id h due (modify (clearTimeout h')).
Proof.
  intros Hne w Hw. unfold unharmed, modify. cbn [fst snd].
  split; [|split; [|reflexivity]].
  - apply (waiting_transfer_keys w); auto.
    intros t Hin. left. now apply in_clearTimeout in Hin as [Hin _].
  - rewrite in_clearTimeout. cbn [admission_timer t_handle]. intuition congruence.
Qed.

Lemma harmless_delete_auth (i : string) :
  harmless s id h due (modify (fun w => set_authTimers (delete i (authTimers (hub w))) w)).
Proof.
  intros w Hw. unfold unharmed, modify. cbn [fst snd]. split; [|split; reflexivity].
  apply (waiting_transfer_keys w); auto.
  cbn. intros i' E. now apply lookup_delete_Some in E as [_ E].
Qed.

Lemma harmless_delete_ping (i : string) :
  harmless s id h due (modify (fun w => set_pingTimers (delete i (pingTimers (hub w))) w)).
Proof.
  intros w Hw. unfold unharmed, modify. cbn [fst snd]. split; [|split; reflexivity].
  apply (waiting_transfer_keys w); auto.
  cbn. intros i' E. now apply lookup_delete_Some in E as [_ E].
Qed.

(** The handle stored for the id of another socket is not [h]: either the
    id differs, or the id is shared and then it is not [h] that is stored. *)
Lemma other_entry (s' : nat) (i : string) (w : World) :
  waiting s id h due w -> s' <> s -> conn_key s' w = Some i ->
  authTimers (hub w) !! i <> Some h.
Proof.
  intros Hw Hne Hk E.
  pose proof (waiting_auth_entry s id h due w Hw i E) as ->.
  apply Hne. now apply (waiting_alone s id h due w Hw E).
Qed.

Lemma unharmed_cancel_auth (i : string) (w : World) :
  waiting s id h due w -> authTimers (hub w) !! i <> Some h ->
  unharmed s id h due (cancel_authTimer i) w.
Proof.
  intros Hw Hno. unfold cancel_authTimer.
  destruct (authTimers (hub w) !! i) as [h'|] eqn:E.
  - destruct (truthy_handle h') eqn:Etr.
    + assert (Hh : h' <> h) by congruence.
      pose proof (harmless_andThen _ _ (harmless_clearTimeout h' Hh) (harmless_delete_auth i) w Hw)
        as (W & I & O).
      unfold unharmed, modify in *. cbn [fst snd]. rewrite E, Etr.
      rewrite andThen_fst in W, I. cbn [fst snd] in W, I.
      split; [exact W|]. split; [exact I|reflexivity].
    + unfold unharmed, modify. cbn [fst snd]. rewrite E, Etr. split; [exact Hw|split;reflexivity].
  - unfold unharmed, modify. cbn [fst snd]. rewrite E. split; [exact Hw|split;reflexivity].
Qed.

Lemma harmless_cancel_ping (i : string) : harmless s id h due (cancel_pingTimer i).
Proof.
  intros w Hw. unfold cancel_pingTimer.
  destruct (pingTimers (hub w) !! i) as [h'|] eqn:E.
  - destruct (truthy_handle h') eqn:Etr.
    + assert (Hh : h' <> h).
      { intros ->. apply (waiting_ping_entry s id h due w Hw i E). }
      pose proof (harmless_andThen _ _ (harmless_clearTimeout h' Hh) (harmless_delete_ping i) w Hw)
        as (W & I & O).
      unfold unharmed, modify in *. cbn [fst snd]. rewrite E, Etr.
      rewrite andThen_fst in W, I. cbn [fst snd] in W, I.
      split; [exact W|]. split; [exact I|reflexivity].
    + unfold unharmed, modify. cbn [fst snd]. rewrite E, Etr. split; [exact Hw|split;reflexivity].
  - unfold unharmed, modify. cbn [fst snd]. rewrite E. split; [exact Hw|split;reflexivity].
Qed.

Lemma harmless_arm_ping (s' : nat) (i : string) :
  s' <> s -> harmless s id h due (arm_pingTimer s' i).
Proof.
  intros Hne w Hw. pose proof (waiting_handle s id h due w Hw) as Hlt.
  unfold unharmed, arm_pingTimer, modify, setTimeout. cbn [fst snd].
  split; [|split; [|reflexivity]].
  - apply (waiting_transfer_keys w); auto; cbn.
    + lia.
    + intros t Hin. apply in_app_or in Hin as [Hin|[<-|[]]]; [now left|].
      right. cbn. split; [exact Hne | lia].
    + intros i' E. apply lookup_insert_Some in E as [[_ E]|[_ E]]; [exfalso; lia | exact E].
  - cbn. rewrite in_app_iff. split; [|tauto].
    intros [Hin|[E|[]]]; [exact Hin|]. inversion E; lia.
Qed.

Lemma filter_broadcast (msg : json) (without : option (list string)) (w : World) :
  is_timeout_notice msg = false ->
  List.filter (concerns s) (snd (broadcast msg without w)) = [].
Proof.
  intros Hn. unfold broadcast. cbn [snd].
  induction (recipients without w) as [|k l IH]; [reflexivity|].
  cbn [map List.filter concerns]. now rewrite Hn, andb_false_r.
Qed.

Lemma harmless_broadcast (msg : json) (without : option (list string)) :
  is_timeout_notice msg = false -> harmless s id h due (broadcast msg without).
Proof.
  intros Hn w Hw. split; [exact Hw|]. split; [reflexivity|].
  now apply filter_broadcast.
Qed.

Lemma harmless_send_dep (s' : nat) (p : World -> json) :
  s' <> s \/ (forall w, is_timeout_notice (p w) = false) ->
  harmless s id h due (fun w => send s' (p w) w).
Proof.
  intros Hor w Hw. apply (harmless_send s' (p w)); [|exact Hw].
  destruct Hor as [Hne|Hn]; [now left | right; apply Hn].
Qed.

(** Another socket opens, under whatever id: its admission timer is a new
    one, and if the id is the one of [s], it is the new handle that is
    stored for it from then on. *)
Lemma harmless_connect (i : string) (ci : ConnInfo) :
  harmless s id h due
    (fun w => onConnect (length (conns w)) i ci (set_conns (conns w ++ [fresh_conn i]) w)).
Proof.
  intros w Hw. pose proof (waiting_handle s id h due w Hw) as Hlt.
  pose proof (waiting_registered s id h due w Hw) as Hk.
  assert (Hs : (s < length (conns w))%nat).
  { apply conn_key_Some in Hk as (k & E & _). now apply lookup_lt_Some in E. }
  unfold unharmed, onConnect. rewrite !andThen_fst, !andThen_snd, !andThen_fst.
  unfold modify, send, setTimeout. cbn [fst snd app].
  split; [|split].
  - apply (waiting_transfer w); cbn.
    + unfold conn_key. cbn. now rewrite lookup_app_l by exact Hs.
    + unfold conn_authed. cbn. now rewrite lookup_app_l by exact Hs.
    + lia.
    + intros t Hin. apply in_app_or in Hin as [Hin|[<-|[]]]; [now left|].
      right. cbn. lia.
    + intros i' E. apply lookup_insert_Some in E as [[_ E]|[_ E]]; [exfalso; lia | exact E].
    + auto.
    + intros s' Hs' E. apply lookup_insert_Some in E as [[_ E]|[Hne E]]; [exfalso; lia|].
      unfold conn_key in Hs' |- *. cbn in Hs'.
      destruct (decide (s' < length (conns w))%nat) as [Hl|Hl].
      * now rewrite lookup_app_l in Hs' by exact Hl.
      * rewrite lookup_app_r in Hs' by lia.
        destruct (s' - length (conns w))%nat; cbn in Hs'; [congruence | discriminate].
    + exact Hw.
  - cbn. rewrite in_app_iff. split; [|tauto].
    intros [Hin|[E|[]]]; [exact Hin|]. inversion E; lia.
  - cbn [List.filter concerns]. change (is_timeout_notice payload_info) with false.
    now rewrite andb_false_r.
Qed.

Lemma unharmed_onClose (s' : nat) (i : string) (w : World) :
  waiting s id h due w -> s' <> s -> conn_key s' w = Some i ->
  unharmed s id h due (modify (update_conn s' mark_closed) >>> onClose i) w.
Proof.
  intros Hw Hne Hk. unfold onClose.
  pose proof (harmless_update_conn s' mark_closed (fun _ => eq_refl) Hne w Hw) as U.
  apply unharmed_andThen; [exact U|].
  destruct U as (W1 & _ & _). cbn [modify fst] in *.
  assert (Hk1 : conn_key s' (update_conn s' mark_closed w) = Some i).
  { now rewrite conn_key_update by reflexivity. }
  pose proof (unharmed_cancel_auth i _ W1 (other_entry s' i _ W1 Hne Hk1)) as C.
  apply unharmed_andThen; [exact C|].
  apply harmless_cancel_ping. now destruct C.
Qed.

Lemma unharmed_resume (p : Pending) (res : AuthResult) (w : World) :
  waiting s id h due w -> p_conn p <> s -> conn_key (p_conn p) w = Some (p_id p) ->
  unharmed s id h due (onMessage_resume p res) w.
Proof.
  intros Hw Hne Hk. unfold onMessage_resume. cbv zeta.
  destruct (negb (success res)).
  - apply harmless_andThen; [now apply harmless_sendError_other | now apply harmless_close | exact Hw].
  - assert (U : unharmed s id h due
                  (modify (set_roomId (Some (p_roomId p))) >>>
                   modify (update_conn (p_conn p)
                             (mark_authed (or_str (result_userId res) (p_hint p))))) w).
    { apply harmless_andThen; [| now apply harmless_update_conn | exact Hw].
      apply harmless_modify. intros w0. repeat split. }
    apply unharmed_andThen; [apply unharmed_andThen; [apply unharmed_andThen; [exact U|]|]|].
    + destruct U as (W1 & _ & _). apply unharmed_cancel_auth; [exact W1|].
      apply (other_entry (p_conn p)); [exact W1 | exact Hne |].
      rewrite andThen_fst. unfold modify. cbn [fst].
      rewrite conn_key_update by reflexivity. exact Hk.
    + apply harmless_arm_ping; [exact Hne|].
      match goal with
      | |- waiting _ _ _ _ (fst ((?a >>> ?b) w)) =>
          assert (X : unharmed s id h due (a >>> b) w); [|now destruct X]
      end.
      apply unharmed_andThen; [exact U|].
      destruct U as (W1 & _ & _). apply unharmed_cancel_auth; [exact W1|].
      apply (other_entry (p_conn p)); [exact W1 | exact Hne |].
      rewrite andThen_fst. unfold modify. cbn [fst].
      rewrite conn_key_update by reflexivity. exact Hk.
    + apply harmless_send; [now left|].
      match goal with
      | |- waiting _ _ _ _ (fst ((?a >>> ?b >>> ?c) w)) =>
          assert (X : unharmed s id h due (a >>> b >>> c) w); [|now destruct X]
      end.
      assert (Y : unharmed s id h due
                    (modify (set_roomId (Some (p_roomId p))) >>>
                     modify (update_conn (p_conn p)
                               (mark_authed (or_str (result_userId res) (p_hint p)))) >>>
                     cancel_authTimer (p_id p)) w).
      { apply unharmed_andThen; [exact U|].
        destruct U as (W1 & _ & _). apply unharmed_cancel_auth; [exact W1|].
        apply (other_entry (p_conn p)); [exact W1 | exact Hne |].
        rewrite andThen_fst. unfold modify. cbn [fst].
        rewrite conn_key_update by reflexivity. exact Hk. }
      apply unharmed_andThen; [exact Y|].
      apply harmless_arm_ping; [exact Hne | now destruct Y].
Qed.

Lemma harmless_authTimeout (s' : nat) (i : string) :
  s' <> s -> harmless s id h due (authTimeout_fires s' i).
Proof.
  intros Hne. unfold authTimeout_fires. apply harmless_andThen.
  - intros w Hw. unfold unharmed. cbv beta. destruct (negb (conn_authed s' w)).
    + refine (harmless_andThen _ _ _ _ w Hw);
        [now apply harmless_sendError_other | now apply harmless_close].
    + now apply harmless_skip.
  - apply harmless_delete_auth.
Qed.

Lemma harmless_pingTimeout (s' : nat) (i : string) :
  s' <> s -> harmless s id h due (pingTimeout_fires s' i).
Proof.
  intros Hne w Hw. unfold unharmed, pingTimeout_fires. destruct (negb (conn_authed s' w)).
  - now apply harmless_skip.
  - refine (harmless_andThen _ _ (harmless_andThen _ _ _ _) _ w Hw);
      [now apply harmless_sendError_other | now apply harmless_close
      | apply harmless_delete_ping].
Qed.

(** A step that changes neither connections, timers nor the timer maps. *)
Lemma harmless_at (w w' : World) (outs : list Output) :
  conns w' = conns w -> timers w' = timers w -> next_handle w' = next_handle w ->
  authTimers (hub w') = authTimers (hub w) ->
  pingTimers (hub w') = pingTimers (hub w) ->
  List.filter (concerns s) outs = [] ->
  waiting s id h due w ->
  waiting s id h due w' /\
  (In (admission_timer s id h due) (timers w') <-> In (admission_timer s id h due) (timers w)) /\
  List.filter (concerns s) outs = [].
Proof.
  intros E1 E2 E3 E4 E5 Ho Hw. split; [|split; [now rewrite E2 | exact Ho]].
  apply (waiting_transfer_keys w); auto.
  - intros s'. now apply conn_key_conns.
  - now apply conn_authed_conns.
  - lia.
  - intros t Hin. left. now rewrite <- E2.
  - intros i. now rewrite E4.
  - intros i. now rewrite E5.
Qed.

Lemma harmless_onRequest (r : Request) :
  harmless s id h due (fun w => snd (onRequest r w)).
Proof.
  intros w Hw. unfold unharmed, onRequest.
  repeat match goal with
         | |- context [match ?x with _ => _ end] => destruct x eqn:?
         end; cbn [snd fst];
    (apply harmless_at;
     [reflexivity | reflexivity | reflexivity | reflexivity | reflexivity | | exact Hw]);
    try reflexivity; apply filter_broadcast, broadcast_not_notice.
Qed.

Lemma harmless_sendError_code (s' : nat) (code message : string) :
  is_timeout_notice (payload_error code message) = false ->
  harmless s id h due (sendError s' code message).
Proof. intros Hn. apply harmless_send. now right. Qed.

Lemma harmless_begin (s' : nat) (i : string) (raw : WSParsed) :
  s' <> s \/ is_auth_request raw = false ->
  harmless s id h due
    (fun w => match onMessage_begin s' i raw w with Done r => r | Await _ => (w, []) end).
Proof.
  intros Hor w Hw. unfold unharmed, onMessage_begin.
  destruct (decide (s' = s)) as [->|Hne].
  - destruct Hor as [Hne|Hna]; [congruence|].
    rewrite (waiting_unauthed s id h due w Hw). cbn [negb].
    unfold is_auth_request in Hna.
    destruct raw as [| |msg]; cbv beta iota.
    + (refine (harmless_sendError_code _ _ _ _ w Hw); reflexivity).
    + (refine (harmless_sendError_code _ _ _ _ w Hw); reflexivity).
    + destruct (m_type msg) as [ty|]; [|(refine (harmless_sendError_code _ _ _ _ w Hw); reflexivity)].
      rewrite Hna.
      destruct (String.eqb ty ""); (refine (harmless_sendError_code _ _ _ _ w Hw); reflexivity).
  - assert (Leaf : forall a : Action, harmless s id h due a -> unharmed s id h due a w).
    { intros a Ha. exact (Ha w Hw). }
    assert (Err : forall code message, harmless s id h due (sendError s' code message)).
    { intros code message. now apply harmless_sendError_other. }
    assert (ErrClose : forall code message reason,
              harmless s id h due (sendError s' code message >>> close s' CLOSE_UNAUTHORIZED reason)).
    { intros code message reason. apply harmless_andThen; [apply Err | now apply harmless_close]. }
    destruct raw as [| |msg]; cbv beta iota; [apply Leaf, Err | apply Leaf, Err |].
    destruct (m_type msg) as [ty|]; [|apply Leaf, Err].
    destruct (String.eqb ty ""); [apply Leaf, Err|].
    destruct (String.eqb ty "auth").
    + destruct (m_token msg) as [token|]; [|apply Leaf, Err].
      destruct (String.eqb token ""); [apply Leaf, Err|].
      destruct (or_str (m_roomId msg) (roomId (hub w))) as [rid|]; [|apply Leaf, ErrClose].
      destruct (String.eqb rid ""); [apply Leaf, ErrClose | now apply harmless_skip].
    + destruct (negb (conn_authed s' w)); [apply Leaf, Err|].
      destruct (String.eqb ty "ping").
      { apply Leaf. repeat apply harmless_andThen;
          [apply harmless_cancel_ping | now apply harmless_arm_ping
          | apply harmless_send_dep; now left]. }
      destruct (String.eqb ty "typing"); [|apply Leaf, Err].
      apply Leaf, harmless_broadcast, typing_not_notice.
Qed.

Lemma modify_andThen (f : World -> World) (a : Action) (w : World) :
  (modify f >>> a) w = a (f w).
Proof. unfold andThen, modify. now destruct (a (f w)). Qed.

Lemma quiet_cases (e : Event) :
  quiet s e = true ->
  match e with
  | EMessage s' raw => s' <> s \/ is_auth_request raw = false
  | EAuthReply p _ => p_conn p <> s
  | EClose s' => s' <> s
  | _ => True
  end.
Proof.
  destruct e as [i ci|s'|s' raw|p reply|r|h'|d]; cbn [quiet]; trivial.
  - intros H. apply negb_true_iff, Nat.eqb_neq in H. exact H.
  - intros H. apply negb_true_iff, andb_false_iff in H as [H|H]; [left|now right].
    now apply Nat.eqb_neq.
  - intros H. apply negb_true_iff, Nat.eqb_neq in H. exact H.
Qed.

(** One quiet event, other than the firing of the admission timer of [s]
    while it is armed, is harmless. *)
Lemma quiet_step (e : Event) :
  quiet s e = true ->
  forall w, waiting s id h due w ->
    is_fire h e = false \/ ~ In (admission_timer s id h due) (timers w) ->
    unharmed s id h due (step e) w.
Proof.
  intros Hq w Hw Hfire. apply quiet_cases in Hq.
  destruct e as [i ci|s'|s' raw|p reply|r|h'|d]; unfold unharmed; cbn [step].
  - now apply harmless_connect.
  - destruct (conns w !! s') as [k|] eqn:Hk; [|now apply harmless_skip].
    rewrite <- (modify_andThen (update_conn s' mark_closed)).
    apply unharmed_onClose; [exact Hw | exact Hq |]. unfold conn_key. now rewrite Hk.
  - destruct (conns w !! s') as [k|]; [|now apply harmless_skip].
    now apply (harmless_begin s' (conn_id k) raw Hq w Hw).
  - destruct (conns w !! p_conn p) as [k|] eqn:Hk; [|now apply harmless_skip].
    destruct (String.eqb (conn_id k) (p_id p)) eqn:Ek; [|now apply harmless_skip].
    apply String.eqb_eq in Ek.
    apply unharmed_resume; [exact Hw | exact Hq |]. unfold conn_key. now rewrite Hk, <- Ek.
  - now apply harmless_onRequest.
  - destruct (find_timer h' w) as [t|] eqn:F; [|now apply harmless_skip].
    destruct (t_due t <=? now w); [|now apply harmless_skip].
    apply find_timer_Some in F as [Hin Hh].
    assert (Hne : h' <> h).
    { intros ->. destruct Hfire as [Hf|Hf].
      - cbn in Hf. rewrite Nat.eqb_refl in Hf. discriminate.
      - apply Hf. rewrite <- (waiting_timer s id h due w Hw t Hin (or_intror Hh)). exact Hin. }
    assert (Hc : cb_conn (t_cb t) <> s).
    { intros E. pose proof (waiting_timer s id h due w Hw t Hin (or_introl E)) as ->.
      cbn in Hh. congruence. }
    rewrite <- (modify_andThen (clearTimeout h')).
    apply harmless_andThen; [now apply harmless_clearTimeout | | exact Hw].
    destruct (t_cb t) as [s'' i|s'' i]; cbn [run_callback cb_conn] in *;
      [now apply harmless_authTimeout | now apply harmless_pingTimeout].
  - apply (harmless_modify (advance d)); [intros w'; repeat split | exact Hw].
Qed.

Lemma quiet_run (es : list Event) :
  forallb (quiet s) es = true ->
  forall w, waiting s id h due w ->
    forallb (fun e => negb (is_fire h e)) es = true
      \/ ~ In (admission_timer s id h due) (timers w) ->
    unharmed s id h due (run es) w.
Proof.
  induction es as [|e es IH]; intros Hq w Hw Hfire; cbn [run].
  - now apply harmless_skip.
  - cbn [forallb] in Hq. apply andb_true_iff in Hq as [Hqe Hqs].
    assert (Hfe : is_fire h e = false \/ ~ In (admission_timer s id h due) (timers w)).
    { destruct Hfire as [Hf|Hf]; [left|now right].
      cbn [forallb] in Hf. apply andb_true_iff in Hf as [Hf _]. now apply negb_true_iff. }
    pose proof (quiet_step e Hqe w Hw Hfe) as U.
    apply unharmed_andThen; [exact U|].
    destruct U as (W1 & I1 & O1).
    apply IH; [exact Hqs | exact W1 |].
    destruct Hfire as [Hf|Hf]; [left|right].
    + cbn [forallb] in Hf. now apply andb_true_iff in Hf as [_ Hf].
    + now rewrite I1.
Qed.

(** The admission timer of [s] fires while [s] is waiting. *)
Lemma deadline_fires (w : World) :
  waiting s id h due w ->
  In (admission_timer s id h due) (timers w) ->
  due <= now w ->
  snd (step (EFire h) w)
    = [Send s timeout_notice; Close s CLOSE_UNAUTHORIZED "auth required"] /\
  waiting s id h due (fst (step (EFire h) w)) /\
  ~ In (admission_timer s id h due) (timers (fst (step (EFire h) w))).
Proof.
  intros Hw Hin Hdue. cbn [step].
  assert (F : find_timer h w = Some (admission_timer s id h due)).
  { destruct (find_timer h w) as [t|] eqn:F.
    - apply find_timer_Some in F as [Hin' Hh].
      now rewrite (waiting_timer s id h due w Hw t Hin' (or_intror Hh)).
    - unfold find_timer in F. pose proof (find_none _ _ F _ Hin) as N.
      cbn in N. rewrite Nat.eqb_refl in N. discriminate. }
  rewrite F. cbn [t_due t_cb admission_timer].
  apply Z.leb_le in Hdue. rewrite Hdue. cbn [run_callback].
  unfold authTimeout_fires.
  assert (Hu : conn_authed s (clearTimeout h w) = false).
  { rewrite authed_clearTimeout. apply (waiting_unauthed s id h due w Hw). }
  rewrite andThen_snd, andThen_fst, Hu. cbn [negb].
  rewrite andThen_snd, andThen_fst. unfold sendError, send, close, modify. cbn [fst snd app].
  split; [reflexivity|].
  assert (Hno : ~ In (admission_timer s id h due) (timers (clearTimeout h w))).
  { rewrite in_clearTimeout. cbn. tauto. }
  split; [|exact Hno].
  set (w1 := clearTimeout h w). set (w2 := update_conn s mark_closed w1).
  apply (waiting_transfer_keys w); auto.
  - intros s'. change (conn_key s' w2 = conn_key s' w). unfold w2.
    now rewrite conn_key_update by reflexivity.
  - change (conn_authed s w2 = conn_authed s w). unfold w2, conn_authed.
    rewrite lookup_update_conn, Nat.eqb_refl.
    change (conns w1) with (conns w).
    now destruct (conns w !! s) as [k|].
  - change (forall t, In t (timers w1) ->
              In t (timers w) \/ cb_conn (t_cb t) <> s /\ t_handle t <> h).
    intros t Ht. left. apply in_clearTimeout in Ht. tauto.
  - change (forall i, delete id (authTimers (hub w)) !! i = Some h ->
                      authTimers (hub w) !! i = Some h).
    intros i E. now apply lookup_delete_Some in E as [_ E].
Qed.

End Admission.

(** Opening a connection in a well-formed world, under an id that no
    connection of the hub carries, starts its wait: the hub greets it and
    arms its admission timer, under the next handle. *)
Lemma connect_starts (id : string) (ci : ConnInfo) (w : World) :
  wf w -> ~ In id (conn_ids w) ->
  snd (step (EConnect id ci) w) = [Send (length (conns w)) payload_info] /\
  waiting (length (conns w)) id (next_handle w) (now w + AUTH_TIMEOUT_MS)
          (fst (step (EConnect id ci) w)) /\
  In (admission_timer (length (conns w)) id (next_handle w) (now w + AUTH_TIMEOUT_MS))
     (timers (fst (step (EConnect id ci) w))).
Proof.
  intros Hw Hr. cbn [step]. unfold onConnect.
  rewrite !andThen_snd, !andThen_fst. unfold modify, send, setTimeout. cbn [fst snd app].
  split; [reflexivity|].
  split.
  - constructor.
    + unfold conn_key. cbn. rewrite lookup_app_r by lia. now rewrite Nat.sub_diag.
    + unfold conn_authed. cbn. rewrite lookup_app_r by lia. now rewrite Nat.sub_diag.
    + cbn. lia.
    + cbn. intros t Hin Hor. apply in_app_or in Hin as [Hin|[<-|[]]]; [exfalso|reflexivity].
      destruct Hor as [E|E].
      * pose proof (wf_registered w Hw t Hin) as R. rewrite E in R.
        apply conn_key_Some in R as (k & R & _). apply lookup_lt_Some in R. lia.
      * pose proof (wf_handles w Hw t Hin). lia.
    + cbn. intros i E. apply lookup_insert_Some in E as [[E _]|[_ E]]; [now symmetry|].
      pose proof (wf_auth_range w Hw i _ E). lia.
    + cbn. intros i E. pose proof (wf_ping_range w Hw i _ E). lia.
    + cbn. intros _ s' Hs'. unfold conn_key in Hs'. cbn in Hs'.
      destruct (decide (s' < length (conns w))%nat) as [Hl|Hl].
      * exfalso. apply Hr. rewrite lookup_app_l in Hs' by exact Hl.
        now apply (conn_key_In s').
      * rewrite lookup_app_r in Hs' by lia.
        destruct (s' - length (conns w))%nat eqn:D; cbn in Hs'; [lia | discriminate].
  - cbn. apply in_or_app. right. now left.
Qed.

Lemma run_app (es1 es2 : list Event) (w : World) :
  run (es1 ++ es2) w = (run es1 >>> run es2) w.
Proof.
  revert w. induction es1 as [|e es1 IH]; intros w; cbn [run app].
  - unfold andThen. now destruct (run es2 w).
  - apply injective_projections.
    + rewrite !andThen_fst, IH, andThen_fst. reflexivity.
    + rewrite !andThen_snd, !andThen_fst, IH, andThen_snd. apply app_assoc.
Qed.

(** X30. The admission deadline holds for a connection whose id is its own.
    A socket is opened in a well-formed world, under an id that no connection
    of the hub carries; it is the socket [s].  Through the events [before],
    [s] sends no admission request and is not closed from outside, and the
    host does not run its admission timer; by then the 10 s window has
    passed.  The host then runs the timer, and further such events [after]
    follow.  Whatever else happens meanwhile (other sockets open, under
    this id too, authenticate, leave, post), of all the calls the hub
    makes, those that are the timeout notice to [s] or a close of [s] are
    exactly two: the [unauthorized]/"auth timeout" error, then
    [close(4401)].  4401 is not the 1000 that the idle timeout closes
    with. *)
Theorem admission_deadline (id : string) (ci : ConnInfo) (before after : list Event)
    (w0 : World) :
  wf w0 -> ~ In id (conn_ids w0) ->
  forallb (quiet (length (conns w0))) before = true ->
  forallb (fun e => negb (is_fire (next_handle w0) e)) before = true ->
  forallb (quiet (length (conns w0))) after = true ->
  now w0 + AUTH_TIMEOUT_MS <= now (fst (run (EConnect id ci :: before) w0)) ->
  List.filter (concerns (length (conns w0)))
    (snd (run (EConnect id ci :: before ++ EFire (next_handle w0) :: after) w0))
    = [Send (length (conns w0)) timeout_notice;
       Close (length (conns w0)) CLOSE_UNAUTHORIZED "auth required"] /\
  CLOSE_UNAUTHORIZED = 4401 /\ CLOSE_NORMAL = 1000.
Proof.
  intros Hw Hr Hqb Hnf Hqa Hdue.
  split; [|split; reflexivity].
  destruct (connect_starts id ci w0 Hw Hr) as (O1 & W1 & I1).
  set (s := length (conns w0)) in *.
  set (h := next_handle w0) in *. set (due := now w0 + AUTH_TIMEOUT_MS) in *.
  cbn [run] in Hdue |- *. rewrite andThen_fst in Hdue.
  rewrite andThen_snd, O1.
  set (w1 := fst (step (EConnect id ci) w0)) in *.
  destruct (quiet_run s id h due before Hqb w1 W1 (or_introl Hnf)) as (W2 & I2 & O2).
  rewrite run_app, andThen_snd. cbn [run]. rewrite andThen_snd.
  set (w2 := fst (run before w1)) in *.
  assert (I2' : In (admission_timer s id h due) (timers w2)) by now apply I2.
  destruct (deadline_fires s id h due w2 W2 I2' Hdue) as (O3 & W3 & N3).
  destruct (quiet_run s id h due after Hqa _ W3 (or_intror N3)) as (_ & _ & O4).
  rewrite !List.filter_app, O2, O3, O4.
  cbn [List.filter concerns]. rewrite Nat.eqb_refl.
  change (is_timeout_notice payload_info) with false.
  change (is_timeout_notice timeout_notice) with true.
  reflexivity.
Qed.

Lemma admission_deadline_witness :
  List.filter (concerns 0)
    (snd (run (EConnect "A" (Ex.at_room "r1")
               :: Ex.while_waiting ++ EFire (next_handle (init Ex.e0)) :: Ex.afterwards)
              (init Ex.e0)))
    = [Send 0 timeout_notice; Close 0 CLOSE_UNAUTHORIZED "auth required"] /\
  CLOSE_UNAUTHORIZED = 4401 /\ CLOSE_NORMAL = 1000.
Proof.
  apply (admission_deadline "A" (Ex.at_room "r1") Ex.while_waiting Ex.afterwards (init Ex.e0));
    [apply wf_init | intros [] | reflexivity | reflexivity | reflexivity
    | apply Z.leb_le; vm_compute; reflexivity].
Defined.

(** The same run, call by call. *)
Example admission_deadline_run :
  snd (run (EConnect "A" (Ex.at_room "r1") :: Ex.while_waiting ++ EFire 1 :: Ex.afterwards)
           (init Ex.e0))
  = [Send 0 payload_info;
     Send 1 payload_info;
     Send 0 (payload_error "unauthorized" "auth first");
     Send 0 (payload_broadcast Ex.m1 JNull);
     Send 1 (payload_broadcast Ex.m1 JNull);
     Send 0 timeout_notice;
     Close 0 CLOSE_UNAUTHORIZED "auth required"].
Proof. vm_compute. reflexivity. Qed.

(** C7, at the failing input.  Two sockets are open under the id X; the
    second (socket 1) never sends an admission request.  The first
    authenticates: the hub looks its admission timer up under the id, finds
    the handle it stored last, which is the timer of socket 1, and disarms
    that one.  When the ten seconds are over the host has one timer left to
    run, the one of socket 0, which does nothing since socket 0 is
    authenticated; asking for the timer of socket 1 does nothing either.
    So socket 1 gets no timeout notice and is never closed: nothing but the
    greeting is ever said to it until, ten minutes later, it is delivered
    the message the backend posts, still open and still unauthenticated,
    with no admission timer left to end it. *)
Theorem shared_id_escapes_deadline :
  let '(w', outs) := run Ex.shared_id (init Ex.e0) in
  forallb (quiet 1) Ex.shared_id = true /\
  now w' = 610000 /\
  List.filter (concerns 1) outs = [] /\
  delivered 1 outs = [payload_info; payload_broadcast Ex.m1 JNull] /\
  conns w' !! 1%nat = Some {| conn_id := "X"; authed := false; userId := None;
                              conn_open := true |} /\
  timers Ex.w_shared
    = [{| t_handle := 1; t_due := 10000; t_cb := AuthTimeout 0 "X" |};
       {| t_handle := 2; t_due := 10000; t_cb := AuthTimeout 1 "X" |}] /\
  timers (fst (run [EMessage 0 (Ex.auth (Some "good") (Some "r1") None);
                    EAuthReply (Ex.pending 0 "X" "r1" "good" None) (Ex.ok "u1")]
                   Ex.w_shared))
    = [{| t_handle := 1; t_due := 10000; t_cb := AuthTimeout 0 "X" |};
       {| t_handle := 3; t_due := 30000; t_cb := PingTimeout 0 "X" |}] /\
  auth_timers_of 1 w' = [] /\
  authTimers (hub w') !! "X" = None.
Proof. vm_compute. repeat split. Qed.

(** X31. Why a shared id defeats the deadline.  A successful admission
    disarms the admission timer whose handle the hub holds under the
    connection's id, whichever socket that timer was armed for: when it is
    the timer of another socket [s'] of the same id, that timer is gone
    after the admission, nothing is said to [s'] and its connection object
    is untouched; every timer with another handle, such as the admission
    timer of the admitted socket itself, stays armed. *)
Theorem admission_disarms_mapped_timer (p : Pending) (res : AuthResult) (t : Timer)
    (s' : nat) (w : World) :
  success res = true ->
  In t (timers w) ->
  t_cb t = AuthTimeout s' (p_id p) ->
  authTimers (hub w) !! p_id p = Some (t_handle t) ->
  (0 < t_handle t)%nat ->
  s' <> p_conn p ->
  let '(w', outs) := onMessage_resume p res w in
  ~ In t (timers w') /\
  outs = [Send (p_conn p) payload_auth_ok] /\
  conns w' !! s' = conns w !! s' /\
  (forall t0, In t0 (timers w) -> t_handle t0 <> t_handle t -> In t0 (timers w')).
Proof.
  intros Hs Hin Hcb Hmap Hpos Hne. rewrite resume_success by exact Hs.
  set (w3 := update_conn (p_conn p) (mark_authed (or_str (result_userId res) (p_hint p)))
               (set_roomId (Some (p_roomId p)) w)).
  assert (C : fst (cancel_authTimer (p_id p) w3)
              = set_authTimers (delete (p_id p) (authTimers (hub w3)))
                  (clearTimeout (t_handle t) w3)).
  { unfold cancel_authTimer, modify. cbn [fst].
    change (authTimers (hub w3)) with (authTimers (hub w)).
    rewrite Hmap, (truthy_handle_pos _ Hpos). reflexivity. }
  rewrite C. unfold arm_pingTimer, modify, setTimeout. cbn [fst timers conns set_pingTimers set_hub].
  cbn [timers conns set_authTimers set_hub clearTimeout set_timers].
  change (timers w3) with (timers w).
  split; [|split; [reflexivity|split]].
  - intros H. apply in_app_or in H as [H|[H|[]]].
    + apply filter_In in H as [_ H]. rewrite Nat.eqb_refl in H. discriminate.
    + rewrite <- H in Hcb. discriminate.
  - unfold w3. rewrite lookup_update_conn.
    assert (Nat.eqb s' (p_conn p) = false) as -> by now apply Nat.eqb_neq.
    reflexivity.
  - intros t0 Hin0 Hh. apply in_or_app. left. apply filter_In. split; [exact Hin0|].
    apply negb_true_iff. now apply Nat.eqb_neq.
Qed.

Lemma admission_disarms_mapped_timer_witness :
  (In {| t_handle := 2; t_due := 10000; t_cb := AuthTimeout 1 "X" |} (timers Ex.w_shared) /\
   authTimers (hub Ex.w_shared) !! "X" = Some 2%nat) /\
  let '(w', outs) :=
    onMessage_resume (Ex.pending 0 "X" "r1" "good" None)
                     (checkParticipant_result (Ex.ok "u1")) Ex.w_shared in
  ~ In {| t_handle := 2; t_due := 10000; t_cb := AuthTimeout 1 "X" |} (timers w') /\
  outs = [Send 0 payload_auth_ok] /\
  conns w' !! 1%nat = conns Ex.w_shared !! 1%nat /\
  (forall t0, In t0 (timers Ex.w_shared) -> t_handle t0 <> 2%nat -> In t0 (timers w')).
Proof.
  split; [split; [right; left; reflexivity | reflexivity]|].
  apply (admission_disarms_mapped_timer
           (Ex.pending 0 "X" "r1" "good" None) (checkParticipant_result (Ex.ok "u1"))
           {| t_handle := 2; t_due := 10000; t_cb := AuthTimeout 1 "X" |} 1 Ex.w_shared);
    [reflexivity | right; left; reflexivity | reflexivity | reflexivity | cbn; lia
    | discriminate].
Defined.

(** The same through [onClose]: when the first of the two sockets leaves,
    it is the timer of the second that is disarmed; the timer of the first
    fires on the socket that is gone, and the second is never closed. *)
Example shared_id_close_escapes :
  let '(w', outs) :=
    run (Ex.shared_connects ++ [EClose 0; ETick 10000; EFire 1; EFire 2]) (init Ex.e0) in
  List.filter (concerns 1) outs = [] /\
  List.filter (concerns 0) outs
    = [Send 0 timeout_notice; Close 0 CLOSE_UNAUTHORIZED "auth required"] /\
  (conn_open <$> conns w' !! 1%nat) = Some true /\
  conn_authed 1 w' = false /\
  timers w' = [].
Proof. vm_compute. repeat split. Qed.

(** * Further properties of the code *)

(** ** Paths and room identifiers *)

Lemma substring_all (s : string) : String.substring 0 (String.length s) s = s.
Proof. induction s as [|a s IH]; cbn; [reflexivity | now rewrite IH]. Qed.

Lemma append_cons (a : ascii) (s t : string) :
  String.append (String a s) t = String a (String.append s t).
Proof. reflexivity. Qed.

Lemma append_nil (t : string) : String.append "" t = t.
Proof. reflexivity. Qed.

Lemma prefix_split (pre p : string) :
  String.prefix pre p = true ->
  p = String.append pre
        (String.substring (String.length pre) (String.length p - String.length pre) p).
Proof.
  revert p. induction pre as [|a pre IH]; intros p H.
  - rewrite append_nil. cbn. rewrite Nat.sub_0_r. symmetry. apply substring_all.
  - destruct p as [|b p]; cbn in H; [discriminate|].
    destruct (ascii_dec a b) as [->|]; [|discriminate].
    rewrite append_cons. cbn. f_equal. now apply IH.
Qed.

Lemma prefix_append (pre r : string) : String.prefix pre (String.append pre r) = true.
Proof.
  induction pre as [|a pre IH]; [rewrite append_nil; now destruct r|].
  rewrite append_cons. cbn. destruct (ascii_dec a a); [exact IH | congruence].
Qed.

Lemma substring_append (pre r : string) :
  String.substring (String.length pre)
    (String.length (String.append pre r) - String.length pre) (String.append pre r) = r.
Proof.
  induction pre as [|a pre IH].
  - rewrite append_nil. cbn. rewrite Nat.sub_0_r. apply substring_all.
  - rewrite append_cons. cbn. exact IH.
Qed.

Lemma matches_segment_spec (pre p : string) :
  matches_segment pre p = true <->
  exists r, p = String.append pre r /\ r <> "" /\ no_slash r = true.
Proof.
  unfold matches_segment. split.
  - intros H. apply andb_true_iff in H as [Hp H]. cbv zeta in H.
    apply andb_true_iff in H as [Hne Hns].
    exists (String.substring (String.length pre) (String.length p - String.length pre) p).
    split; [now apply prefix_split|]. split; [|exact Hns].
    apply negb_true_iff in Hne. now apply String.eqb_neq.
  - intros (r & -> & Hne & Hns). rewrite prefix_append. cbv zeta.
    rewrite substring_append, Hns. apply String.eqb_neq in Hne. now rewrite Hne.
Qed.

Lemma match_room_path_segment (r : string) :
  r <> "" -> no_slash r = true -> match_room_path (String.append "/rooms/" r) = Some r.
Proof.
  intros Hne Hns. unfold match_room_path. rewrite prefix_append. cbv zeta.
  change 7%nat with (String.length "/rooms/").
  rewrite substring_append, Hns. apply String.eqb_neq in Hne. now rewrite Hne.
Qed.

(** X1. The regular expression of [extractRoomId].  [match_room_path] gives
    [r] exactly for the paths [/rooms/r] with [r] non-empty and free of
    slashes; every other path (no such prefix, nothing after it, a further
    segment) gives no match. *)
Theorem match_room_path_spec (p r : string) :
  match_room_path p = Some r <->
  p = String.append "/rooms/" r /\ r <> "" /\ no_slash r = true.
Proof.
  unfold match_room_path. split.
  - destruct (String.prefix "/rooms/" p) eqn:Hp; [|discriminate]. cbv zeta.
    destruct (negb (String.eqb _ "") && no_slash _) eqn:H; [|discriminate].
    intros E. injection E as <-.
    apply andb_true_iff in H as [Hne Hns].
    split; [exact (prefix_split "/rooms/" p Hp)|]. split; [|exact Hns].
    apply negb_true_iff in Hne. now apply String.eqb_neq.
  - intros (-> & Hne & Hns). now apply match_room_path_segment.
Qed.

Lemma split_no_slash (r : string) : no_slash r = true -> split_slash r = [r].
Proof.
  induction r as [|a r IH]; cbn; [reflexivity|].
  intros H. apply andb_true_iff in H as [Ha Hr]. apply negb_true_iff in Ha.
  rewrite Ha, (IH Hr). reflexivity.
Qed.

Lemma split_slash_cons (s : string) : exists x xs, split_slash s = x :: xs.
Proof.
  induction s as [|a s (x & xs & IH)]; cbn; [eauto|].
  destruct (Ascii.eqb a "/"%char); [eauto|]. rewrite IH. eauto.
Qed.

(** X2. When the connection carries a url, [extractRoomId] reads it and nothing
    else: a path [/rooms/r] gives [r], another path gives the [room] query
    parameter, and neither the headers nor the party's room name matter. *)
Theorem extractRoomId_url_decides (u : Url) (ci : ConnInfo) :
  ci_url ci = UrlParsed u ->
  extractRoomId ci
    = match match_room_path (url_pathname u) with
      | Some r => Some r
      | None => url_room_param u
      end /\
  forall hdr orig name,
    extractRoomId {| ci_url := ci_url ci; ci_roomHeader := hdr;
                     ci_originalUrl := orig; ci_roomName := name |}
    = extractRoomId ci.
Proof.
  intros H. unfold extractRoomId. cbn. rewrite H. split; [reflexivity|]. intros; reflexivity.
Qed.

Lemma extractRoomId_url_decides_witness :
  extractRoomId (Ex.at_room "r1")
    = match match_room_path (url_pathname {| url_pathname := "/rooms/r1"; url_room_param := None |}) with
      | Some r => Some r
      | None => url_room_param {| url_pathname := "/rooms/r1"; url_room_param := None |}
      end /\
  forall hdr orig name,
    extractRoomId {| ci_url := ci_url (Ex.at_room "r1"); ci_roomHeader := hdr;
                     ci_originalUrl := orig; ci_roomName := name |}
    = extractRoomId (Ex.at_room "r1").
Proof.
  apply (extractRoomId_url_decides
           {| url_pathname := "/rooms/r1"; url_room_param := None |} (Ex.at_room "r1")).
  reflexivity.
Defined.

(** X3. A url that does not parse ends the search: [new URL] throws, the
    exception is swallowed and the result is null, whatever the headers
    say.  The same holds for an unparsable X-Original-URL once the room
    header is absent. *)
Theorem extractRoomId_swallows_bad_url (ci : ConnInfo) :
  (ci_url ci = UrlInvalid \/
   (ci_url ci = UrlAbsent /\ truthy_str (ci_roomHeader ci) = false /\
    ci_originalUrl ci = UrlInvalid)) ->
  extractRoomId ci = None.
Proof.
  unfold extractRoomId. intros [H|(H1 & H2 & H3)].
  - now rewrite H.
  - now rewrite H1, H2, H3.
Qed.

Lemma extractRoomId_swallows_bad_url_witness :
  extractRoomId {| ci_url := UrlInvalid; ci_roomHeader := Some "r1";
                   ci_originalUrl := UrlAbsent; ci_roomName := Some "r1" |} = None.
Proof.
  apply (extractRoomId_swallows_bad_url
           {| ci_url := UrlInvalid; ci_roomHeader := Some "r1";
              ci_originalUrl := UrlAbsent; ci_roomName := Some "r1" |}).
  left. reflexivity.
Defined.

(** X29. Without a url on the connection, the room header comes first: when
    it is a non-empty string it is the result, whatever X-Original-URL
    (even one that does not parse) and the party's room name are. *)
Theorem extractRoomId_header_first (ci : ConnInfo) (h : string) :
  ci_url ci = UrlAbsent ->
  ci_roomHeader ci = Some h -> h <> "" ->
  extractRoomId ci = Some h /\
  forall orig name,
    extractRoomId {| ci_url := UrlAbsent; ci_roomHeader := Some h;
                     ci_originalUrl := orig; ci_roomName := name |} = Some h.
Proof.
  intros Hu Hh Hne. apply String.eqb_neq in Hne.
  unfold extractRoomId. rewrite Hu, Hh. cbn. rewrite Hne. cbn.
  split; [reflexivity | intros; reflexivity].
Qed.

Lemma extractRoomId_header_first_witness :
  extractRoomId {| ci_url := UrlAbsent; ci_roomHeader := Some "r1";
                   ci_originalUrl := UrlInvalid; ci_roomName := None |} = Some "r1" /\
  forall orig name,
    extractRoomId {| ci_url := UrlAbsent; ci_roomHeader := Some "r1";
                     ci_originalUrl := orig; ci_roomName := name |} = Some "r1".
Proof.
  apply (extractRoomId_header_first
           {| ci_url := UrlAbsent; ci_roomHeader := Some "r1";
              ci_originalUrl := UrlInvalid; ci_roomName := None |} "r1");
    [reflexivity | reflexivity | discriminate].
Defined.

(** ** Messages of an authenticated connection *)

Lemma cancel_pingTimer_spec (id : string) (w : World) :
  let w' := fst (cancel_pingTimer id w) in
  timers w' = without_mapped (pingTimers (hub w)) id (timers w) /\
  (forall i, i <> id -> pingTimers (hub w') !! i = pingTimers (hub w) !! i) /\
  (truthy_handle (default 0%nat (pingTimers (hub w) !! id)) = true ->
   pingTimers (hub w') !! id = None) /\
  authTimers (hub w') = authTimers (hub w) /\
  roomId (hub w') = roomId (hub w) /\ lastMessage (hub w') = lastMessage (hub w) /\
  conns w' = conns w /\ next_handle w' = next_handle w /\ now w' = now w /\ env w' = env w.
Proof.
  unfold cancel_pingTimer, modify, without_mapped. cbn [fst].
  destruct (pingTimers (hub w) !! id) as [h0|] eqn:E; cbn [default].
  - destruct (truthy_handle h0) eqn:Etr.
    + split; [reflexivity|]. split; [intros c' Hne; cbn; now rewrite lookup_delete_ne|].
      split; [intros _; cbn; apply lookup_delete_eq|]. repeat split.
    + split; [reflexivity|]. split; [reflexivity|].
      split; [intros H; cbn in H; congruence|]. repeat split.
  - split; [reflexivity|]. split; [reflexivity|].
    split; [intros H; cbv in H; discriminate|]. repeat split.
Qed.

Lemma ping_handler (s : nat) (id : string) (msg : ClientMsg) (reply : BackendReply) (w : World) :
  conn_authed s w = true ->
  m_type msg = Some "ping" ->
  onMessage s id (Parsed msg) reply w
    = (cancel_pingTimer id >>> arm_pingTimer s id >>>
       (fun w0 => send s (payload_pong (match m_t msg with Some t => t | None => now w0 end)) w0)) w.
Proof.
  intros Ha Ht. unfold onMessage, onMessage_begin. rewrite Ht.
  change (String.eqb "ping" "") with false.
  change (String.eqb "ping" "auth") with false.
  change (String.eqb "ping" "ping") with true.
  cbv iota. rewrite Ha. reflexivity.
Qed.

(** X4. A ping of an authenticated connection.  The reply is one [pong] that
    carries the [t] of the ping, or the current time when the ping has none.
    The idle timer is rearmed by cancel-then-arm: the timer whose handle the
    hub holds for the connection's id is disarmed, one new timer is armed,
    due 30 s from now, and its handle is the one the hub holds afterwards.
    Nothing else changes: the idle handles held for other ids, the
    admission handles, the room, the cache, the connections, the clock and
    the environment are as before, and the host has given out one handle. *)
Theorem ping_rearms (s : nat) (id : string) (msg : ClientMsg) (reply : BackendReply) (w : World) :
  conn_authed s w = true ->
  m_type msg = Some "ping" ->
  let '(w', outs) := onMessage s id (Parsed msg) reply w in
  outs = [Send s (payload_pong (match m_t msg with Some t => t | None => now w end))] /\
  timers w' = without_mapped (pingTimers (hub w)) id (timers w)
              ++ [{| t_handle := next_handle w; t_due := now w + PING_TIMEOUT_MS;
                     t_cb := PingTimeout s id |}] /\
  pingTimers (hub w') !! id = Some (next_handle w) /\
  (forall i, i <> id -> pingTimers (hub w') !! i = pingTimers (hub w) !! i) /\
  authTimers (hub w') = authTimers (hub w) /\
  roomId (hub w') = roomId (hub w) /\ lastMessage (hub w') = lastMessage (hub w) /\
  conns w' = conns w /\
  next_handle w' = S (next_handle w) /\ now w' = now w /\ env w' = env w.
Proof.
  intros Ha Ht. rewrite (ping_handler s id msg reply w Ha Ht).
  destruct (cancel_pingTimer_spec id w) as (T1 & O1 & _ & A1 & R1 & L1 & C1 & N1 & Now1 & E1).
  set (w1 := fst (cancel_pingTimer id w)) in *.
  destruct (arm_pingTimer_spec s id w1) as (T2 & P2 & A2 & R2 & L2 & C2 & N2 & Now2 & E2).
  set (w2 := fst (arm_pingTimer s id w1)) in *.
  assert (E : (cancel_pingTimer id >>> arm_pingTimer s id >>>
               (fun w0 => send s (payload_pong (match m_t msg with Some t => t | None => now w0 end)) w0)) w
              = (w2, [Send s (payload_pong (match m_t msg with Some t => t | None => now w2 end))])).
  { apply injective_projections.
    - rewrite !andThen_fst. reflexivity.
    - rewrite !andThen_snd, !andThen_fst, snd_cancel_pingTimer, snd_arm_pingTimer. reflexivity. }
  rewrite E. rewrite Now2, Now1.
  split; [reflexivity|]. split; [now rewrite T2, T1, N1, Now1|].
  split; [rewrite P2, N1; apply lookup_insert_eq|].
  split; [intros i Hi; rewrite P2, lookup_insert_ne by congruence; now apply O1|].
  split; [now rewrite A2|]. split; [now rewrite R2|]. split; [now rewrite L2|].
  split; [now rewrite C2|]. split; [now rewrite N2, N1|]. split; [reflexivity | now rewrite E2].
Qed.

Lemma ping_rearms_witness :
  let '(w', outs) := onMessage 0 "A" (Ex.ping (Some 7)) FetchThrows Ex.w_two in
  outs = [Send 0 (payload_pong 7)] /\
  timers w' = without_mapped (pingTimers (hub Ex.w_two)) "A" (timers Ex.w_two)
              ++ [{| t_handle := next_handle Ex.w_two; t_due := now Ex.w_two + PING_TIMEOUT_MS;
                     t_cb := PingTimeout 0 "A" |}] /\
  pingTimers (hub w') !! "A" = Some (next_handle Ex.w_two) /\
  (forall i, i <> "A" -> pingTimers (hub w') !! i = pingTimers (hub Ex.w_two) !! i) /\
  authTimers (hub w') = authTimers (hub Ex.w_two) /\
  roomId (hub w') = roomId (hub Ex.w_two) /\ lastMessage (hub w') = lastMessage (hub Ex.w_two) /\
  conns w' = conns Ex.w_two /\
  next_handle w' = S (next_handle Ex.w_two) /\ now w' = now Ex.w_two /\ env w' = env Ex.w_two.
Proof.
  apply (ping_rearms 0 "A"
           {| m_type := Some "ping"; m_token := None; m_roomId := None;
              m_userId := None; m_isTyping := None; m_t := Some 7 |}
           FetchThrows Ex.w_two); reflexivity.
Defined.

Lemma in_numbered (l : list Conn) (i s : nat) (k : Conn) :
  In (s, k) (numbered i l) <-> (i <= s)%nat /\ l !! (s - i)%nat = Some k.
Proof.
  revert i. induction l as [|x r IH]; intros i; cbn [numbered In].
  - split; [tauto | intros [_ E]; discriminate].
  - rewrite IH. split.
    + intros [E|[L E]].
      * inversion E; subst. rewrite Nat.sub_diag. split; [lia | reflexivity].
      * split; [lia|]. replace (s - i)%nat with (S (s - S i)) by lia. exact E.
    + intros [L E]. destruct (decide (i = s)) as [->|Hne].
      * rewrite Nat.sub_diag in E. cbn in E. left. congruence.
      * right. split; [lia|]. replace (s - i)%nat with (S (s - S i)) in E by lia. exact E.
Qed.

(** The calls of a [broadcast]: a [send] of the message to a socket that is
    open and whose id is not excluded. *)
Lemma in_broadcast (msg : json) (without : option (list string)) (w : World) (o : Output) :
  In o (snd (broadcast msg without w)) ->
  exists s k, o = Send s msg /\ conns w !! s = Some k /\
              conn_open k = true /\ excluded without (conn_id k) = false.
Proof.
  unfold broadcast, recipients. cbn [snd]. rewrite map_map. intros H.
  apply in_map_iff in H as ([s k] & <- & Hin). apply filter_In in Hin as [Hin Hf].
  apply in_numbered in Hin as [_ Hk]. rewrite Nat.sub_0_r in Hk.
  cbn in Hf. apply andb_true_iff in Hf as [Ho Hx]. apply negb_true_iff in Hx.
  exists s, k. auto.
Qed.

(** X5. A typing event of an authenticated sender changes nothing in the hub
    or the host, sends nothing to the sender, closes nobody, and whatever it
    sends is the one typing payload: the sender's recorded identity (or
    "unknown"), the flag as a boolean, the bound room, the time, and the
    cached last message under [before]; it goes to sockets other than the
    sender's, of another id. *)
Theorem typing_is_read_only (s : nat) (id : string) (msg : ClientMsg) (reply : BackendReply)
    (w : World) :
  conn_key s w = Some id ->
  conn_authed s w = true ->
  m_type msg = Some "typing" ->
  let '(w', outs) := onMessage s id (Parsed msg) reply w in
  w' = w /\
  delivered s outs = [] /\
  forall o, In o outs ->
    exists s' k, s' <> s /\ conns w !! s' = Some k /\ conn_id k <> id /\
      o = Send s' (payload_typing
                     (match conn_userId s w with Some u => u | None => "unknown" end)
                     (match m_isTyping msg with Some b => b | None => false end)
                     (roomId (hub w)) (now w) (lastMessage (hub w))).
Proof.
  intros Hk Ha Ht. rewrite (typing_fanout s id msg reply w Ha Ht).
  apply conn_key_Some in Hk as (k0 & Hk0 & Hid).
  unfold broadcast. split; [reflexivity|]. split.
  - change (delivered s (snd (broadcast
              (payload_typing (match conn_userId s w with Some u => u | None => "unknown" end)
                              (match m_isTyping msg with Some b => b | None => false end)
                              (roomId (hub w)) (now w) (lastMessage (hub w)))
              (Some [id]) w)) = []).
    rewrite delivered_broadcast, Hk0, Hid. cbn. rewrite String.eqb_refl.
    now rewrite andb_false_r.
  - intros o Hin.
    apply (in_broadcast _ (Some [id]) w) in Hin as (s' & k & -> & Hk & _ & Hx).
    cbn in Hx. rewrite orb_false_r in Hx. apply String.eqb_neq in Hx.
    exists s', k. split; [|split; [exact Hk | split; [exact Hx | reflexivity]]].
    intros ->. congruence.
Qed.

Lemma typing_is_read_only_witness :
  let '(w', outs) := onMessage 0 "A" (Ex.typing true) FetchThrows Ex.w_two in
  w' = Ex.w_two /\
  delivered 0 outs = [] /\
  forall o, In o outs ->
    exists s' k, s' <> 0%nat /\ conns Ex.w_two !! s' = Some k /\ conn_id k <> "A" /\
      o = Send s' (payload_typing
                     (match conn_userId 0 Ex.w_two with Some u => u | None => "unknown" end)
                     true (roomId (hub Ex.w_two)) (now Ex.w_two) (lastMessage (hub Ex.w_two))).
Proof.
  apply (typing_is_read_only 0 "A"
           {| m_type := Some "typing"; m_token := None; m_roomId := None;
              m_userId := None; m_isTyping := Some true; m_t := None |}
           FetchThrows Ex.w_two); reflexivity.
Defined.

(** X6. A message of an authenticated connection whose type is none of [auth],
    [ping], [typing] is answered with the [unknown_type] error, which names
    the type, and nothing changes. *)
Theorem unknown_type_rejected (s : nat) (id : string) (msg : ClientMsg) (ty : string)
    (reply : BackendReply) (w : World) :
  conn_authed s w = true ->
  m_type msg = Some ty ->
  ty <> "" -> ty <> "auth" -> ty <> "ping" -> ty <> "typing" ->
  onMessage s id (Parsed msg) reply w
    = (w, [Send s (payload_error "unknown_type" (String.append "unknown: " ty))]).
Proof.
  intros Ha Ht H1 H2 H3 H4. unfold onMessage, onMessage_begin. rewrite Ht.
  rewrite (eqb_false_of_neq _ _ H1), (eqb_false_of_neq _ _ H2), Ha. cbn [negb].
  now rewrite (eqb_false_of_neq _ _ H3), (eqb_false_of_neq _ _ H4).
Qed.

Lemma unknown_type_rejected_witness :
  onMessage 0 "A"
    (Parsed {| m_type := Some "message.created"; m_token := None; m_roomId := None;
               m_userId := None; m_isTyping := None; m_t := None |})
    FetchThrows Ex.w_two
  = (Ex.w_two, [Send 0 (payload_error "unknown_type" (String.append "unknown: " "message.created"))]).
Proof.
  apply (unknown_type_rejected 0 "A" _ "message.created" FetchThrows Ex.w_two);
    [reflexivity | reflexivity | discriminate | discriminate | discriminate | discriminate].
Defined.


(** A connection of a hub whose room is not bound sends an admission
    request that names no room. *)
Lemma missing_room_closed_witness :
  onMessage 0 "A" (Ex.auth (Some "good") None None) FetchThrows
            (set_conns [fresh_conn "A"] (init Ex.e0))
    = (update_conn 0 mark_closed (set_conns [fresh_conn "A"] (init Ex.e0)),
       [Send 0 (payload_error "bad_payload" "roomId required");
        Close 0 CLOSE_UNAUTHORIZED "roomId required"]).
Proof.
  apply (missing_room_closed 0 "A" _ FetchThrows (set_conns [fresh_conn "A"] (init Ex.e0)));
    reflexivity.
Defined.


(** ** Verification, closing and the idle timeout *)

(** [checkParticipant] fails closed: a refusal carries no identity. *)
Lemma checkParticipant_fails_closed (reply : BackendReply) :
  success (checkParticipant_result reply) = false ->
  result_userId (checkParticipant_result reply) = None.
Proof.
  destruct reply as [|st body]; cbn; [reflexivity|].
  destruct (Z.eqb st 200); [|reflexivity]. now destruct body.
Qed.

(** X10. When the backend does not admit (a status other than 200, a 200
    whose body is the JSON value null, or the fetch throws), the admission
    fails without partial effect: the client gets the [unauthorized] error
    and is closed with 4401; the hub's fields, the armed timers, and every
    [authed] flag and identity are as before. *)
Theorem verification_failure_closes (p : Pending) (reply : BackendReply) (w : World) :
  match reply with
  | Responded st body => st <> 200 \/ body = JsonNull
  | FetchThrows => True
  end ->
  let '(w', outs) := onMessage_resume p (checkParticipant_result reply) w in
  outs = [Send (p_conn p) (payload_error "unauthorized" "not a participant");
          Close (p_conn p) CLOSE_UNAUTHORIZED "unauthorized"] /\
  w' = update_conn (p_conn p) mark_closed w /\
  hub w' = hub w /\ timers w' = timers w /\
  (forall s, conn_authed s w' = conn_authed s w) /\
  (forall s, conn_userId s w' = conn_userId s w).
Proof.
  intros Hr.
  assert (Hs : success (checkParticipant_result reply) = false).
  { destruct reply as [|st body]; [reflexivity|]. cbn.
    destruct Hr as [Hr| ->].
    - apply Z.eqb_neq in Hr. now rewrite Hr.
    - now destruct (Z.eqb st 200). }
  unfold onMessage_resume. cbv zeta. rewrite Hs. cbn [negb].
  unfold andThen, sendError, send, close. cbn [app].
  split; [reflexivity|]. split; [reflexivity|]. split; [reflexivity|]. split; [reflexivity|].
  split; intros s; unfold conn_authed, conn_userId;
    rewrite lookup_update_conn;
    destruct (Nat.eqb s (p_conn p)); try reflexivity;
    now destruct (conns w !! s).
Qed.

Lemma verification_failure_closes_witness :
  let '(w', outs) :=
    onMessage_resume (Ex.pending 1 "B" "r1" "bad" None)
      (checkParticipant_result (Responded 403 (JsonValue None))) Ex.w_two in
  outs = [Send 1 (payload_error "unauthorized" "not a participant");
          Close 1 CLOSE_UNAUTHORIZED "unauthorized"] /\
  w' = update_conn 1 mark_closed Ex.w_two /\
  hub w' = hub Ex.w_two /\ timers w' = timers Ex.w_two /\
  (forall s, conn_authed s w' = conn_authed s Ex.w_two) /\
  (forall s, conn_userId s w' = conn_userId s Ex.w_two).
Proof.
  apply (verification_failure_closes (Ex.pending 1 "B" "r1" "bad" None)
           (Responded 403 (JsonValue None)) Ex.w_two).
  left. discriminate.
Defined.

Lemma authed_never_regresses_witness :
  conn_authed 0 (fst (step (EClose 0) Ex.w_two)) = true.
Proof. apply (authed_never_regresses (EClose 0) 0 Ex.w_two). reflexivity. Defined.

Lemma cancel_authTimer_noop (id : string) (w : World) :
  truthy_handle (default 0%nat (authTimers (hub w) !! id)) = false ->
  cancel_authTimer id w = (w, []).
Proof.
  unfold cancel_authTimer, modify. intros H.
  destruct (authTimers (hub w) !! id) as [h0|]; [|reflexivity].
  cbn in H. now rewrite H.
Qed.

Lemma cancel_pingTimer_noop (id : string) (w : World) :
  truthy_handle (default 0%nat (pingTimers (hub w) !! id)) = false ->
  cancel_pingTimer id w = (w, []).
Proof.
  unfold cancel_pingTimer, modify. intros H.
  destruct (pingTimers (hub w) !! id) as [h0|]; [|reflexivity].
  cbn in H. now rewrite H.
Qed.

Lemma cancel_authTimer_after (id : string) (w : World) :
  truthy_handle (default 0%nat (authTimers (hub (fst (cancel_authTimer id w))) !! id)) = false /\
  pingTimers (hub (fst (cancel_authTimer id w))) = pingTimers (hub w).
Proof.
  unfold cancel_authTimer, modify. cbn [fst].
  destruct (authTimers (hub w) !! id) as [h0|] eqn:E.
  - destruct (truthy_handle h0) eqn:T.
    + split; [|reflexivity]. cbn. now rewrite lookup_delete_eq.
    + split; [|reflexivity]. rewrite E. exact T.
  - split; [|reflexivity]. now rewrite E.
Qed.

Lemma cancel_pingTimer_after (id : string) (w : World) :
  truthy_handle (default 0%nat (pingTimers (hub (fst (cancel_pingTimer id w))) !! id)) = false /\
  authTimers (hub (fst (cancel_pingTimer id w))) = authTimers (hub w).
Proof.
  unfold cancel_pingTimer, modify. cbn [fst].
  destruct (pingTimers (hub w) !! id) as [h0|] eqn:E.
  - destruct (truthy_handle h0) eqn:T.
    + split; [|reflexivity]. cbn. now rewrite lookup_delete_eq.
    + split; [|reflexivity]. rewrite E. exact T.
  - split; [|reflexivity]. now rewrite E.
Qed.

Lemma filter_none {A} (f : A -> bool) (l : list A) :
  (forall x, In x l -> f x = false) -> List.filter f l = [].
Proof.
  induction l as [|x l IH]; intros N; [reflexivity|]. cbn.
  rewrite (N x (or_introl eq_refl)). apply IH. intros y Hin. apply N. now right.
Qed.

(** X12. [onClose] is idempotent, in every world: a second call for the same
    connection finds no handle to cancel, changes nothing and, like the
    first, makes no call on any connection. *)
Theorem onClose_idempotent (id : string) (w : World) :
  onClose id (fst (onClose id w)) = (fst (onClose id w), []) /\
  snd (onClose id w) = [].
Proof.
  unfold onClose. split.
  - rewrite andThen_fst.
    destruct (cancel_authTimer_after id w) as [A1 P1].
    set (w1 := fst (cancel_authTimer id w)) in *.
    destruct (cancel_pingTimer_after id w1) as [P2 A2].
    set (w2 := fst (cancel_pingTimer id w1)) in *.
    assert (A3 : truthy_handle (default 0%nat (authTimers (hub w2) !! id)) = false)
      by now rewrite A2.
    unfold andThen. rewrite (cancel_authTimer_noop id w2 A3), (cancel_pingTimer_noop id w2 P2).
    reflexivity.
  - rewrite andThen_snd. reflexivity.
Qed.

(** X13. In a well-formed world, [onClose] of a connection leaves nothing of
    its admission deadline behind: no admission timer for its socket, nor
    for its id, stays armed, the hub holds no handle for the id in either
    map, and the idle timer the hub held for it is disarmed. *)
Theorem onClose_releases_timers (s : nat) (id : string) (w : World) :
  wf w -> conn_key s w = Some id ->
  let w' := fst (onClose id w) in
  authTimers (hub w') !! id = None /\
  pingTimers (hub w') !! id = None /\
  auth_timers_of s w' = [] /\
  (forall t, In t (timers w') -> is_auth_key id t = false) /\
  (forall h0 t, pingTimers (hub w) !! id = Some h0 -> In t (timers w') -> t_handle t <> h0) /\
  (forall t, In t (timers w') -> In t (timers w)) /\
  conns w' = conns w.
Proof.
  intros Hw Hk. cbv zeta. unfold onClose. rewrite andThen_fst.
  destruct (cancel_authTimer_spec id w Hw) as (T1 & A1 & P1 & _ & _ & C1 & _).
  pose proof (wf_cancel_authTimer id w Hw) as Hw1.
  set (w1 := fst (cancel_authTimer id w)) in *.
  destruct (cancel_pingTimer_spec id w1) as (T2 & _ & P2 & A2 & _ & _ & C2 & _).
  set (w2 := fst (cancel_pingTimer id w1)) in *.
  assert (Sub : forall t, In t (timers w2) -> In t (timers w1)).
  { intros t. rewrite T2. unfold without_mapped.
    destruct (pingTimers (hub w1) !! id) as [h0|]; [|trivial].
    destruct (truthy_handle h0); [|trivial]. intros H. apply filter_In in H. tauto. }
  assert (N : forall t, In t (timers w2) -> is_auth_key id t = false).
  { intros t Hin. apply Sub in Hin. rewrite T1 in Hin. apply filter_In in Hin as [_ Hn].
    now apply negb_true_iff. }
  split; [rewrite A2, A1; apply lookup_delete_eq|].
  split.
  { destruct (pingTimers (hub w1) !! id) as [h0|] eqn:E.
    - apply P2. cbn. apply truthy_handle_pos.
      apply (wf_ping_range w1 Hw1 id h0 E).
    - unfold w2, cancel_pingTimer, modify. cbn [fst]. now rewrite E. }
  split.
  { unfold auth_timers_of. apply filter_none. intros t Hin.
    destruct (is_auth_timer s t) eqn:K; [|reflexivity].
    rewrite <- (N t Hin). symmetry.
    apply (auth_timer_key s id w); [exact Hw | exact Hk | | exact K].
    apply Sub in Hin. rewrite T1 in Hin. apply filter_In in Hin. tauto. }
  split; [exact N|].
  split.
  { intros h0 t E Hin. rewrite T2 in Hin. unfold without_mapped in Hin.
    rewrite P1, E in Hin.
    rewrite truthy_handle_pos in Hin by (apply (wf_ping_range w Hw id h0 E)).
    apply filter_In in Hin as [_ Hn]. apply negb_true_iff in Hn. now apply Nat.eqb_neq. }
  split.
  { intros t Hin. apply Sub in Hin. rewrite T1 in Hin. apply filter_In in Hin. tauto. }
  now rewrite C2, C1.
Qed.

Lemma wf_w_two : wf Ex.w_two.
Proof. apply wf_run; [apply wf_init | distinct_ids]. Qed.

Lemma onClose_releases_timers_witness :
  let w' := fst (onClose "A" Ex.w_two) in
  authTimers (hub w') !! "A" = None /\
  pingTimers (hub w') !! "A" = None /\
  auth_timers_of 0 w' = [] /\
  (forall t, In t (timers w') -> is_auth_key "A" t = false) /\
  (forall h0 t, pingTimers (hub Ex.w_two) !! "A" = Some h0 -> In t (timers w') -> t_handle t <> h0) /\
  (forall t, In t (timers w') -> In t (timers Ex.w_two)) /\
  conns w' = conns Ex.w_two.
Proof.
  apply (onClose_releases_timers 0 "A" Ex.w_two); [apply wf_w_two | reflexivity].
Defined.

(** X14. The idle timeout.  When the host runs a due idle timer of a connection
    that is authenticated, the hub sends the [ping_timeout] error, closes
    the connection with the normal status 1000 and forgets the idle handle
    of the connection's id; the timer is gone from the host's table.  The
    flag [authed] is left set. *)
Theorem idle_timeout_fires (h : nat) (t : Timer) (s : nat) (id : string) (w : World) :
  find_timer h w = Some t ->
  t_cb t = PingTimeout s id ->
  t_due t <= now w ->
  conn_authed s w = true ->
  let '(w', outs) := step (EFire h) w in
  outs = [Send s (payload_error "ping_timeout" "ping timeout - connection will be closed");
          Close s CLOSE_NORMAL "ping timeout"] /\
  pingTimers (hub w') !! id = None /\
  (forall t', In t' (timers w') -> In t' (timers w) /\ t_handle t' <> h) /\
  conn_authed s w' = true /\
  authTimers (hub w') = authTimers (hub w).
Proof.
  intros F Hcb Hdue Ha. cbn [step]. rewrite F.
  apply Z.leb_le in Hdue. rewrite Hdue, Hcb. cbn [run_callback].
  unfold pingTimeout_fires. rewrite authed_clearTimeout, Ha. cbn [negb].
  unfold andThen, sendError, send, close, modify. cbn [app].
  split; [reflexivity|]. split; [cbn; apply lookup_delete_eq|].
  split; [intros t' Hin; now apply (in_clearTimeout h w t')|].
  split; [|reflexivity].
  transitivity (conn_authed s (update_conn s mark_closed (clearTimeout h w)));
    [now apply conn_authed_conns|].
  apply authed_update; [intros k Hk; exact Hk | now rewrite authed_clearTimeout].
Qed.

Lemma idle_timeout_fires_witness :
  let '(w', outs) := step (EFire 2) (advance 30000 Ex.w_two) in
  outs = [Send 0 (payload_error "ping_timeout" "ping timeout - connection will be closed");
          Close 0 CLOSE_NORMAL "ping timeout"] /\
  pingTimers (hub w') !! "A" = None /\
  (forall t', In t' (timers w') -> In t' (timers (advance 30000 Ex.w_two)) /\ t_handle t' <> 2%nat) /\
  conn_authed 0 w' = true /\
  authTimers (hub w') = authTimers (hub (advance 30000 Ex.w_two)).
Proof.
  apply (idle_timeout_fires 2 {| t_handle := 2; t_due := 30000; t_cb := PingTimeout 0 "A" |}
           0 "A" (advance 30000 Ex.w_two));
    [reflexivity | reflexivity | apply Z.leb_le; reflexivity | reflexivity].
Defined.

Lemma run_callback_timers (cb : callback) (w : World) :
  timers (fst (run_callback cb w)) = timers w.
Proof.
  destruct cb as [s id|s id]; cbn [run_callback].
  - unfold authTimeout_fires. rewrite andThen_fst.
    destruct (negb (conn_authed s w)); [rewrite andThen_fst|]; reflexivity.
  - unfold pingTimeout_fires. destruct (negb (conn_authed s w)); [reflexivity|].
    rewrite !andThen_fst. reflexivity.
Qed.

(** ** The HTTP boundary and the room binding *)

(** X16. Whatever the request, [onRequest] touches nothing but the room binding
    and the cache: connections, timers, both timer maps, the handle counter,
    the clock and the environment are as before; and it closes nobody. *)
Theorem onRequest_frame (r : Request) (w : World) :
  let w' := fst (snd (onRequest r w)) in
  let outs := snd (snd (onRequest r w)) in
  conns w' = conns w /\ timers w' = timers w /\
  authTimers (hub w') = authTimers (hub w) /\ pingTimers (hub w') = pingTimers (hub w) /\
  next_handle w' = next_handle w /\ now w' = now w /\ env w' = env w /\
  List.filter (fun o => match o with Close _ _ _ => true | Send _ _ => false end) outs = [].
Proof.
  cbv zeta. unfold onRequest.
  repeat match goal with
         | |- context [if ?x then _ else _] => destruct x eqn:?
         | |- context [match ?x with Some _ => _ | None => _ end] => destruct x eqn:?
         end; cbn [snd fst]; repeat split.
  all: unfold broadcast; cbn [snd];
    match goal with
    | |- List.filter _ (map _ ?rs) = [] =>
        induction rs as [|k ks IH]; [reflexivity | exact IH]
    end.
Qed.

Lemma onRequest_frame_timers (r : Request) (w : World) :
  timers (fst (snd (onRequest r w))) = timers w /\
  next_handle (fst (snd (onRequest r w))) = next_handle w.
Proof.
  unfold onRequest.
  repeat match goal with
         | |- context [if ?x then _ else _] => destruct x eqn:?
         | |- context [match ?x with Some _ => _ | None => _ end] => destruct x eqn:?
         end; cbn [snd fst]; split; reflexivity.
Qed.

(** X17. A trigger with the right secret whose body is missing, or has no room
    identifier, or has a message that is absent or falsy is refused with
    status 400, and nothing changes. *)
Theorem invalid_trigger_body_rejected (r : Request) (w : World) :
  req_pathname r = "/broadcast" ->
  req_method r = "POST" ->
  req_authorization r = Some (bearer (WEBHOOK_TOKEN (env w))) ->
  match req_body r with
  | Some body => truthy_str (b_roomId body) = false \/ truthy_opt_json (b_message body) = false
  | None => True
  end ->
  onRequest r w
    = ({| status := 400; response_body := json_failure "roomId and message required" |}, (w, [])).
Proof.
  intros Hp Hm Ha Hb. unfold onRequest. rewrite Hp, Hm. cbn [String.eqb andb].
  change (String.eqb "/broadcast" "/broadcast") with true.
  change (String.eqb "POST" "POST") with true. cbn [andb].
  apply secret_ok_spec in Ha. rewrite Ha. cbn [negb].
  destruct (req_body r) as [body|]; [|reflexivity].
  destruct (b_roomId body) as [rid|]; [|reflexivity].
  destruct (b_message body) as [m|]; [|reflexivity].
  cbn in Hb. destruct Hb as [Hb|Hb].
  - apply negb_false_iff in Hb. now rewrite Hb.
  - rewrite Hb. now rewrite andb_false_r.
Qed.

Lemma invalid_trigger_body_rejected_witness :
  onRequest {| req_method := "POST"; req_pathname := "/broadcast";
               req_authorization := Some "Bearer s3cret";
               req_body := Some {| b_roomId := Some "r1"; b_message := Some (JStr "");
                                   b_excludeConnectionIds := None |} |} Ex.w_two
    = ({| status := 400; response_body := json_failure "roomId and message required" |},
       (Ex.w_two, [])).
Proof.
  apply (invalid_trigger_body_rejected _ Ex.w_two);
    [reflexivity | reflexivity | reflexivity | right; reflexivity].
Defined.

Lemma trigger_conflict_rejected_witness :
  snd (onRequest (Ex.trigger (Some "Bearer s3cret") "r2" Ex.m1 None) Ex.w_two) = (Ex.w_two, []) /\
  status (fst (onRequest (Ex.trigger (Some "Bearer s3cret") "r2" Ex.m1 None) Ex.w_two)) <> 200.
Proof.
  apply (trigger_conflict_rejected (Ex.trigger (Some "Bearer s3cret") "r2" Ex.m1 None)
           {| b_roomId := Some "r2"; b_message := Some Ex.m1; b_excludeConnectionIds := None |}
           "r2" "r1" Ex.w_two);
    [reflexivity | reflexivity | reflexivity | reflexivity | reflexivity
    | discriminate | discriminate].
Defined.

Lemma last_message_reads (q : Request) (w : World) :
  req_pathname q = "/last-message" ->
  req_method q = "GET" ->
  req_authorization q = Some (bearer (WEBHOOK_TOKEN (env w))) ->
  onRequest q w
    = ({| status := 200;
          response_body :=
            Json (JObj ([("success", JBool true); ("lastMessage", lastMessage (hub w))]
                        ++ match roomId (hub w) with
                           | Some rid => [("roomId", JStr rid)]
                           | None => []
                           end)) |},
       (w, [])).
Proof.
  intros Hqp Hqm Hqa. unfold onRequest. rewrite Hqp, Hqm.
  change (String.eqb "/last-message" "/broadcast") with false.
  change (String.eqb "/last-message" "/last-message") with true.
  change (String.eqb "GET" "GET") with true. cbn [andb].
  apply secret_ok_spec in Hqa. rewrite Hqa. reflexivity.
Qed.

(** X19. Round trip through the cache: after a trigger that is accepted with
    message [m] for the room [rid], a [GET /last-message] with the right
    secret answers 200 with exactly [m] as [lastMessage] and [rid] as
    [roomId], and changes nothing. *)
Theorem trigger_then_last_message (r q : Request) (body : Body) (rid : string) (m : json)
    (w : World) :
  req_pathname r = "/broadcast" ->
  req_method r = "POST" ->
  req_authorization r = Some (bearer (WEBHOOK_TOKEN (env w))) ->
  req_body r = Some body ->
  b_roomId body = Some rid -> rid <> "" ->
  b_message body = Some m -> truthy_json m = true ->
  (truthy_str (roomId (hub w)) = true -> roomId (hub w) = Some rid) ->
  req_pathname q = "/last-message" ->
  req_method q = "GET" ->
  req_authorization q = Some (bearer (WEBHOOK_TOKEN (env w))) ->
  let w' := fst (snd (onRequest r w)) in
  onRequest q w'
    = ({| status := 200;
          response_body := Json (JObj [("success", JBool true); ("lastMessage", m);
                                       ("roomId", JStr rid)]) |},
       (w', [])).
Proof.
  intros Hp Hm Ha Hb Hr Hne Hmsg Htr Hroom Hqp Hqm Hqa. cbv zeta.
  rewrite (trigger_accepted r body rid m w Hp Hm Ha Hb Hr Hne Hmsg Htr Hroom). cbn [fst snd].
  rewrite (last_message_reads q (set_lastMessage m (set_roomId (Some rid) w)) Hqp Hqm Hqa).
  reflexivity.
Qed.

Lemma trigger_then_last_message_witness :
  let w' := fst (snd (onRequest (Ex.trigger (Some "Bearer s3cret") "r1" Ex.m1 None) Ex.w_two)) in
  onRequest {| req_method := "GET"; req_pathname := "/last-message";
               req_authorization := Some "Bearer s3cret"; req_body := None |} w'
    = ({| status := 200;
          response_body := Json (JObj [("success", JBool true); ("lastMessage", Ex.m1);
                                       ("roomId", JStr "r1")]) |},
       (w', [])).
Proof.
  apply (trigger_then_last_message
           (Ex.trigger (Some "Bearer s3cret") "r1" Ex.m1 None)
           {| req_method := "GET"; req_pathname := "/last-message";
              req_authorization := Some "Bearer s3cret"; req_body := None |}
           {| b_roomId := Some "r1"; b_message := Some Ex.m1; b_excludeConnectionIds := None |}
           "r1" Ex.m1 Ex.w_two);
    [reflexivity | reflexivity | reflexivity | reflexivity | reflexivity | discriminate
    | reflexivity | reflexivity | intros _; reflexivity | reflexivity | reflexivity | reflexivity].
Defined.

Lemma roomId_cancel_auth (id : string) (w : World) :
  roomId (hub (fst (cancel_authTimer id w))) = roomId (hub w).
Proof.
  unfold cancel_authTimer, modify. cbn [fst].
  destruct (authTimers (hub w) !! id) as [h0|]; [|reflexivity]. now destruct (truthy_handle h0).
Qed.

Lemma roomId_cancel_ping (id : string) (w : World) :
  roomId (hub (fst (cancel_pingTimer id w))) = roomId (hub w).
Proof.
  unfold cancel_pingTimer, modify. cbn [fst].
  destruct (pingTimers (hub w) !! id) as [h0|]; [|reflexivity]. now destruct (truthy_handle h0).
Qed.

Lemma roomId_arm_ping (s : nat) (id : string) (w : World) :
  roomId (hub (fst (arm_pingTimer s id w))) = roomId (hub w).
Proof. reflexivity. Qed.

Lemma roomId_run_callback (cb : callback) (w : World) :
  roomId (hub (fst (run_callback cb w))) = roomId (hub w).
Proof.
  destruct cb as [s id|s id]; cbn [run_callback].
  - unfold authTimeout_fires. rewrite andThen_fst.
    destruct (negb (conn_authed s w)); [rewrite andThen_fst|]; reflexivity.
  - unfold pingTimeout_fires. destruct (negb (conn_authed s w)); [reflexivity|].
    rewrite !andThen_fst. reflexivity.
Qed.

(** X21. The room binding, once it is a non-empty identifier, is changed by no
    event other than an admission that the backend accepts: connections,
    closes, every client message up to the backend call, refused admissions,
    HTTP requests, timers and the passing of time all leave it as it is. *)
Theorem binding_kept_by_other_events (e : Event) (rid : string) (w : World) :
  roomId (hub w) = Some rid -> rid <> "" ->
  is_admission_success e = false ->
  roomId (hub (fst (step e w))) = Some rid.
Proof.
  intros Hb Hne He. destruct e as [id ci|s|s raw|p reply|r|h|d]; cbn [step].
  - now apply onConnect_keeps_binding.
  - destruct (conns w !! s) as [k|]; [|exact Hb].
    unfold onClose. rewrite andThen_fst, roomId_cancel_ping, roomId_cancel_auth. exact Hb.
  - destruct (conns w !! s) as [k|]; [|exact Hb].
    destruct (onMessage_begin s (conn_id k) raw w) as [res|pend] eqn:E; [|exact Hb].
    revert E. unfold onMessage_begin.
    repeat match goal with
           | |- context [match ?x with _ => _ end] => destruct x eqn:?
           end;
      intros E; inversion E; subst; clear E; try exact Hb;
      rewrite ?andThen_fst, ?fst_send, ?fst_sendError; try exact Hb.
    all: rewrite roomId_arm_ping, roomId_cancel_ping; exact Hb.
  - destruct (conns w !! p_conn p) as [k|]; [|exact Hb].
    destruct (String.eqb (conn_id k) (p_id p)); [|exact Hb].
    cbn in He. unfold onMessage_resume. cbv zeta. rewrite He. cbn [negb].
    rewrite andThen_fst. exact Hb.
  - unfold onRequest.
    assert (T : truthy_str (roomId (hub w)) = true).
    { rewrite Hb. cbn. apply negb_true_iff. now apply String.eqb_neq. }
    repeat match goal with
           | |- context [match ?x with _ => _ end] => destruct x eqn:?
           end; cbn [snd fst]; try exact Hb; congruence.
  - destruct (find_timer h w) as [t|]; [|exact Hb].
    destruct (t_due t <=? now w); [|exact Hb].
    now rewrite roomId_run_callback.
  - exact Hb.
Qed.

Lemma binding_kept_by_other_events_witness :
  roomId (hub (fst (step (EAuthReply (Ex.pending 1 "B" "r2" "bad" None) (Responded 403 (JsonValue None)))
                         Ex.w_two)))
  = Some "r1".
Proof.
  apply (binding_kept_by_other_events
           (EAuthReply (Ex.pending 1 "B" "r2" "bad" None) (Responded 403 (JsonValue None))) "r1" Ex.w_two);
    [reflexivity | discriminate | reflexivity].
Defined.

(** The first connection binds the room: on a hub with no binding yet,
    [onConnect] binds the identifier that [extractRoomId] finds for the
    connection, and the literal "default" when it finds none; so after any
    connection the hub has a binding. *)
Theorem first_connection_binds (s : nat) (id : string) (ci : ConnInfo) (w : World) :
  roomId (hub w) = None ->
  roomId (hub (fst (onConnect s id ci w)))
    = Some (match extractRoomId ci with Some r => r | None => "default" end).
Proof.
  intros H. unfold onConnect. rewrite !andThen_fst. unfold modify, send. cbn [fst].
  cbn. now rewrite H.
Qed.

Lemma first_connection_binds_witness :
  roomId (hub (fst (onConnect 0 "A" Ex.bare (init Ex.e0))))
    = Some (match extractRoomId Ex.bare with Some r => r | None => "default" end).
Proof.
  apply (first_connection_binds 0 "A" Ex.bare (init Ex.e0)). reflexivity.
Defined.

(** A connection object that carries no url, no request headers and no room
    gives [extractRoomId] nothing to find: the hub it opens is bound to
    "default", and an admission request for the room r1 then rebinds it. *)
Example bare_connection_binds_default :
  extractRoomId Ex.bare = None /\
  roomId (hub (fst (run [EConnect "A" Ex.bare] (init Ex.e0)))) = Some "default" /\
  roomId (hub (fst (run [EConnect "A" Ex.bare;
                         EMessage 0 (Ex.auth (Some "good") (Some "r1") None);
                         EAuthReply (Ex.pending 0 "A" "r1" "good" None) (Ex.ok "u1")]
                        (init Ex.e0)))) = Some "r1".
Proof. vm_compute. repeat split. Qed.

(** ** Worlds reachable from a new hub *)

Lemma NoDup_map_filter {A B} (f : A -> B) (p : A -> bool) (l : list A) :
  List.NoDup (map f l) -> List.NoDup (map f (List.filter p l)).
Proof.
  induction l as [|x l IH]; cbn; [trivial|].
  intros H. apply List.NoDup_cons_iff in H as [Hx Hl].
  destruct (p x); cbn; [|now apply IH].
  apply List.NoDup_cons; [|now apply IH].
  intros Hin. apply Hx. apply in_map_iff in Hin as (y & E & Hy).
  apply filter_In in Hy as [Hy _]. apply in_map_iff. eauto.
Qed.

Lemma NoDup_snoc {A} (x : A) (l : list A) :
  List.NoDup l -> ~ In x l -> List.NoDup (l ++ [x]).
Proof.
  induction l as [|y l IH]; cbn; intros D N.
  - constructor; [intros [] | constructor].
  - apply List.NoDup_cons_iff in D as [Hy Hl]. constructor.
    + intros Hin. apply in_app_or in Hin as [Hin|[<-|[]]]; tauto.
    + apply IH; tauto.
Qed.

Lemma distinct_same (w w' : World) :
  timers w' = timers w -> (next_handle w <= next_handle w')%nat ->
  distinct_handles w -> distinct_handles w'.
Proof.
  intros E N [D R]. split; rewrite E; [exact D|].
  intros t Hin. specialize (R t Hin). lia.
Qed.

Lemma distinct_clearTimeout (h : nat) (w : World) :
  distinct_handles w -> distinct_handles (clearTimeout h w).
Proof.
  intros [D R]. split; cbn.
  - now apply NoDup_map_filter.
  - intros t Hin. apply filter_In in Hin as [Hin _]. now apply R.
Qed.

Lemma distinct_setTimeout (cb : callback) (delay : Z) (w : World) :
  distinct_handles w -> distinct_handles (snd (setTimeout cb delay w)).
Proof.
  intros [D R]. split; cbn.
  - rewrite map_app. cbn. apply NoDup_snoc; [exact D|].
    intros Hin. apply in_map_iff in Hin as (t & E & Hin).
    specialize (R t Hin). lia.
  - intros t Hin. apply in_app_or in Hin as [Hin|[<-|[]]]; [specialize (R t Hin)|cbn]; lia.
Qed.

Lemma distinct_cancel_auth (id : string) : preserves distinct_handles (cancel_authTimer id).
Proof.
  intros w H. unfold cancel_authTimer, modify. cbn [fst].
  destruct (authTimers (hub w) !! id) as [h0|]; [|exact H].
  destruct (truthy_handle h0); [|exact H].
  apply (distinct_same (clearTimeout h0 w)); [reflexivity | cbn; lia |].
  now apply distinct_clearTimeout.
Qed.

Lemma distinct_cancel_ping (id : string) : preserves distinct_handles (cancel_pingTimer id).
Proof.
  intros w H. unfold cancel_pingTimer, modify. cbn [fst].
  destruct (pingTimers (hub w) !! id) as [h0|]; [|exact H].
  destruct (truthy_handle h0); [|exact H].
  apply (distinct_same (clearTimeout h0 w)); [reflexivity | cbn; lia |].
  now apply distinct_clearTimeout.
Qed.

Lemma distinct_arm_ping (s : nat) (id : string) : preserves distinct_handles (arm_pingTimer s id).
Proof.
  intros w H. unfold arm_pingTimer, modify. cbn [fst].
  apply (distinct_same (snd (setTimeout (PingTimeout s id) PING_TIMEOUT_MS w)));
    [reflexivity | cbn; lia |].
  now apply distinct_setTimeout.
Qed.

Lemma distinct_close (s : nat) (code : Z) (reason : string) :
  preserves distinct_handles (close s code reason).
Proof. intros w H. exact H. Qed.

Lemma distinct_onConnect (s : nat) (id : string) (ci : ConnInfo) :
  preserves distinct_handles (onConnect s id ci).
Proof.
  intros w H. unfold onConnect. rewrite !andThen_fst. unfold modify, send. cbn [fst].
  set (w1 := set_roomId _ w).
  apply (distinct_same (snd (setTimeout (AuthTimeout s id) AUTH_TIMEOUT_MS w1)));
    [reflexivity | cbn; lia |].
  apply distinct_setTimeout. exact H.
Qed.

Lemma run_callback_next (cb : callback) (w : World) :
  next_handle (fst (run_callback cb w)) = next_handle w.
Proof.
  destruct cb as [s id|s id]; cbn [run_callback].
  - unfold authTimeout_fires. rewrite andThen_fst.
    destruct (negb (conn_authed s w)); [rewrite andThen_fst|]; reflexivity.
  - unfold pingTimeout_fires. destruct (negb (conn_authed s w)); [reflexivity|].
    rewrite !andThen_fst. reflexivity.
Qed.

Lemma distinct_run_callback (cb : callback) : preserves distinct_handles (run_callback cb).
Proof.
  intros w H. apply (distinct_same w); [apply run_callback_timers | | exact H].
  rewrite run_callback_next. lia.
Qed.

Lemma distinct_onMessage_begin (s : nat) (id : string) (raw : WSParsed) (w : World)
    (r : World * list Output) :
  distinct_handles w -> onMessage_begin s id raw w = Done r -> distinct_handles (fst r).
Proof.
  intros H. unfold onMessage_begin.
  repeat match goal with
         | |- context [match ?x with _ => _ end] => destruct x eqn:?
         end;
    intros E; inversion E; subst; clear E; try exact H;
    rewrite ?andThen_fst, ?fst_send, ?fst_sendError; try exact H.
  all: now apply distinct_arm_ping, distinct_cancel_ping.
Qed.

Lemma distinct_onMessage_resume (p : Pending) (res : AuthResult) :
  preserves distinct_handles (onMessage_resume p res).
Proof.
  intros w H. destruct (success res) eqn:Hs.
  - rewrite resume_success by exact Hs. cbn [fst].
    apply distinct_arm_ping, distinct_cancel_auth. exact H.
  - unfold onMessage_resume. cbv zeta. rewrite Hs. cbn [negb].
    rewrite andThen_fst. exact H.
Qed.

Lemma distinct_step (e : Event) : preserves distinct_handles (step e).
Proof.
  intros w H. destruct e as [id ci|s|s raw|p reply|r|h|d]; cbn [step].
  - now apply distinct_onConnect.
  - destruct (conns w !! s) as [k|]; [|exact H].
    unfold onClose. rewrite andThen_fst.
    now apply distinct_cancel_ping, distinct_cancel_auth.
  - destruct (conns w !! s) as [k|]; [|exact H].
    destruct (onMessage_begin s (conn_id k) raw w) as [res|pend] eqn:E; [|exact H].
    eapply distinct_onMessage_begin; eauto.
  - destruct (conns w !! p_conn p) as [k|]; [|exact H].
    destruct (String.eqb (conn_id k) (p_id p)); [|exact H].
    now apply distinct_onMessage_resume.
  - pose proof (onRequest_frame_timers r w) as [T N].
    apply (distinct_same w); [exact T | lia | exact H].
  - destruct (find_timer h w) as [t|]; [|exact H].
    destruct (t_due t <=? now w); [|exact H].
    now apply distinct_run_callback, distinct_clearTimeout.
  - exact H.
Qed.

(** Handles are never given out twice, whatever the events. *)
Lemma distinct_run (es : list Event) (w : World) :
  distinct_handles w -> distinct_handles (fst (run es w)).
Proof.
  revert w. induction es as [|ev es IH]; intros w H; cbn [run]; [exact H|].
  rewrite andThen_fst. apply IH. now apply distinct_step.
Qed.

Lemma distinct_init (e : Env) : distinct_handles (init e).
Proof. split; cbn; [constructor | intros t []]. Qed.

Lemma at_most_one (f : Timer -> bool) (v : nat) (l : list Timer) :
  List.NoDup (map t_handle l) ->
  (forall t, In t l -> f t = true -> t_handle t = v) ->
  (length (List.filter f l) <= 1)%nat.
Proof.
  induction l as [|x l IH]; cbn; [lia|].
  intros D Hv. apply List.NoDup_cons_iff in D as [Hx Hl].
  destruct (f x) eqn:Fx.
  - rewrite (filter_none f l); [cbn; lia|].
    intros y Hy. destruct (f y) eqn:Fy; [|reflexivity].
    exfalso. apply Hx. apply in_map_iff. exists y. split; [|exact Hy].
    rewrite (Hv y (or_intror Hy) Fy), (Hv x (or_introl eq_refl) Fx). reflexivity.
  - apply IH; [exact Hl|]. intros t Hin. apply Hv. now right.
Qed.

(** X22. Every world that a new hub reaches through events that open no
    two sockets under the same id is well formed and has no two armed
    timers with the same handle. *)
Theorem reachable_invariants (e : Env) (es : list Event) :
  List.NoDup (connect_ids es) ->
  wf (fst (run es (init e))) /\ distinct_handles (fst (run es (init e))).
Proof.
  intros Hnd. split; [apply wf_run; [apply wf_init | exact Hnd]|].
  apply distinct_run, distinct_init.
Qed.

Lemma reachable_invariants_witness :
  List.NoDup (connect_ids (Ex.reauth ++ Ex.while_waiting)) /\
  wf (fst (run (Ex.reauth ++ Ex.while_waiting) (init Ex.e0))) /\
  distinct_handles (fst (run (Ex.reauth ++ Ex.while_waiting) (init Ex.e0))).
Proof.
  assert (D : List.NoDup (connect_ids (Ex.reauth ++ Ex.while_waiting))) by distinct_ids.
  split; [exact D|]. apply (reachable_invariants Ex.e0 (Ex.reauth ++ Ex.while_waiting) D).
Defined.

(** X23. In every world that a new hub reaches through events that open no
    two sockets under the same id, at most one admission timer is armed for
    an id, and at most one for a socket. *)
Theorem one_admission_timer (e : Env) (es : list Event) (s : nat) (id : string) :
  List.NoDup (connect_ids es) ->
  let w := fst (run es (init e)) in
  (length (List.filter (is_auth_key id) (timers w)) <= 1)%nat /\
  (length (auth_timers_of s w) <= 1)%nat.
Proof.
  intros Hnd. cbv zeta.
  assert (W : wf (fst (run es (init e)))) by (apply wf_run; [apply wf_init | exact Hnd]).
  assert (D : distinct_handles (fst (run es (init e)))) by apply distinct_run, distinct_init.
  set (w := fst (run es (init e))) in *. destruct D as [D _].
  assert (K : forall i, (length (List.filter (is_auth_key i) (timers w)) <= 1)%nat).
  { intros i. destruct (authTimers (hub w) !! i) as [h0|] eqn:E.
    - apply (at_most_one _ h0); [exact D|].
      intros t Hin Hf. apply is_auth_key_spec in Hf as [s' Ecb].
      pose proof (wf_auth_indexed w W t s' i Hin Ecb) as X. congruence.
    - rewrite filter_none; [cbn; lia|].
      intros t Hin. destruct (is_auth_key i t) eqn:Hf; [|reflexivity].
      apply is_auth_key_spec in Hf as [s' Ecb].
      pose proof (wf_auth_indexed w W t s' i Hin Ecb) as X. congruence. }
  split; [apply K|].
  unfold auth_timers_of. destruct (conn_key s w) as [i|] eqn:Hk.
  - destruct (authTimers (hub w) !! i) as [h0|] eqn:E.
    + apply (at_most_one _ h0); [exact D|].
      intros t Hin Hf. pose proof (auth_timer_key s i w t W Hk Hin Hf) as Hf'.
      apply is_auth_key_spec in Hf' as [s' Ecb].
      pose proof (wf_auth_indexed w W t s' i Hin Ecb) as X. congruence.
    + rewrite filter_none; [cbn; lia|].
      intros t Hin. destruct (is_auth_timer s t) eqn:Hf; [|reflexivity].
      pose proof (auth_timer_key s i w t W Hk Hin Hf) as Hf'.
      apply is_auth_key_spec in Hf' as [s' Ecb].
      pose proof (wf_auth_indexed w W t s' i Hin Ecb) as X. congruence.
  - rewrite filter_none; [cbn; lia|].
    intros t Hin. destruct (is_auth_timer s t) eqn:Hf; [|reflexivity].
    pose proof (wf_registered w W t Hin) as R.
    unfold is_auth_timer in Hf. destruct (t_cb t) as [s' i|s' i]; [|discriminate].
    apply Nat.eqb_eq in Hf. subst s'. cbn in R. congruence.
Qed.

Lemma one_admission_timer_witness :
  List.NoDup (connect_ids (Ex.reauth ++ Ex.while_waiting)) /\
  (length (List.filter (is_auth_key "B")
             (timers (fst (run (Ex.reauth ++ Ex.while_waiting) (init Ex.e0))))) <= 1)%nat /\
  (length (auth_timers_of 1 (fst (run (Ex.reauth ++ Ex.while_waiting) (init Ex.e0)))) <= 1)%nat.
Proof.
  assert (D : List.NoDup (connect_ids (Ex.reauth ++ Ex.while_waiting))) by distinct_ids.
  split; [exact D|].
  apply (one_admission_timer Ex.e0 (Ex.reauth ++ Ex.while_waiting) 1 "B" D).
Defined.

(** Without that proviso the count is not kept: two sockets under one id
    leave two admission timers armed for the id, of which the hub knows the
    second. *)
Example shared_id_two_timers :
  map t_handle (List.filter (is_auth_key "X") (timers Ex.w_shared)) = [1%nat; 2%nat] /\
  authTimers (hub Ex.w_shared) !! "X" = Some 2%nat.
Proof. vm_compute. split; reflexivity. Qed.

(** ** The worker's router *)

Lemma split_rooms (room : string) :
  no_slash room = true ->
  split_slash (String.append "/rooms/" room) = [""; "rooms"; room].
Proof.
  intros H. rewrite !append_cons, append_nil. cbn [split_slash Ascii.eqb Bool.eqb].
  now rewrite (split_no_slash room H).
Qed.

Lemma split_last_message (room : string) :
  no_slash room = true ->
  split_slash (String.append "/api/last-message/" room) = [""; "api"; "last-message"; room].
Proof.
  intros H. rewrite !append_cons, append_nil. cbn [split_slash Ascii.eqb Bool.eqb].
  now rewrite (split_no_slash room H).
Qed.

(** X24. An upgrade at [/rooms/<room>]: the worker hands it to the hub named
    by the third component of the path, which is the segment the pattern
    matched, and forwards the request with that name in the room header,
    the party "chat", and the request's url as the original url. *)
Theorem upgrade_routes_to_room (r : EdgeRequest) :
  matches_segment "/rooms/" (e_pathname r) = true ->
  e_upgrade r = Some "websocket" ->
  exists room,
    e_pathname r = String.append "/rooms/" room /\ room <> "" /\ no_slash room = true /\
    fetch_route r
      = RouteSocket room {| sf_url := e_url r; sf_roomHeader := room;
                            sf_party := "chat"; sf_originalUrl := e_url r |}.
Proof.
  intros Hm Hu. pose proof Hm as Hm'.
  apply matches_segment_spec in Hm' as (room & Hp & Hne & Hns).
  exists room. split; [exact Hp|]. split; [exact Hne|]. split; [exact Hns|].
  unfold fetch_route. rewrite Hm, Hu, bool_decide_eq_true_2 by reflexivity. cbn [andb].
  rewrite Hp, (split_rooms room Hns). reflexivity.
Qed.

Lemma upgrade_routes_to_room_witness :
  exists room,
    "/rooms/r1" = String.append "/rooms/" room /\ room <> "" /\ no_slash room = true /\
    fetch_route {| e_url := "https://ws.nativor.com/rooms/r1"; e_pathname := "/rooms/r1";
                   e_method := "GET"; e_upgrade := Some "websocket";
                   e_authorization := None; e_body := None |}
      = RouteSocket room {| sf_url := "https://ws.nativor.com/rooms/r1"; sf_roomHeader := room;
                            sf_party := "chat";
                            sf_originalUrl := "https://ws.nativor.com/rooms/r1" |}.
Proof.
  apply (upgrade_routes_to_room
           {| e_url := "https://ws.nativor.com/rooms/r1"; e_pathname := "/rooms/r1";
              e_method := "GET"; e_upgrade := Some "websocket";
              e_authorization := None; e_body := None |}); reflexivity.
Defined.

(** X25. [GET /api/last-message/<room>]: the pattern guarantees a non-empty
    fourth path component, so the worker always forwards to the hub of
    that room, as a [GET /last-message] with the caller's authorization;
    the "roomId required" answer of this route cannot occur. *)
Theorem last_message_route (r : EdgeRequest) :
  matches_segment "/api/last-message/" (e_pathname r) = true ->
  e_method r = "GET" ->
  exists room,
    e_pathname r = String.append "/api/last-message/" room /\ room <> "" /\
    fetch_route r
      = RouteHub room {| req_method := "GET"; req_pathname := "/last-message";
                         req_authorization := forwarded_authorization r;
                         req_body := None |}.
Proof.
  intros Hm Hg. pose proof Hm as Hm'.
  apply matches_segment_spec in Hm' as (room & Hp & Hne & Hns).
  exists room. split; [exact Hp|]. split; [exact Hne|].
  unfold fetch_route.
  assert (N1 : matches_segment "/rooms/" (e_pathname r) = false).
  { unfold matches_segment. rewrite Hp, !append_cons. reflexivity. }
  assert (N2 : String.eqb (e_pathname r) "/api/broadcast" = false).
  { rewrite Hp, !append_cons. reflexivity. }
  rewrite N1, N2, Hm, Hg. cbn [andb].
  change (String.eqb "GET" "GET") with true. cbv iota.
  rewrite Hp, (split_last_message room Hns). cbn [nth_error].
  apply String.eqb_neq in Hne. now rewrite Hne.
Qed.

Lemma last_message_route_witness :
  exists room,
    "/api/last-message/r1" = String.append "/api/last-message/" room /\ room <> "" /\
    fetch_route {| e_url := "https://ws.nativor.com/api/last-message/r1";
                   e_pathname := "/api/last-message/r1"; e_method := "GET";
                   e_upgrade := None; e_authorization := Some "Bearer s3cret";
                   e_body := None |}
      = RouteHub room {| req_method := "GET"; req_pathname := "/last-message";
                         req_authorization := Some "Bearer s3cret"; req_body := None |}.
Proof.
  apply (last_message_route
           {| e_url := "https://ws.nativor.com/api/last-message/r1";
              e_pathname := "/api/last-message/r1"; e_method := "GET";
              e_upgrade := None; e_authorization := Some "Bearer s3cret";
              e_body := None |}); reflexivity.
Defined.

(** X26. [POST /api/broadcast] without a usable room identifier (no body, no
    [roomId], an empty one) is answered 400 by the worker itself: no hub is
    looked up, created or changed, and nothing is sent. *)
Theorem edge_broadcast_requires_room (e : Env) (r : EdgeRequest) (rooms : gmap string World) :
  e_pathname r = "/api/broadcast" ->
  e_method r = "POST" ->
  match e_body r with
  | Some body => truthy_str (b_roomId body) = false
  | None => True
  end ->
  fetch e r rooms
    = Some ({| status := 400; response_body := json_failure "roomId required" |}, rooms, []).
Proof.
  intros Hp Hm Hb. unfold fetch, fetch_route. rewrite Hp, Hm.
  change (matches_segment "/rooms/" "/api/broadcast") with false.
  change (String.eqb "/api/broadcast" "/api/broadcast") with true.
  change (String.eqb "POST" "POST") with true. cbn [andb].
  destruct (e_body r) as [body|]; [|reflexivity]. now rewrite Hb.
Qed.

Lemma edge_broadcast_requires_room_witness :
  fetch Ex.e0 {| e_url := "https://ws.nativor.com/api/broadcast"; e_pathname := "/api/broadcast";
                 e_method := "POST"; e_upgrade := None;
                 e_authorization := Some "Bearer s3cret";
                 e_body := Some {| b_roomId := None; b_message := Some Ex.m1;
                                   b_excludeConnectionIds := None |} |}
        {["r1" := Ex.w_two]}
    = Some ({| status := 400; response_body := json_failure "roomId required" |},
            {["r1" := Ex.w_two]}, []).
Proof.
  apply (edge_broadcast_requires_room Ex.e0 _ {["r1" := Ex.w_two]}); reflexivity.
Defined.

(** X28. End to end: the backend posts a message for a room through
    [/api/broadcast] and then reads [/api/last-message/<room>], both with
    the secret of that room's hub.  The post is answered 200, is fanned out
    by the hub of that room and leaves that hub with the message as its
    cache; the read is answered 200 with exactly the posted message and the
    room, sends nothing and changes no hub. *)
Theorem edge_post_then_read (e : Env) (r q : EdgeRequest) (body : Body) (room : string)
    (m : json) (rooms : gmap string World) :
  e_pathname r = "/api/broadcast" -> e_method r = "POST" ->
  e_body r = Some body -> b_roomId body = Some room ->
  room <> "" -> no_slash room = true ->
  b_message body = Some m -> truthy_json m = true ->
  e_authorization r = Some (bearer (WEBHOOK_TOKEN (env (hub_of e rooms room)))) ->
  (truthy_str (roomId (hub (hub_of e rooms room))) = true ->
   roomId (hub (hub_of e rooms room)) = Some room) ->
  e_pathname q = String.append "/api/last-message/" room -> e_method q = "GET" ->
  e_authorization q = e_authorization r ->
  let w := hub_of e rooms room in
  let rooms' := <[room := set_lastMessage m (set_roomId (Some room) w)]> rooms in
  fetch e r rooms
    = Some ({| status := 200; response_body := Json (JObj [("success", JBool true)]) |},
            rooms',
            snd (broadcast (payload_broadcast m (lastMessage (hub w)))
                           (b_excludeConnectionIds body) w)) /\
  fetch e q rooms'
    = Some ({| status := 200;
               response_body := Json (JObj [("success", JBool true); ("lastMessage", m);
                                            ("roomId", JStr room)]) |},
            rooms', []).
Proof.
  intros Hp Hm Hb Hr Hne Hns Hmsg Htr Ha Hroom Hqp Hqm Hqa. cbv zeta.
  set (w := hub_of e rooms room) in *.
  set (inner := {| req_method := "POST"; req_pathname := "/broadcast";
                   req_authorization := forwarded_authorization r;
                   req_body := Some body |}).
  assert (Hfa : forwarded_authorization r = Some (bearer (WEBHOOK_TOKEN (env w)))).
  { unfold forwarded_authorization. rewrite Ha. reflexivity. }
  assert (R1 : fetch_route r = RouteHub room inner).
  { unfold fetch_route. rewrite Hp, Hm.
    change (matches_segment "/rooms/" "/api/broadcast") with false.
    change (String.eqb "/api/broadcast" "/api/broadcast") with true.
    change (String.eqb "POST" "POST") with true. cbn [andb].
    rewrite Hb, Hr. unfold truthy_str. apply String.eqb_neq in Hne. now rewrite Hne. }
  pose proof (trigger_accepted inner body room m w eq_refl eq_refl Hfa eq_refl Hr Hne Hmsg Htr Hroom)
    as T.
  set (w' := set_lastMessage m (set_roomId (Some room) w)) in *.
  split.
  { unfold fetch. rewrite R1. fold w. rewrite T. reflexivity. }
  assert (Mq : matches_segment "/api/last-message/" (e_pathname q) = true).
  { apply matches_segment_spec. eauto. }
  assert (R2 : fetch_route q
               = RouteHub room {| req_method := "GET"; req_pathname := "/last-message";
                                  req_authorization := forwarded_authorization q;
                                  req_body := None |}).
  { unfold fetch_route.
    assert (N1 : matches_segment "/rooms/" (e_pathname q) = false).
    { unfold matches_segment. rewrite Hqp, !append_cons. reflexivity. }
    assert (N2 : String.eqb (e_pathname q) "/api/broadcast" = false).
    { rewrite Hqp, !append_cons. reflexivity. }
    rewrite N1, N2, Mq, Hqm. cbn [andb].
    change (String.eqb "GET" "GET") with true. cbv iota.
    rewrite Hqp, (split_last_message room Hns). cbn [nth_error].
    apply String.eqb_neq in Hne. now rewrite Hne. }
  unfold fetch. rewrite R2.
  assert (Hh : hub_of e (<[room := w']> rooms) room = w').
  { unfold hub_of. now rewrite lookup_insert_eq. }
  rewrite Hh.
  assert (Hq : req_authorization
                 {| req_method := "GET"; req_pathname := "/last-message";
                    req_authorization := forwarded_authorization q; req_body := None |}
               = Some (bearer (WEBHOOK_TOKEN (env w')))).
  { cbn [req_authorization]. unfold forwarded_authorization. rewrite Hqa, Ha. reflexivity. }
  rewrite (last_message_reads
             {| req_method := "GET"; req_pathname := "/last-message";
                req_authorization := forwarded_authorization q; req_body := None |}
             w' eq_refl eq_refl Hq).
  cbn [status response_body]. now rewrite insert_insert_eq.
Qed.

Lemma edge_post_then_read_witness :
  let w := hub_of Ex.e0 ExEdge.rooms "r1" in
  let rooms' := <["r1" := set_lastMessage Ex.m1 (set_roomId (Some "r1") w)]> ExEdge.rooms in
  fetch Ex.e0 ExEdge.post ExEdge.rooms
    = Some ({| status := 200; response_body := Json (JObj [("success", JBool true)]) |},
            rooms',
            snd (broadcast (payload_broadcast Ex.m1 (lastMessage (hub w))) None w)) /\
  fetch Ex.e0 ExEdge.read rooms'
    = Some ({| status := 200;
               response_body := Json (JObj [("success", JBool true); ("lastMessage", Ex.m1);
                                            ("roomId", JStr "r1")]) |},
            rooms', []).
Proof.
  apply (edge_post_then_read Ex.e0 ExEdge.post ExEdge.read
           {| b_roomId := Some "r1"; b_message := Some Ex.m1; b_excludeConnectionIds := None |}
           "r1" Ex.m1 ExEdge.rooms);
    [reflexivity | reflexivity | reflexivity | reflexivity | discriminate | reflexivity
    | reflexivity | reflexivity | reflexivity | intros _; reflexivity
    | reflexivity | reflexivity | reflexivity].
Defined.
